(** * Turn-taking and session-protocol engine of rizma-heygen

    A shallow embedding of the client-side core of the interview front end:

    - [JsString]: identifiers, addresses and texts that are only passed
      on or tested for emptiness;
    - [Utf16]: recognised speech and typed input, as sequences of UTF-16
      code units, with the string operations the handlers use ([trim],
      [substring], [startsWith], [length], [===]); [toLowerCase], a
      built-in of the run time that follows the Unicode case tables, is a
      parameter of the handlers that call it;
    - [Aggregator]: the transcript aggregation of the [AvatarView] component
      (the revision with push-to-talk support), with its timers;
    - [SpeakQueue]: the pending-speak queue of the same component;
    - [Interview]: the [interviewReducer] of the [useInterview] hook;
    - [UseWebSocket]: the first revision of the [useWebSocket] hook
      ([frontend/src/hooks/useWebSocket.ts]);
    - [UseWebSocketStored]: the later revision of the same hook, the one
      [useInterview] calls, which keeps the session identifier in
      [activeSessionIdRef].

    Handlers run to completion on one event loop, so every handler is a
    function from state to state.  [setTimeout] puts a callback in a finite
    map of pending timers, [clearTimeout] deletes it, and the event
    [TimerFired] runs it; the run time never fires a timer before it is
    due. *)

From Stdlib Require Import String Ascii ZArith List Bool Lia DecimalString.
From stdpp Require Import gmap list strings.
Import ListNotations.

Open Scope string_scope.
Open Scope list_scope.
Open Scope nat_scope.

(* ===================================================================== *)
(** ** JavaScript strings *)
(* ===================================================================== *)

(** Identifiers, addresses, console lines and the texts the handlers only
    pass on or test for emptiness, as strings of code units below 256. *)
Module JsString.

(** Truthiness of a string: only the empty string is falsy. *)
Definition truthy (s : string) : bool :=
  match s with EmptyString => false | _ => true end.

End JsString.

(* ===================================================================== *)
(** ** JavaScript strings as sequences of UTF-16 code units *)
(* ===================================================================== *)

(** The text of a recognition event is whatever the recognizer heard, and
    the chat input holds whatever is typed, so their handlers are modelled
    on strings as JavaScript has them: sequences of UTF-16 code units,
    [length] counting code units. *)
Module Utf16.

Definition str : Type := list N.

(** The string of a literal whose code units are below 256. *)
Definition js (s : string) : str := map N_of_ascii (list_ascii_of_string s).

(** [' '] *)
Definition space : str := [32%N].

(** [WhiteSpace] and [LineTerminator] of ECMAScript: TAB, LF, VT, FF, CR,
    SP, NBSP, U+1680, U+2000 to U+200A, LS, PS, U+202F, U+205F, U+3000
    and the byte order mark U+FEFF. *)
Definition is_white_space (u : N) : bool :=
  (((9 <=? u) && (u <=? 13)) || (u =? 32) || (u =? 160) || (u =? 5760)
   || ((8192 <=? u) && (u <=? 8202)) || (u =? 8232) || (u =? 8233)
   || (u =? 8239) || (u =? 8287) || (u =? 12288) || (u =? 65279))%N.

Fixpoint trimStart (s : str) : str :=
  match s with
  | [] => []
  | u :: r => if is_white_space u then trimStart r else s
  end.

Fixpoint trimEnd (s : str) : str :=
  match s with
  | [] => []
  | u :: r =>
      match trimEnd r with
      | [] => if is_white_space u then [] else [u]
      | r' => u :: r'
      end
  end.

(** [String.prototype.trim] *)
Definition trim (s : str) : str := trimEnd (trimStart s).

(** [s.substring(0, n)] *)
Definition substring0 (n : nat) (s : str) : str := take n s.

(** [s.startsWith(p)] *)
Fixpoint startsWith (s p : str) {struct p} : bool :=
  match p with
  | [] => true
  | u :: p' =>
      match s with
      | [] => false
      | v :: s' => (u =? v)%N && startsWith s' p'
      end
  end.

(** [a === b] on strings *)
Fixpoint eqb (a b : str) : bool :=
  match a, b with
  | [], [] => true
  | u :: a', v :: b' => (u =? v)%N && eqb a' b'
  | _, _ => false
  end.

(** Truthiness of a string: only the empty string is falsy. *)
Definition truthy (s : str) : bool :=
  match s with [] => false | _ => true end.

(** *** Lower case

    [String.prototype.toLowerCase] follows the Unicode case tables, which
    are not part of the repository: the handlers take it as a parameter,
    and what is proved of them holds whatever function it is.  For the
    examples the function is given on the code units that occur in them:
    the code units below 256, where the capitals A-Z and U+00C0 to U+00DE
    (except the multiplication sign U+00D7) move up by 32, and U+0130,
    LATIN CAPITAL LETTER I WITH DOT ABOVE, whose lower case is the two
    code units U+0069 U+0307. *)

Definition lowerLatin1 (u : N) : N :=
  if (((65 <=? u) && (u <=? 90))
      || ((192 <=? u) && (u <=? 222) && negb (u =? 215)))%N
  then (u + 32)%N
  else u.

Definition lowerUnit (u : N) : str :=
  if (u =? 304)%N then [105%N; 775%N] else [lowerLatin1 u].

(** The code units the table covers. *)
Definition tabled (u : N) : bool := ((u <? 256) || (u =? 304))%N.

(** [toLowerCase] on strings of code units the table covers. *)
Definition toLowerCaseLatin (s : str) : str := flat_map lowerUnit s.

End Utf16.

(* ===================================================================== *)
(** ** Transcript aggregation (AvatarView) *)
(* ===================================================================== *)

Module Aggregator.
Import Utf16.

(** The three callbacks the component hands to [setTimeout]. *)
Inductive Callback : Type :=
| GraceEnd          (* () => { isSpeakingRef.current = false } *)
| SendAfterRelease  (* () => { pttReleasedRef.current = false; sendTranscript() } *)
| SendTranscript.   (* sendTranscript, () => sendTranscriptRef.current() *)

Record Timer : Type := { due : Z; callback : Callback }.

(** The refs of the component, the pending timers, and the texts handed
    to the [onUserTranscript] listener so far. *)
Record State : Type := {
  isSpeaking : bool;               (* isSpeakingRef *)
  currentTranscript : str;         (* currentTranscriptRef *)
  lastSentTranscript : str;        (* lastSentTranscriptRef *)
  sendTimeout : option nat;        (* sendTimeoutRef *)
  lastTranscriptTime : Z;          (* lastTranscriptTimeRef *)
  prevPushToTalk : bool;           (* prevPushToTalkRef *)
  pttReleased : bool;              (* pttReleasedRef *)
  pushToTalkEnabled : bool;        (* pushToTalkEnabledRef / prop *)
  onUserTranscript : bool;         (* is onUserTranscriptRef.current set? *)
  timers : gmap nat Timer;         (* pending timers, by handle *)
  nextTimer : nat;                 (* the next fresh handle *)
  userTranscripts : list str       (* calls of onUserTranscript, in order *)
}.

Definition initial (ptt listener : bool) : State :=
  {| isSpeaking := false; currentTranscript := []; lastSentTranscript := [];
     sendTimeout := None; lastTranscriptTime := 0; prevPushToTalk := false;
     pttReleased := false; pushToTalkEnabled := ptt;
     onUserTranscript := listener; timers := ∅; nextTimer := 0;
     userTranscripts := [] |}.

(** *** Field updates *)

Definition set_isSpeaking (b : bool) (s : State) : State :=
  {| isSpeaking := b; currentTranscript := currentTranscript s;
     lastSentTranscript := lastSentTranscript s; sendTimeout := sendTimeout s;
     lastTranscriptTime := lastTranscriptTime s;
     prevPushToTalk := prevPushToTalk s; pttReleased := pttReleased s;
     pushToTalkEnabled := pushToTalkEnabled s;
     onUserTranscript := onUserTranscript s; timers := timers s;
     nextTimer := nextTimer s; userTranscripts := userTranscripts s |}.

Definition set_currentTranscript (t : str) (s : State) : State :=
  {| isSpeaking := isSpeaking s; currentTranscript := t;
     lastSentTranscript := lastSentTranscript s; sendTimeout := sendTimeout s;
     lastTranscriptTime := lastTranscriptTime s;
     prevPushToTalk := prevPushToTalk s; pttReleased := pttReleased s;
     pushToTalkEnabled := pushToTalkEnabled s;
     onUserTranscript := onUserTranscript s; timers := timers s;
     nextTimer := nextTimer s; userTranscripts := userTranscripts s |}.

Definition set_lastSentTranscript (t : str) (s : State) : State :=
  {| isSpeaking := isSpeaking s; currentTranscript := currentTranscript s;
     lastSentTranscript := t; sendTimeout := sendTimeout s;
     lastTranscriptTime := lastTranscriptTime s;
     prevPushToTalk := prevPushToTalk s; pttReleased := pttReleased s;
     pushToTalkEnabled := pushToTalkEnabled s;
     onUserTranscript := onUserTranscript s; timers := timers s;
     nextTimer := nextTimer s; userTranscripts := userTranscripts s |}.

Definition set_sendTimeout (h : option nat) (s : State) : State :=
  {| isSpeaking := isSpeaking s; currentTranscript := currentTranscript s;
     lastSentTranscript := lastSentTranscript s; sendTimeout := h;
     lastTranscriptTime := lastTranscriptTime s;
     prevPushToTalk := prevPushToTalk s; pttReleased := pttReleased s;
     pushToTalkEnabled := pushToTalkEnabled s;
     onUserTranscript := onUserTranscript s; timers := timers s;
     nextTimer := nextTimer s; userTranscripts := userTranscripts s |}.

Definition set_lastTranscriptTime (t : Z) (s : State) : State :=
  {| isSpeaking := isSpeaking s; currentTranscript := currentTranscript s;
     lastSentTranscript := lastSentTranscript s; sendTimeout := sendTimeout s;
     lastTranscriptTime := t;
     prevPushToTalk := prevPushToTalk s; pttReleased := pttReleased s;
     pushToTalkEnabled := pushToTalkEnabled s;
     onUserTranscript := onUserTranscript s; timers := timers s;
     nextTimer := nextTimer s; userTranscripts := userTranscripts s |}.

Definition set_prevPushToTalk (b : bool) (s : State) : State :=
  {| isSpeaking := isSpeaking s; currentTranscript := currentTranscript s;
     lastSentTranscript := lastSentTranscript s; sendTimeout := sendTimeout s;
     lastTranscriptTime := lastTranscriptTime s;
     prevPushToTalk := b; pttReleased := pttReleased s;
     pushToTalkEnabled := pushToTalkEnabled s;
     onUserTranscript := onUserTranscript s; timers := timers s;
     nextTimer := nextTimer s; userTranscripts := userTranscripts s |}.

Definition set_pttReleased (b : bool) (s : State) : State :=
  {| isSpeaking := isSpeaking s; currentTranscript := currentTranscript s;
     lastSentTranscript := lastSentTranscript s; sendTimeout := sendTimeout s;
     lastTranscriptTime := lastTranscriptTime s;
     prevPushToTalk := prevPushToTalk s; pttReleased := b;
     pushToTalkEnabled := pushToTalkEnabled s;
     onUserTranscript := onUserTranscript s; timers := timers s;
     nextTimer := nextTimer s; userTranscripts := userTranscripts s |}.

Definition set_timers (m : gmap nat Timer) (n : nat) (s : State) : State :=
  {| isSpeaking := isSpeaking s; currentTranscript := currentTranscript s;
     lastSentTranscript := lastSentTranscript s; sendTimeout := sendTimeout s;
     lastTranscriptTime := lastTranscriptTime s;
     prevPushToTalk := prevPushToTalk s; pttReleased := pttReleased s;
     pushToTalkEnabled := pushToTalkEnabled s;
     onUserTranscript := onUserTranscript s; timers := m;
     nextTimer := n; userTranscripts := userTranscripts s |}.

(** [onUserTranscriptRef.current(t)] *)
Definition call_onUserTranscript (t : str) (s : State) : State :=
  {| isSpeaking := isSpeaking s; currentTranscript := currentTranscript s;
     lastSentTranscript := lastSentTranscript s; sendTimeout := sendTimeout s;
     lastTranscriptTime := lastTranscriptTime s;
     prevPushToTalk := prevPushToTalk s; pttReleased := pttReleased s;
     pushToTalkEnabled := pushToTalkEnabled s;
     onUserTranscript := onUserTranscript s; timers := timers s;
     nextTimer := nextTimer s; userTranscripts := userTranscripts s ++ [t] |}.

(** *** Timers *)

(** [setTimeout(cb, delay)] at time [now]: the new handle and the state. *)
Definition setTimeout (cb : Callback) (delay now : Z) (s : State) : nat * State :=
  (nextTimer s,
   set_timers (<[nextTimer s := {| due := now + delay; callback := cb |}]> (timers s))
              (S (nextTimer s)) s).

(** [clearTimeout(h)]; clearing a handle that already fired does nothing. *)
Definition clearTimeout (h : nat) (s : State) : State :=
  set_timers (delete h (timers s)) (nextTimer s) s.

(** [if (sendTimeoutRef.current) clearTimeout(sendTimeoutRef.current)] *)
Definition clearSendTimeout (s : State) : State :=
  match sendTimeout s with
  | Some h => clearTimeout h s
  | None => s
  end.

(** [sendTimeoutRef.current = setTimeout(cb, delay)] *)
Definition armSendTimeout (cb : Callback) (delay now : Z) (s : State) : State :=
  let (h, s') := setTimeout cb delay now s in set_sendTimeout (Some h) s'.

(** *** sendTranscript *)

Definition sendTranscript (now : Z) (s : State) : State :=
  let transcript := trim (currentTranscript s) in
  if negb (truthy transcript) || (length transcript <? 3) then
    set_currentTranscript [] s
  else if isSpeaking s then
    armSendTimeout SendTranscript 1000 now s
  else if eqb transcript (lastSentTranscript s) then
    set_currentTranscript [] s
  else
    let s1 := set_currentTranscript [] (set_lastSentTranscript transcript s) in
    if onUserTranscript s1 then call_onUserTranscript transcript s1 else s1.

(** *** The push-to-talk effect

    The effect that runs when the [isPushToTalkActive] prop changes. *)
Definition pushToTalkEffect (isPushToTalkActive : bool) (now : Z) (s : State) : State :=
  if negb (pushToTalkEnabled s) then set_prevPushToTalk isPushToTalkActive s
  else
    let prev := prevPushToTalk s in
    let s1 :=
      if prev && negb isPushToTalkActive then
        armSendTimeout SendAfterRelease 2000 now
          (clearSendTimeout (set_pttReleased true s))
      else s in
    let s2 :=
      if negb prev && isPushToTalkActive then
        let s' := set_pttReleased false
                    (set_lastSentTranscript [] (set_currentTranscript [] s1)) in
        match sendTimeout s' with
        | Some h => set_sendTimeout None (clearTimeout h s')
        | None => s'
        end
      else s1 in
    set_prevPushToTalk isPushToTalkActive s2.

(** *** The USER_TRANSCRIPTION handler *)

Section Handlers.

(** [String.prototype.toLowerCase] of the run time. *)
Variable toLowerCase : str -> str.

(** The push-to-talk merge of the buffer [current] with the event's [text]. *)
Definition mergeTranscript (current text : str) : str :=
  if truthy current
     && negb (startsWith (toLowerCase text) (substring0 20 (toLowerCase current)))
  then current ++ space ++ text
  else if length current <? length text then text else current.

Definition onUserTranscription (text : str) (now : Z) (s : State) : State :=
  if isSpeaking s then s
  else if negb (truthy text) || (length (trim text) <? 2) then s
  else if pushToTalkEnabled s then
    let s1 := set_currentTranscript (mergeTranscript (currentTranscript s) text) s in
    if pttReleased s1 then
      armSendTimeout SendAfterRelease 2000 now (clearSendTimeout s1)
    else s1
  else
    let s1 := set_currentTranscript text s in
    let s2 := if (now - lastTranscriptTime s1 >? 5000)%Z
              then set_lastSentTranscript [] s1 else s1 in
    let s3 := set_lastTranscriptTime now s2 in
    armSendTimeout SendTranscript 3000 now (clearSendTimeout s3).

(** *** AVATAR_SPEAK_STARTED and AVATAR_SPEAK_ENDED *)

Definition onAvatarSpeakStarted (s : State) : State := set_isSpeaking true s.

(** The handle of the 500ms timer is not kept. *)
Definition onAvatarSpeakEnded (now : Z) (s : State) : State :=
  snd (setTimeout GraceEnd 500 now s).

(** *** Timer callbacks *)

Definition runCallback (cb : Callback) (now : Z) (s : State) : State :=
  match cb with
  | GraceEnd => set_isSpeaking false s
  | SendAfterRelease => sendTranscript now (set_pttReleased false s)
  | SendTranscript => sendTranscript now s
  end.

(** A pending timer that is due runs once and leaves the pending set. *)
Definition onTimer (h : nat) (now : Z) (s : State) : State :=
  match timers s !! h with
  | Some t =>
      if (due t <=? now)%Z
      then runCallback (callback t) now (clearTimeout h s)
      else s
  | None => s
  end.

(** *** Events *)

Inductive Event : Type :=
| UserTranscription (text : str)
| AvatarSpeakStarted
| AvatarSpeakEnded
| PushToTalk (isPushToTalkActive : bool)
| TimerFired (h : nat).

(** One event, handled at time [now]. *)
Definition step (now : Z) (e : Event) (s : State) : State :=
  match e with
  | UserTranscription text => onUserTranscription text now s
  | AvatarSpeakStarted => onAvatarSpeakStarted s
  | AvatarSpeakEnded => onAvatarSpeakEnded now s
  | PushToTalk b => pushToTalkEffect b now s
  | TimerFired h => onTimer h now s
  end.

Definition run (tr : list (Z * Event)) (s : State) : State :=
  fold_left (fun st te => step (fst te) (snd te) st) tr s.

End Handlers.

(** Whether the avatar is speaking according to the SDK's own events: the
    last of AVATAR_SPEAK_STARTED / AVATAR_SPEAK_ENDED in the trace. *)
Fixpoint avatarTalking (before : bool) (tr : list (Z * Event)) : bool :=
  match tr with
  | [] => before
  | (_, AvatarSpeakStarted) :: tr' => avatarTalking true tr'
  | (_, AvatarSpeakEnded) :: tr' => avatarTalking false tr'
  | _ :: tr' => avatarTalking before tr'
  end.

End Aggregator.

(* ===================================================================== *)
(** ** The pending-speak queue (AvatarView) *)
(* ===================================================================== *)

Module SpeakQueue.
Import JsString.

Record State : Type := {
  session : bool;               (* is sessionRef.current set? *)
  isReady : bool;               (* isReadyRef *)
  pendingSpeak : list string;   (* pendingSpeakRef *)
  repeated : list string        (* calls of session.repeat, in order *)
}.

Definition initial : State :=
  {| session := false; isReady := false; pendingSpeak := []; repeated := [] |}.

(** [sessionRef.current = session] in [initializeAvatar] *)
Definition onSessionCreated (s : State) : State :=
  {| session := true; isReady := isReady s;
     pendingSpeak := pendingSpeak s; repeated := repeated s |}.

(** [pendingSpeakRef.current.push(text)] *)
Definition enqueue (text : string) (s : State) : State :=
  {| session := session s; isReady := isReady s;
     pendingSpeak := pendingSpeak s ++ [text]; repeated := repeated s |}.

(** [speak(text)] *)
Definition speak (text : string) (s : State) : State :=
  if negb (session s) then enqueue text s
  else if negb (isReady s) then enqueue text s
  else {| session := session s; isReady := isReady s;
          pendingSpeak := pendingSpeak s; repeated := repeated s ++ [text] |}.

(** The loop [while (pending.length > 0) { text = pending.shift();
    if (text) session.repeat(text) }]: the queue and the calls of
    [session.repeat] when the loop ends. *)
Fixpoint drain (pending repeated : list string) : list string * list string :=
  match pending with
  | [] => (pending, repeated)
  | text :: rest =>
      drain rest (if truthy text then repeated ++ [text] else repeated)
  end.

(** The SESSION_STREAM_READY handler. *)
Definition onStreamReady (s : State) : State :=
  let (pending, rep) := drain (pendingSpeak s) (repeated s) in
  {| session := session s; isReady := true;
     pendingSpeak := pending; repeated := rep |}.

Definition speakAll (texts : list string) (s : State) : State :=
  fold_left (fun st text => speak text st) texts s.

End SpeakQueue.

(* ===================================================================== *)
(** ** The interview reducer (useInterview) *)
(* ===================================================================== *)

Module Interview.

Inductive InterviewPhase : Type :=
| IDLE | GREETING | TECHNICAL | EVALUATION | COMPLETED.

Inductive Role : Type := interviewer | candidate.

Record TranscriptEntry : Type := {
  entry_id : string;
  entry_role : Role;
  entry_content : string;
  entry_timestamp : Z;
  entry_phase : InterviewPhase
}.

Record Feedback : Type := {
  persuasion : Z;
  technicalFit : Z;
  communication : Z
}.

Record EvaluationResult : Type := {
  score : Z;
  result_passed : bool;
  feedback : Feedback;
  summary : string
}.

Record InterviewState : Type := {
  sessionId : option string;
  phase : InterviewPhase;
  transcript : list TranscriptEntry;
  isConnected : bool;
  isPushToTalkActive : bool;
  evaluationScore : option Z;
  passed : option bool
}.

Inductive InterviewAction : Type :=
| SET_SESSION (payload_sessionId : string)
| SET_PHASE (payload : InterviewPhase)
| ADD_TRANSCRIPT (payload : TranscriptEntry)
| SET_CONNECTED (payload : bool)
| SET_PUSH_TO_TALK (payload : bool)
| SET_EVALUATION (payload : EvaluationResult)
| RESET.

Definition initialState : InterviewState :=
  {| sessionId := None; phase := IDLE; transcript := []; isConnected := false;
     isPushToTalkActive := false; evaluationScore := None; passed := None |}.

Definition interviewReducer (state : InterviewState) (action : InterviewAction)
  : InterviewState :=
  match action with
  | SET_SESSION sid =>
      {| sessionId := Some sid; phase := phase state;
         transcript := transcript state; isConnected := isConnected state;
         isPushToTalkActive := isPushToTalkActive state;
         evaluationScore := evaluationScore state; passed := passed state |}
  | SET_PHASE p =>
      {| sessionId := sessionId state; phase := p;
         transcript := transcript state; isConnected := isConnected state;
         isPushToTalkActive := isPushToTalkActive state;
         evaluationScore := evaluationScore state; passed := passed state |}
  | ADD_TRANSCRIPT e =>
      {| sessionId := sessionId state; phase := phase state;
         transcript := transcript state ++ [e]; isConnected := isConnected state;
         isPushToTalkActive := isPushToTalkActive state;
         evaluationScore := evaluationScore state; passed := passed state |}
  | SET_CONNECTED b =>
      {| sessionId := sessionId state; phase := phase state;
         transcript := transcript state; isConnected := b;
         isPushToTalkActive := isPushToTalkActive state;
         evaluationScore := evaluationScore state; passed := passed state |}
  | SET_PUSH_TO_TALK b =>
      {| sessionId := sessionId state; phase := phase state;
         transcript := transcript state; isConnected := isConnected state;
         isPushToTalkActive := b;
         evaluationScore := evaluationScore state; passed := passed state |}
  | SET_EVALUATION r =>
      {| sessionId := sessionId state; phase := COMPLETED;
         transcript := transcript state; isConnected := isConnected state;
         isPushToTalkActive := isPushToTalkActive state;
         evaluationScore := Some (score r); passed := Some (result_passed r) |}
  | RESET => initialState
  end.

(** The state after a sequence of dispatched actions. *)
Definition dispatchAll (actions : list InterviewAction) (state : InterviewState)
  : InterviewState :=
  fold_left interviewReducer actions state.

(** The phase an action writes into the state, if it writes one. *)
Definition phaseWritten (action : InterviewAction) : option InterviewPhase :=
  match action with
  | SET_PHASE p => Some p
  | SET_EVALUATION _ => Some COMPLETED
  | RESET => Some IDLE
  | _ => None
  end.

(** The phases a session visits: the phase it starts in, then the phase
    after every action that writes the phase. *)
Fixpoint phasesVisitedAfter (state : InterviewState) (actions : list InterviewAction)
  : list InterviewPhase :=
  match actions with
  | [] => []
  | a :: rest =>
      let state' := interviewReducer state a in
      match phaseWritten a with
      | Some _ => phase state' :: phasesVisitedAfter state' rest
      | None => phasesVisitedAfter state' rest
      end
  end.

Definition phasesVisited (state : InterviewState) (actions : list InterviewAction)
  : list InterviewPhase :=
  phase state :: phasesVisitedAfter state actions.

(** The order of the phases. *)
Definition phaseOrder : list InterviewPhase :=
  [IDLE; GREETING; TECHNICAL; EVALUATION; COMPLETED].

Definition nextPhase (p : InterviewPhase) : option InterviewPhase :=
  match p with
  | IDLE => Some GREETING
  | GREETING => Some TECHNICAL
  | TECHNICAL => Some EVALUATION
  | EVALUATION => Some COMPLETED
  | COMPLETED => None
  end.

(** The order from phase [p] on. *)
Definition phasesFrom (p : InterviewPhase) : list InterviewPhase :=
  match p with
  | IDLE => [IDLE; GREETING; TECHNICAL; EVALUATION; COMPLETED]
  | GREETING => [GREETING; TECHNICAL; EVALUATION; COMPLETED]
  | TECHNICAL => [TECHNICAL; EVALUATION; COMPLETED]
  | EVALUATION => [EVALUATION; COMPLETED]
  | COMPLETED => [COMPLETED]
  end.

Definition phase_eqb (p q : InterviewPhase) : bool :=
  match p, q with
  | IDLE, IDLE | GREETING, GREETING | TECHNICAL, TECHNICAL
  | EVALUATION, EVALUATION | COMPLETED, COMPLETED => true
  | _, _ => false
  end.

(** Every action that writes the phase writes the successor of the
    current one. *)
Fixpoint successiveUpdates (p : InterviewPhase) (actions : list InterviewAction)
  : bool :=
  match actions with
  | [] => true
  | a :: rest =>
      match phaseWritten a with
      | None => successiveUpdates p rest
      | Some q =>
          match nextPhase p with
          | Some q' => phase_eqb q q' && successiveUpdates q rest
          | None => false
          end
      end
  end.

End Interview.

(* ===================================================================== *)
(** ** The session channel (useWebSocket) *)
(* ===================================================================== *)

(** What the two revisions of the hook share: the transport, the state of
    the hook, and the handlers whose text is the same in both. *)
Module Channel.
Import JsString.

Inductive ReadyState : Type := CONNECTING | OPEN | CLOSING | CLOSED.

Inductive MessageType : Type :=
| state_update | transcript_entry | evaluation_result | error | avatar_speak.

Record WebSocketMessage : Type := { msgType : MessageType; payload : string }.

(** The props one render of the hook passes to the [connect] it creates. *)
Record Closure : Type := {
  url : string;
  sessionId : option string;
  onMessage : bool;      (* is the optional callback given? *)
  onConnect : bool;
  onDisconnect : bool;
  onError : bool
}.

(** One [new WebSocket(wsUrl)]; [handlers] is the closure whose [onopen],
    [onmessage], [onclose] and [onerror] were installed on it. *)
Record WebSocket : Type := {
  wsUrl : string;
  readyState : ReadyState;
  sent : list WebSocketMessage;   (* ws.send calls, in order *)
  handlers : Closure
}.

Inductive Notification : Type :=
| ConnectNotice | DisconnectNotice | ErrorNotice
| MessageNotice (m : WebSocketMessage).

Inductive ConsoleLine : Type :=
| ConsoleLog (text : string) | ConsoleWarn (text : string)
| ConsoleError (text : string).

(** The reconnection callback remembers the closure that scheduled it. *)
Record Timer : Type := { due : Z; scheduledBy : Closure }.

Record State : Type := {
  sockets : list WebSocket;          (* every socket created, by index *)
  wsRef : option nat;                (* wsRef.current, an index in sockets *)
  activeSessionId : option string;   (* activeSessionIdRef; the first
                                        revision has no such ref and
                                        leaves the field alone *)
  isConnected : bool;                (* the isConnected state *)
  reconnectTimeout : option nat;     (* reconnectTimeoutRef *)
  timers : gmap nat Timer;           (* pending timers, by handle *)
  nextTimer : nat;
  console : list ConsoleLine;
  notifications : list Notification  (* callbacks of the caller invoked *)
}.

Definition initial : State :=
  {| sockets := []; wsRef := None; activeSessionId := None;
     isConnected := false; reconnectTimeout := None; timers := ∅;
     nextTimer := 0; console := []; notifications := [] |}.

(** Truthiness of [string | null | undefined]. *)
Definition truthyId (o : option string) : bool :=
  match o with Some id => truthy id | None => false end.

(** *** Field updates *)

Definition set_sockets (l : list WebSocket) (s : State) : State :=
  {| sockets := l; wsRef := wsRef s; activeSessionId := activeSessionId s;
     isConnected := isConnected s; reconnectTimeout := reconnectTimeout s;
     timers := timers s; nextTimer := nextTimer s; console := console s;
     notifications := notifications s |}.

Definition set_wsRef (r : option nat) (s : State) : State :=
  {| sockets := sockets s; wsRef := r; activeSessionId := activeSessionId s;
     isConnected := isConnected s; reconnectTimeout := reconnectTimeout s;
     timers := timers s; nextTimer := nextTimer s; console := console s;
     notifications := notifications s |}.

Definition set_activeSessionId (o : option string) (s : State) : State :=
  {| sockets := sockets s; wsRef := wsRef s; activeSessionId := o;
     isConnected := isConnected s; reconnectTimeout := reconnectTimeout s;
     timers := timers s; nextTimer := nextTimer s; console := console s;
     notifications := notifications s |}.

Definition setIsConnected (b : bool) (s : State) : State :=
  {| sockets := sockets s; wsRef := wsRef s; activeSessionId := activeSessionId s;
     isConnected := b; reconnectTimeout := reconnectTimeout s;
     timers := timers s; nextTimer := nextTimer s; console := console s;
     notifications := notifications s |}.

Definition set_reconnectTimeout (h : option nat) (s : State) : State :=
  {| sockets := sockets s; wsRef := wsRef s; activeSessionId := activeSessionId s;
     isConnected := isConnected s; reconnectTimeout := h;
     timers := timers s; nextTimer := nextTimer s; console := console s;
     notifications := notifications s |}.

Definition set_timers (m : gmap nat Timer) (n : nat) (s : State) : State :=
  {| sockets := sockets s; wsRef := wsRef s; activeSessionId := activeSessionId s;
     isConnected := isConnected s; reconnectTimeout := reconnectTimeout s;
     timers := m; nextTimer := n; console := console s;
     notifications := notifications s |}.

Definition print (l : ConsoleLine) (s : State) : State :=
  {| sockets := sockets s; wsRef := wsRef s; activeSessionId := activeSessionId s;
     isConnected := isConnected s; reconnectTimeout := reconnectTimeout s;
     timers := timers s; nextTimer := nextTimer s; console := console s ++ [l];
     notifications := notifications s |}.

(** [callback?.(...)]: the call is made when the callback was given. *)
Definition notify (given : bool) (n : Notification) (s : State) : State :=
  if given then
    {| sockets := sockets s; wsRef := wsRef s; activeSessionId := activeSessionId s;
       isConnected := isConnected s; reconnectTimeout := reconnectTimeout s;
       timers := timers s; nextTimer := nextTimer s; console := console s;
       notifications := notifications s ++ [n] |}
  else s.

(** *** The transport *)

Definition set_readyState (r : ReadyState) (ws : WebSocket) : WebSocket :=
  {| wsUrl := wsUrl ws; readyState := r; sent := sent ws; handlers := handlers ws |}.

Definition transmit (m : WebSocketMessage) (ws : WebSocket) : WebSocket :=
  {| wsUrl := wsUrl ws; readyState := readyState ws; sent := sent ws ++ [m];
     handlers := handlers ws |}.

Definition is_open (ws : WebSocket) : bool :=
  match readyState ws with OPEN => true | _ => false end.

(** [wsRef.current?.readyState === WebSocket.OPEN] *)
Definition wsOpen (s : State) : bool :=
  match wsRef s with
  | Some i => match sockets s !! i with Some ws => is_open ws | None => false end
  | None => false
  end.

(** [new WebSocket(wsUrl)] with the handlers of closure [cl];
    [wsRef.current = ws]. *)
Definition openSocket (wsUrl : string) (cl : Closure) (s : State) : State :=
  set_wsRef (Some (length (sockets s)))
    (set_sockets (sockets s ++ [{| wsUrl := wsUrl; readyState := CONNECTING;
                                   sent := []; handlers := cl |}]) s).

(** [ws.close()]: a socket that is connecting or open starts closing; the
    close event follows later. *)
Definition closeSocket (i : nat) (s : State) : State :=
  match sockets s !! i with
  | Some ws =>
      match readyState ws with
      | CONNECTING | OPEN => set_sockets (<[i := set_readyState CLOSING ws]> (sockets s)) s
      | _ => s
      end
  | None => s
  end.

Definition setTimeout (cl : Closure) (delay now : Z) (s : State) : nat * State :=
  (nextTimer s,
   set_timers (<[nextTimer s := {| due := now + delay; scheduledBy := cl |}]> (timers s))
              (S (nextTimer s)) s).

Definition clearTimeout (h : nat) (s : State) : State :=
  set_timers (delete h (timers s)) (nextTimer s) s.

(** *** Handlers with the same text in both revisions *)

(** [send(message)] *)
Definition send (message : WebSocketMessage) (s : State) : State :=
  if wsOpen s then
    match wsRef s with
    | Some i =>
        match sockets s !! i with
        | Some ws => set_sockets (<[i := transmit message ws]> (sockets s)) s
        | None => s
        end
    | None => s
    end
  else print (ConsoleWarn "WebSocket not connected, message not sent") s.

(** [ws.onopen] *)
Definition onopen (cl : Closure) (s : State) : State :=
  notify (onConnect cl) ConnectNotice (setIsConnected true s).

(** [ws.onmessage]; [data] is [None] when [JSON.parse] throws. *)
Definition onmessage (cl : Closure) (data : option WebSocketMessage) (s : State) : State :=
  match data with
  | Some m => notify (onMessage cl) (MessageNotice m)
                (print (ConsoleLog "WebSocket received:") s)
  | None => print (ConsoleError "Failed to parse WebSocket message:") s
  end.

(** [ws.onerror] *)
Definition onerror (cl : Closure) (s : State) : State :=
  notify (onError cl) ErrorNotice (print (ConsoleError "WebSocket error:") s).

(** What the hook is asked to do, and what the transport and the timers
    report. *)
Inductive Event : Type :=
| Connect (cl : Closure) (overrideSessionId : option string)
| Disconnect
| Send (message : WebSocketMessage)
| Opened (i : nat)
| Received (i : nat) (data : option WebSocketMessage)
| Errored (i : nat)
| Closed (i : nat)
| TimerFired (h : nat).

(** The messages handed to the transport, socket by socket. *)
Definition transmitted (s : State) : list (list WebSocketMessage) :=
  map sent (sockets s).

End Channel.

(** The hook as in [frontend/src/hooks/useWebSocket.ts]: [connect] takes no
    argument and the reconnection callback reads the [sessionId] its own
    closure captured. *)
Module UseWebSocket.
Import JsString Channel.

(** [connect()] of the render with props [cl] *)
Definition connect (cl : Closure) (s : State) : State :=
  if wsOpen s then s
  else match sessionId cl with
       | Some id =>
           if truthy id then openSocket (url cl +:+ "/" +:+ id) cl s else s
       | None => s
       end.

(** [ws.onclose] *)
Definition onclose (cl : Closure) (now : Z) (s : State) : State :=
  let s1 := notify (onDisconnect cl) DisconnectNotice (setIsConnected false s) in
  let (h, s2) := setTimeout cl 3000 now s1 in
  set_reconnectTimeout (Some h) s2.

(** The callback [() => { if (sessionId) connect(); }] *)
Definition reconnect (cl : Closure) (s : State) : State :=
  if truthyId (sessionId cl) then connect cl s else s.

(** [disconnect()] *)
Definition disconnect (s : State) : State :=
  let s1 := match reconnectTimeout s with
            | Some h => clearTimeout h s
            | None => s
            end in
  let s2 := match wsRef s1 with
            | Some i => closeSocket i s1
            | None => s1
            end in
  setIsConnected false (set_wsRef None s2).

Definition step (now : Z) (e : Event) (s : State) : State :=
  match e with
  | Connect cl _ => connect cl s
  | Disconnect => disconnect s
  | Send m => send m s
  | Opened i =>
      match sockets s !! i with
      | Some ws =>
          match readyState ws with
          | CONNECTING =>
              onopen (handlers ws) (set_sockets (<[i := set_readyState OPEN ws]> (sockets s)) s)
          | _ => s
          end
      | None => s
      end
  | Received i data =>
      match sockets s !! i with
      | Some ws => if is_open ws then onmessage (handlers ws) data s else s
      | None => s
      end
  | Errored i =>
      match sockets s !! i with
      | Some ws => onerror (handlers ws) s
      | None => s
      end
  | Closed i =>
      match sockets s !! i with
      | Some ws =>
          match readyState ws with
          | CLOSED => s
          | _ => onclose (handlers ws) now
                   (set_sockets (<[i := set_readyState CLOSED ws]> (sockets s)) s)
          end
      | None => s
      end
  | TimerFired h =>
      match timers s !! h with
      | Some t =>
          if (due t <=? now)%Z
          then reconnect (scheduledBy t) (clearTimeout h s)
          else s
      | None => s
      end
  end.

Definition run (tr : list (Z * Event)) (s : State) : State :=
  fold_left (fun st te => step (fst te) (snd te) st) tr s.

End UseWebSocket.

(** The later revision of the hook (the third document of
    [frontend/src/app/layout.tsx]): [connect] takes an optional
    [overrideSessionId], stores the identifier it connects with in
    [activeSessionIdRef], and the reconnection callback reads that ref. *)
Module UseWebSocketStored.
Import JsString Channel.

(** [overrideSessionId || sessionId] *)
Definition orElse (a b : option string) : option string :=
  if truthyId a then a else b.

(** [connect(overrideSessionId?)] of the render with props [cl] *)
Definition connect (cl : Closure) (overrideSessionId : option string) (s : State)
  : State :=
  if wsOpen s then s
  else match orElse overrideSessionId (sessionId cl) with
       | Some sid =>
           if truthy sid then
             openSocket (url cl +:+ "/" +:+ sid) cl
               (print (ConsoleLog "Connecting WebSocket to:")
                  (set_activeSessionId (Some sid) s))
           else print (ConsoleWarn "Cannot connect WebSocket: no session ID") s
       | None => print (ConsoleWarn "Cannot connect WebSocket: no session ID") s
       end.

(** [ws.onclose] *)
Definition onclose (cl : Closure) (now : Z) (s : State) : State :=
  let s1 := notify (onDisconnect cl) DisconnectNotice (setIsConnected false s) in
  let (h, s2) := setTimeout cl 3000 now s1 in
  set_reconnectTimeout (Some h) s2.

(** The callback
    [() => { if (activeSessionIdRef.current) connect(activeSessionIdRef.current); }] *)
Definition reconnect (cl : Closure) (s : State) : State :=
  if truthyId (activeSessionId s) then connect cl (activeSessionId s) s else s.

(** [disconnect()] *)
Definition disconnect (s : State) : State :=
  let s1 := match reconnectTimeout s with
            | Some h => clearTimeout h s
            | None => s
            end in
  let s2 := set_activeSessionId None s1 in
  let s3 := match wsRef s2 with
            | Some i => closeSocket i s2
            | None => s2
            end in
  setIsConnected false (set_wsRef None s3).

Definition step (now : Z) (e : Event) (s : State) : State :=
  match e with
  | Connect cl o => connect cl o s
  | Disconnect => disconnect s
  | Send m => send m s
  | Opened i =>
      match sockets s !! i with
      | Some ws =>
          match readyState ws with
          | CONNECTING =>
              onopen (handlers ws) (set_sockets (<[i := set_readyState OPEN ws]> (sockets s)) s)
          | _ => s
          end
      | None => s
      end
  | Received i data =>
      match sockets s !! i with
      | Some ws => if is_open ws then onmessage (handlers ws) data s else s
      | None => s
      end
  | Errored i =>
      match sockets s !! i with
      | Some ws => onerror (handlers ws) s
      | None => s
      end
  | Closed i =>
      match sockets s !! i with
      | Some ws =>
          match readyState ws with
          | CLOSED => s
          | _ => onclose (handlers ws) now
                   (set_sockets (<[i := set_readyState CLOSED ws]> (sockets s)) s)
          end
      | None => s
      end
  | TimerFired h =>
      match timers s !! h with
      | Some t =>
          if (due t <=? now)%Z
          then reconnect (scheduledBy t) (clearTimeout h s)
          else s
      | None => s
      end
  end.

Definition run (tr : list (Z * Event)) (s : State) : State :=
  fold_left (fun st te => step (fst te) (snd te) st) tr s.

End UseWebSocketStored.

(* ===================================================================== *)
(** ** Notions the properties are stated with *)
(* ===================================================================== *)

Module Notions.
Import Utf16 Aggregator.

(** The handler takes up an event with text [text] in state [s]: the
    avatar is not marked speaking and the trimmed text has two characters
    or more. *)
Definition Accepted (s : State) (text : str) : Prop :=
  isSpeaking s = false /\ truthy text = true /\ 2 <= length (trim text).

(** Handles are handed out in increasing order. *)
Definition WellFormed (s : State) : Prop :=
  (forall h t, timers s !! h = Some t -> h < nextTimer s) /\
  (forall h, sendTimeout s = Some h -> h < nextTimer s).

(** The events of a capture episode in progress: recognition events, the
    avatar's speech events and the end of a grace period; not a change of
    the push-to-talk gate and not the firing of a send countdown. *)
Definition Accumulating (s : State) (e : Event) : Prop :=
  match e with
  | PushToTalk _ => False
  | TimerFired h => forall t, timers s !! h = Some t -> callback t = GraceEnd
  | _ => True
  end.

(** A send countdown that is due at [now], over a buffer long enough to be
    sent. *)
Definition PendingFinalize (now : Z) (s : State) (h : nat) : Prop :=
  sendTimeout s = Some h /\
  3 <= length (trim (currentTranscript s)) /\
  exists t, timers s !! h = Some t /\ (due t <= now)%Z /\ callback t <> GraceEnd.

Section WithLowerCase.

Variable toLowerCase : str -> str.

(** [t] starts with [p] when case is ignored. *)
Definition CiStartsWith (t p : str) : Prop :=
  exists rest, toLowerCase t = toLowerCase p ++ rest.

(** The test of the handler: the lower-cased [t] starts with the first 20
    code units of the lower-cased [b]. *)
Definition Continues (t b : str) : Prop :=
  exists rest, toLowerCase t = substring0 20 (toLowerCase b) ++ rest.

(** Lower-casing [s] is the same as lower-casing each of its code units
    with [f]. *)
Definition UnitWise (f : N -> N) (s : str) : Prop :=
  toLowerCase s = map f s.

(** [b'] comes from the buffer [b] by merging zero or more texts: a text
    is put after the buffer and a space as another segment, or a longer
    text that continues the segment (or follows an empty buffer) takes the
    buffer's place. *)
Inductive Extends : str -> str -> Prop :=
| extends_refl b : Extends b b
| extends_segment b text b' :
    truthy b = true ->
    Extends (b ++ space ++ text) b' -> Extends b b'
| extends_continuation b text b' :
    b = [] \/ Continues text b ->
    length b < length text ->
    Extends text b' -> Extends b b'.

Inductive InEpisode : State -> State -> Prop :=
| episode_here s : InEpisode s s
| episode_step s now e s' :
    Accumulating s e -> InEpisode (step toLowerCase now e s) s' -> InEpisode s s'.

(** The countdown kept in [sendTimeoutRef] fires [n] times, 1000ms apart,
    from [now] on. *)
Fixpoint fireSendTimeout (n : nat) (now : Z) (s : State) : State :=
  match n with
  | 0 => s
  | S k =>
      match sendTimeout s with
      | Some h => fireSendTimeout k (now + 1000)
                    (step toLowerCase now (TimerFired h) s)
      | None => s
      end
  end.

End WithLowerCase.

End Notions.

(** Notions for the session channel. *)
Module ChannelNotions.
Import Channel.

(** The state of the hook with the console left out. *)
Definition eraseConsole (s : State) : State :=
  {| sockets := sockets s; wsRef := wsRef s; activeSessionId := activeSessionId s;
     isConnected := isConnected s; reconnectTimeout := reconnectTimeout s;
     timers := timers s; nextTimer := nextTimer s; console := [];
     notifications := notifications s |}.

(** The caller does not ask for a connection. *)
Definition notConnect (e : Event) : bool :=
  match e with Connect _ _ => false | _ => true end.

(** The props of a render of [useInterview] with the given session
    identifier: its [onMessage], [onConnect] and [onDisconnect] are
    given, [onError] is not. *)
Definition render (sessionId : option string) : Closure :=
  {| url := "ws://localhost:8000/ws"; sessionId := sessionId;
     onMessage := true; onConnect := true; onDisconnect := true;
     onError := false |}.

End ChannelNotions.

(* ===================================================================== *)
(** ** The chat input (MessageInput, ChatPanel) *)
(* ===================================================================== *)

Module ChatInput.
Import Utf16.

Record State : Type := {
  value : str;                  (* the value state of the input *)
  sentMessages : list str       (* calls of onSend, in order *)
}.

Definition initial : State := {| value := []; sentMessages := [] |}.

(** [isInputDisabled] of [ChatPanel] *)
Definition isInputDisabled (currentPhase : Interview.InterviewPhase) : bool :=
  match currentPhase with
  | Interview.EVALUATION | Interview.COMPLETED => true
  | _ => false
  end.

(** [handleSend] *)
Definition handleSend (disabled : bool) (s : State) : State :=
  let trimmed := trim (value s) in
  if truthy trimmed && negb disabled
  then {| value := []; sentMessages := sentMessages s ++ [trimmed] |}
  else s.

(** [handleKeyDown]: Enter without Shift sends. *)
Definition handleKeyDown (key : string) (shiftKey : bool) (disabled : bool)
    (s : State) : State :=
  if String.eqb key "Enter" && negb shiftKey then handleSend disabled s else s.

Inductive Event : Type :=
| Change (text : str)                     (* onChange: setValue(e.target.value) *)
| Click                                   (* the send button *)
| KeyDown (key : string) (shiftKey : bool).

Definition step (currentPhase : Interview.InterviewPhase) (e : Event) (s : State)
  : State :=
  match e with
  | Change text => {| value := text; sentMessages := sentMessages s |}
  | Click => handleSend (isInputDisabled currentPhase) s
  | KeyDown key shiftKey => handleKeyDown key shiftKey (isInputDisabled currentPhase) s
  end.

Definition run (currentPhase : Interview.InterviewPhase) (events : list Event)
    (s : State) : State :=
  fold_left (fun st e => step currentPhase e st) events s.

End ChatInput.

(* ===================================================================== *)
(** ** The interview countdown (InterviewLayout) *)
(* ===================================================================== *)

Module Countdown.

Definition DEFAULT_INTERVIEW_DURATION : Z := 20 * 60.

Record State : Type := {
  timeRemaining : Z;      (* the timeRemaining state, in seconds *)
  interval : bool         (* is the interval of timerRef still set? *)
}.

(** The effect starts the interval in every phase but IDLE and COMPLETED. *)
Definition timerRuns (phase : Interview.InterviewPhase) : bool :=
  match phase with
  | Interview.IDLE | Interview.COMPLETED => false
  | _ => true
  end.

Definition start (phase : Interview.InterviewPhase) : State :=
  {| timeRemaining := DEFAULT_INTERVIEW_DURATION; interval := timerRuns phase |}.

(** One run of the interval callback: at zero it clears the interval and
    stays at zero. *)
Definition tick (s : State) : State :=
  if interval s then
    if (timeRemaining s <=? 0)%Z
    then {| timeRemaining := 0; interval := false |}
    else {| timeRemaining := timeRemaining s - 1; interval := true |}
  else s.

Fixpoint ticks (n : nat) (s : State) : State :=
  match n with
  | 0 => s
  | S k => ticks k (tick s)
  end.

(** [controlsDisabled] *)
Definition controlsDisabled (phase : Interview.InterviewPhase) : bool :=
  match phase with
  | Interview.EVALUATION | Interview.COMPLETED => true
  | _ => false
  end.

End Countdown.

(* ===================================================================== *)
(** ** Incoming messages (useInterview) *)
(* ===================================================================== *)

(** [handleMessage] of [useInterview]; a payload is taken to have the type
    the handler casts it to. *)
Module UseInterview.

Inductive Incoming : Type :=
| state_update (payload : Interview.InterviewPhase)
| transcript_entry (payload : Interview.TranscriptEntry)
| evaluation_result (payload : Interview.EvaluationResult)
| avatar_speak (text : string)
| error (payload : string).

Record State : Type := {
  interview : Interview.InterviewState;   (* the state of the reducer *)
  avatarApi : bool;             (* is window.__rizmaAvatar.speak there? *)
  avatar : SpeakQueue.State;    (* the component behind window.__rizmaAvatar *)
  warnings : list string        (* console.warn and console.error lines *)
}.

Definition dispatch (action : Interview.InterviewAction) (s : State) : State :=
  {| interview := Interview.interviewReducer (interview s) action;
     avatarApi := avatarApi s; avatar := avatar s; warnings := warnings s |}.

Definition handleMessage (message : Incoming) (s : State) : State :=
  match message with
  | state_update p => dispatch (Interview.SET_PHASE p) s
  | transcript_entry e => dispatch (Interview.ADD_TRANSCRIPT e) s
  | evaluation_result r => dispatch (Interview.SET_EVALUATION r) s
  | avatar_speak text =>
      if avatarApi s then
        {| interview := interview s; avatarApi := avatarApi s;
           avatar := SpeakQueue.speak text (avatar s); warnings := warnings s |}
      else
        {| interview := interview s; avatarApi := avatarApi s; avatar := avatar s;
           warnings := warnings s ++ ["Avatar API not available for speaking"] |}
  | error _ =>
      {| interview := interview s; avatarApi := avatarApi s; avatar := avatar s;
         warnings := warnings s ++ ["Interview error:"] |}
  end.

Definition handleAll (messages : list Incoming) (s : State) : State :=
  fold_left (fun st m => handleMessage m st) messages s.

(** The entries the transcript messages carry, in order of arrival. *)
Fixpoint entriesOf (messages : list Incoming) : list Interview.TranscriptEntry :=
  match messages with
  | [] => []
  | transcript_entry e :: rest => e :: entriesOf rest
  | _ :: rest => entriesOf rest
  end.

(** The texts the speak messages carry, in order of arrival. *)
Fixpoint textsOf (messages : list Incoming) : list string :=
  match messages with
  | [] => []
  | avatar_speak text :: rest => text :: textsOf rest
  | _ :: rest => textsOf rest
  end.

(** The phase the last phase-carrying message leaves, [p] if there is none. *)
Fixpoint lastPhase (p : Interview.InterviewPhase) (messages : list Incoming)
  : Interview.InterviewPhase :=
  match messages with
  | [] => p
  | state_update q :: rest => lastPhase q rest
  | evaluation_result _ :: rest => lastPhase Interview.COMPLETED rest
  | _ :: rest => lastPhase p rest
  end.

End UseInterview.

(* ===================================================================== *)
(** ** The display of the remaining time (Timer) *)
(* ===================================================================== *)

Module TimerDisplay.

(** [n.toString()] for a whole number that is not negative. *)
Definition toString (n : nat) : string :=
  NilZero.string_of_uint (Nat.to_uint n).

(** [s.padStart(2, '0')] *)
Definition padStart2 (s : string) : string :=
  match String.length s with
  | 0 => "00"
  | 1 => "0" +:+ s
  | _ => s
  end.

(** [Math.floor(timeRemaining / 60)] *)
Definition minutes (timeRemaining : nat) : nat := timeRemaining / 60.

(** [timeRemaining % 60] *)
Definition seconds (timeRemaining : nat) : nat := timeRemaining mod 60.

Definition formattedTime (timeRemaining : nat) : string :=
  padStart2 (toString (minutes timeRemaining)) +:+ ":"
  +:+ padStart2 (toString (seconds timeRemaining)).

Definition showWarning (isWarning : bool) (timeRemaining : nat) : bool :=
  isWarning || (timeRemaining <? 60).

End TimerDisplay.

(* ===================================================================== *)
(** ** Ending a session (useInterview) *)
(* ===================================================================== *)

(** [endSession] of [useInterview], over the reducer and the later
    revision of the channel hook (the one whose [connect] takes the
    identifier [startSession] passes).  The payload [{ action: a }] of a
    control message is written as the action name [a]. *)
Module EndSession.

Record State : Type := {
  reducer : Interview.InterviewState;
  channel : Channel.State
}.

Definition endSessionMessage : Channel.WebSocketMessage :=
  {| Channel.msgType := Channel.state_update; Channel.payload := "end_session" |}.

Definition endSession (s : State) : State :=
  let c1 := if Channel.truthyId (Interview.sessionId (reducer s))
            then Channel.send endSessionMessage (channel s)
            else channel s in
  {| reducer := Interview.interviewReducer (reducer s) Interview.RESET;
     channel := UseWebSocketStored.disconnect c1 |}.

End EndSession.

(** Notions for the properties of the remaining code. *)
Module MoreNotions.
Import JsString.

(** Every pending timer that finalizes is the one kept in
    [sendTimeoutRef]. *)
Definition SingleCountdown (s : Aggregator.State) : Prop :=
  forall h t, Aggregator.timers s !! h = Some t ->
              Aggregator.callback t <> Aggregator.GraceEnd ->
              Aggregator.sendTimeout s = Some h.

(** No white space at the start. *)
Definition trimmedStart (s : Utf16.str) : Prop :=
  match s with
  | [] => True
  | u :: _ => Utf16.is_white_space u = false
  end.

(** A text as the listener gets it: three characters or more, and no white
    space at either end. *)
Definition Finalized (t : Utf16.str) : Prop :=
  3 <= length t /\ Utf16.trim t = t.

(** The entries a list of actions adds to the transcript. *)
Fixpoint entriesAdded (actions : list Interview.InterviewAction)
  : list Interview.TranscriptEntry :=
  match actions with
  | [] => []
  | Interview.ADD_TRANSCRIPT e :: rest => e :: entriesAdded rest
  | _ :: rest => entriesAdded rest
  end.

Definition notReset (a : Interview.InterviewAction) : bool :=
  match a with Interview.RESET => false | _ => true end.

(** [send] called for each message in turn. *)
Definition sendAll (messages : list Channel.WebSocketMessage) (s : Channel.State)
  : Channel.State :=
  fold_left (fun st m => Channel.send m st) messages s.

(** Socket [i] is still there, for the same URL and with the same handlers,
    and has been handed what it had been handed before, and maybe more. *)
Definition SocketKept (s s' : Channel.State) (i : nat) : Prop :=
  forall ws, Channel.sockets s !! i = Some ws ->
  exists ws', Channel.sockets s' !! i = Some ws' /\
              Channel.wsUrl ws' = Channel.wsUrl ws /\
              Channel.handlers ws' = Channel.handlers ws /\
              Channel.sent ws `prefix_of` Channel.sent ws'.

(** The socket in [wsRef], if any, is for the identifier kept in
    [activeSessionIdRef]. *)
Definition CurrentForStored (s : Channel.State) : Prop :=
  forall i, Channel.wsRef s = Some i ->
  exists ws sid, Channel.sockets s !! i = Some ws /\
                 Channel.activeSessionId s = Some sid /\
                 Channel.wsUrl ws
                 = Channel.url (Channel.handlers ws) +:+ "/" +:+ sid.

End MoreNotions.

(* ===================================================================== *)
(** ** Properties of the string operations *)
(* ===================================================================== *)

Section StringFacts.
Import JsString.

Lemma length_append (a b : string) :
  String.length (a +:+ b) = String.length a + String.length b.
Proof. induction a as [|c a IH]; simpl; [reflexivity | now rewrite IH]. Qed.

Lemma append_String (x : ascii) (a b : string) :
  String x a +:+ b = String x (a +:+ b).
Proof. reflexivity. Qed.

Lemma truthy_true (s : string) : truthy s = true <-> s <> EmptyString.
Proof. destruct s; simpl; split; congruence. Qed.

End StringFacts.

Section Utf16Facts.
Import Utf16 Notions.

Lemma str_eqb_spec (a b : str) : reflect (a = b) (eqb a b).
Proof.
  revert b. induction a as [|u a IH]; intros [|v b]; simpl;
    try (constructor; congruence).
  destruct (N.eqb_spec u v) as [->|Hne]; simpl.
  - destruct (IH b) as [->|Hne]; constructor; congruence.
  - constructor. congruence.
Qed.

Lemma str_eqb_refl (a : str) : eqb a a = true.
Proof. now destruct (str_eqb_spec a a). Qed.

Lemma str_eqb_neq (a b : str) : eqb a b = false <-> a <> b.
Proof. destruct (str_eqb_spec a b); split; congruence. Qed.

Lemma str_truthy_true (s : str) : truthy s = true <-> s <> [].
Proof. destruct s; simpl; split; congruence. Qed.

(** [startsWith] is "there is a rest". *)
Lemma startsWith_iff_append (t p : str) :
  startsWith t p = true <-> exists rest, t = p ++ rest.
Proof.
  revert t. induction p as [|u p IH]; intros t; simpl.
  - split; [intros _; now exists t | reflexivity].
  - destruct t as [|v t].
    + split; [discriminate | intros [r Hr]; discriminate].
    + destruct (N.eqb_spec u v) as [->|Hne]; simpl.
      * rewrite IH. split; intros [r Hr]; exists r; congruence.
      * split; [discriminate | intros [r Hr]; congruence].
Qed.

Section LowerCaseFacts.

Variable toLowerCase : str -> str.

(** The test of the handler decides [Continues]. *)
Lemma startsWith_Continues (text current : str) :
  startsWith (toLowerCase text) (substring0 20 (toLowerCase current)) = true
  <-> Continues toLowerCase text current.
Proof. apply startsWith_iff_append. Qed.

(** Where lower-casing goes code unit by code unit, the test of the
    handler is "[text] starts with the first 20 characters of [current]
    when case is ignored". *)
Lemma Continues_unit_wise (f : N -> N) (text current : str) :
  UnitWise toLowerCase f current ->
  UnitWise toLowerCase f (substring0 20 current) ->
  Continues toLowerCase text current
  <-> CiStartsWith toLowerCase text (substring0 20 current).
Proof.
  unfold UnitWise, Continues, CiStartsWith, substring0. intros Hc Hp.
  rewrite Hc, Hp, firstn_map. reflexivity.
Qed.

End LowerCaseFacts.

End Utf16Facts.

(* ===================================================================== *)
(** ** Properties of the transcript aggregation *)
(* ===================================================================== *)

Import Utf16 Notions.

(** Unfold the timer operations and the field updates of the aggregator. *)
Ltac agg_unfold :=
  unfold Aggregator.armSendTimeout, Aggregator.clearSendTimeout,
    Aggregator.setTimeout, Aggregator.clearTimeout,
    Aggregator.call_onUserTranscript, Aggregator.set_timers,
    Aggregator.set_pttReleased, Aggregator.set_prevPushToTalk,
    Aggregator.set_lastTranscriptTime, Aggregator.set_sendTimeout,
    Aggregator.set_lastSentTranscript, Aggregator.set_currentTranscript,
    Aggregator.set_isSpeaking in *.

Section AggregatorFacts.
Import Aggregator.

Variable toLowerCase : str -> str.

(** A trimmed text of three characters or more is not empty. *)
Lemma long_is_truthy (t : str) :
  3 <= length t -> (negb (truthy t) || (length t <? 3)) = false.
Proof.
  intros H. destruct t; simpl in *; [lia|].
  apply Nat.ltb_ge. simpl. lia.
Qed.

Lemma short_or_empty (t : str) :
  length t < 3 -> (negb (truthy t) || (length t <? 3)) = true.
Proof.
  intros H. apply orb_true_iff. right. now apply Nat.ltb_lt.
Qed.

(** The buffer after an accepted event in push-to-talk mode is the merge
    of the buffer before with the text. *)
Lemma accepted_ptt_buffer (s : State) (now : Z) (text : str) :
  pushToTalkEnabled s = true -> Accepted s text ->
  currentTranscript (step toLowerCase now (UserTranscription text) s)
  = mergeTranscript toLowerCase (currentTranscript s) text.
Proof.
  intros Hptt (Hsp & Htr & Hlen).
  simpl. unfold onUserTranscription. rewrite Hsp, Htr.
  assert ((length (trim text) <? 2) = false) as -> by now apply Nat.ltb_ge.
  simpl. rewrite Hptt.
  destruct (pttReleased _); [destruct (sendTimeout s) eqn:E|];
    agg_unfold; simpl; try rewrite E; reflexivity.
Qed.

(** What [sendTranscript] hands to the listener: nothing, or the trimmed
    buffer. *)
Lemma sendTranscript_emits (now : Z) (s : State) :
  userTranscripts (sendTranscript now s) = userTranscripts s \/
  userTranscripts (sendTranscript now s)
  = userTranscripts s ++ [trim (currentTranscript s)].
Proof.
  unfold sendTranscript.
  destruct (negb _ || _); [now left|].
  destruct (isSpeaking s); [now left|].
  destruct (eqb _ _); [now left|].
  simpl. destruct (onUserTranscript s); [now right | now left].
Qed.

(** A buffer whose trimmed text is the last text sent is never sent
    again, whatever else holds. *)
Lemma sendTranscript_duplicate (now : Z) (s : State) :
  trim (currentTranscript s) = lastSentTranscript s ->
  userTranscripts (sendTranscript now s) = userTranscripts s.
Proof.
  intros H. unfold sendTranscript.
  destruct (negb _ || _); [reflexivity|].
  destruct (isSpeaking s); [reflexivity|].
  rewrite H, str_eqb_refl. reflexivity.
Qed.

End AggregatorFacts.

(** C3. In push-to-talk mode, for an accepted recognition event with text
    [T] and a buffer [B] that is not empty, the handler lower-cases both
    and cuts the lower-cased buffer at 20 code units.  When the lower-cased
    [T] does not start with that cut, the new buffer is [B], a space, and
    [T]; when it does, the new buffer is [T] if [T] is strictly longer than
    [B], and stays [B] otherwise.  Where lower-casing goes code unit by
    code unit on [B] and on its first 20 characters, the test is "[T]
    starts with the first 20 characters of [B], case ignored". *)
Theorem ptt_merge_segment_or_continuation (toLowerCase : str -> str)
    (s : Aggregator.State) (now : Z) (T B : str) :
  Aggregator.pushToTalkEnabled s = true ->
  Accepted s T ->
  Aggregator.currentTranscript s = B ->
  B <> [] ->
  let B' := Aggregator.currentTranscript
              (Aggregator.step toLowerCase now (Aggregator.UserTranscription T) s) in
  (~ Continues toLowerCase T B -> B' = B ++ space ++ T) /\
  (Continues toLowerCase T B -> length B < length T -> B' = T) /\
  (Continues toLowerCase T B -> length T <= length B -> B' = B) /\
  (forall f,
     UnitWise toLowerCase f B -> UnitWise toLowerCase f (substring0 20 B) ->
     (Continues toLowerCase T B
      <-> CiStartsWith toLowerCase T (substring0 20 B))).
Proof.
  intros Hptt Hacc HB Hne B'. subst B'.
  rewrite accepted_ptt_buffer by assumption. rewrite HB.
  unfold Aggregator.mergeTranscript.
  apply str_truthy_true in Hne. rewrite Hne. cbn [andb].
  split; [|split; [|split]].
  - intros Hn.
    destruct (startsWith (toLowerCase T) (substring0 20 (toLowerCase B))) eqn:E;
      [apply startsWith_Continues in E; contradiction | reflexivity].
  - intros Hc Hlen. apply startsWith_Continues in Hc. rewrite Hc. cbn [negb].
    apply Nat.ltb_lt in Hlen. now rewrite Hlen.
  - intros Hc Hlen. apply startsWith_Continues in Hc. rewrite Hc. cbn [negb].
    apply Nat.ltb_ge in Hlen. now rewrite Hlen.
  - intros f HfB Hfcut. now apply (Continues_unit_wise toLowerCase f).
Qed.

(** C3 at the scenario of the specification: the recognizer refines
    "I have five years" into a longer text, which takes the buffer's
    place. *)
Lemma ptt_merge_segment_or_continuation_witness :
  let s := Aggregator.set_currentTranscript (js "I have five years")
             (Aggregator.initial true true) in
  let T := js "I have five years of experience" in
  let B := js "I have five years" in
  let B' := Aggregator.currentTranscript
              (Aggregator.step toLowerCaseLatin 800 (Aggregator.UserTranscription T) s) in
  (Aggregator.pushToTalkEnabled s = true /\ Accepted s T /\
   Aggregator.currentTranscript s = B /\ B <> [] /\
   UnitWise toLowerCaseLatin lowerLatin1 B /\
   UnitWise toLowerCaseLatin lowerLatin1 (substring0 20 B) /\
   CiStartsWith toLowerCaseLatin T (substring0 20 B) /\
   length B < length T) /\
  B' = T.
Proof.
  assert (Accepted (Aggregator.set_currentTranscript (js "I have five years")
                      (Aggregator.initial true true))
                   (js "I have five years of experience")) as Hacc.
  { split; [reflexivity|]. split; [reflexivity | simpl; lia]. }
  assert (CiStartsWith toLowerCaseLatin (js "I have five years of experience")
            (substring0 20 (js "I have five years"))) as Hci.
  { exists (js " of experience"). reflexivity. }
  assert (length (js "I have five years")
          < length (js "I have five years of experience")) as Hlen
    by (simpl; lia).
  cbv zeta. split.
  - split; [reflexivity|]. split; [exact Hacc|]. split; [reflexivity|].
    split; [discriminate|]. split; [reflexivity|]. split; [reflexivity|].
    split; [exact Hci | exact Hlen].
  - destruct (ptt_merge_segment_or_continuation toLowerCaseLatin
                (Aggregator.set_currentTranscript (js "I have five years")
                   (Aggregator.initial true true))
                800 (js "I have five years of experience") (js "I have five years")
                eq_refl Hacc eq_refl ltac:(discriminate))
      as (_ & Hlonger & _ & Htest).
    apply Hlonger; [|exact Hlen].
    apply (Htest lowerLatin1); [reflexivity | reflexivity | exact Hci].
Defined.

(** C3 does not hold of every text.  The lower case of U+0130, capital I
    with a dot above, is two code units, so the first 20 code units of
    the lower-cased buffer [B], U+0130 and then "stanbul is a beautiful
    city", stand for its first 19 characters only.  The text [T], U+0130
    and then "stanbul is a beauty of a city", differs from the buffer at
    its 20th character and so does not start with the buffer's first 20
    characters, yet the handler takes it for a continuation and puts it in
    the buffer's place instead of appending it.  Both texts are made of
    code units the table of [toLowerCaseLatin] covers. *)
Lemma merge_test_cuts_the_lower_cased_buffer :
  let B := 304%N :: js "stanbul is a beautiful city" in
  let T := 304%N :: js "stanbul is a beauty of a city" in
  let s := Aggregator.set_currentTranscript B (Aggregator.initial true true) in
  let B' := Aggregator.currentTranscript
              (Aggregator.step toLowerCaseLatin 800 (Aggregator.UserTranscription T) s) in
  forallb tabled B = true /\ forallb tabled T = true /\
  Aggregator.pushToTalkEnabled s = true /\ Accepted s T /\
  Aggregator.currentTranscript s = B /\ B <> [] /\
  ~ CiStartsWith toLowerCaseLatin T (substring0 20 B) /\
  B' = T /\
  B' <> B ++ space ++ T.
Proof.
  cbv zeta.
  split; [reflexivity|]. split; [reflexivity|].
  split; [reflexivity|].
  split; [split; [reflexivity | split; [reflexivity | simpl; lia]]|].
  split; [reflexivity|]. split; [discriminate|].
  split; [|split; [reflexivity | discriminate]].
  intros H. apply startsWith_iff_append in H. vm_compute in H. discriminate.
Qed.

(** C4. At finalize time the buffer is trimmed.  A trimmed buffer that is
    empty or shorter than three characters is discarded and nothing is
    emitted.  When the finalize is performed (the avatar is not marked
    speaking): a trimmed buffer equal to the last finalized text is
    discarded; any other is handed to the listener exactly once, the
    last-finalized marker is set to it and the buffer is cleared, so that
    finalizing the same text again, while the marker stands, emits
    nothing. *)
Theorem finalize_action (s : Aggregator.State) (now : Z) :
  let t := trim (Aggregator.currentTranscript s) in
  let s' := Aggregator.sendTranscript now s in
  (length t < 3 ->
     Aggregator.currentTranscript s' = [] /\
     Aggregator.userTranscripts s' = Aggregator.userTranscripts s /\
     Aggregator.lastSentTranscript s' = Aggregator.lastSentTranscript s) /\
  (3 <= length t -> Aggregator.isSpeaking s = false ->
     t = Aggregator.lastSentTranscript s ->
     Aggregator.currentTranscript s' = [] /\
     Aggregator.userTranscripts s' = Aggregator.userTranscripts s /\
     Aggregator.lastSentTranscript s' = Aggregator.lastSentTranscript s) /\
  (3 <= length t -> Aggregator.isSpeaking s = false ->
     t <> Aggregator.lastSentTranscript s ->
     Aggregator.onUserTranscript s = true ->
     Aggregator.userTranscripts s' = Aggregator.userTranscripts s ++ [t] /\
     Aggregator.lastSentTranscript s' = t /\
     Aggregator.currentTranscript s' = [] /\
     forall now2 s2,
       Aggregator.lastSentTranscript s2 = Aggregator.lastSentTranscript s' ->
       trim (Aggregator.currentTranscript s2) = t ->
       Aggregator.userTranscripts (Aggregator.sendTranscript now2 s2)
       = Aggregator.userTranscripts s2).
Proof.
  intros t s'. subst t s'. unfold Aggregator.sendTranscript.
  split; [|split].
  - intros Hshort. rewrite short_or_empty by assumption. repeat split.
  - intros Hlong Hquiet Hdup. rewrite long_is_truthy by assumption.
    rewrite Hquiet, Hdup, str_eqb_refl. repeat split.
  - intros Hlong Hquiet Hnew Hlistener. rewrite long_is_truthy by assumption.
    apply str_eqb_neq in Hnew. rewrite Hquiet, Hnew. simpl.
    rewrite Hlistener. simpl. repeat split.
    intros now2 s2 Hmark Hsame.
    apply sendTranscript_duplicate. now rewrite Hsame, Hmark.
Qed.

(** C4 at a concrete buffer: "  hello world  " is finalized as
    "hello world", once. *)
Lemma finalize_action_witness :
  let s := Aggregator.set_currentTranscript (js "  hello world  ")
             (Aggregator.initial true true) in
  let s' := Aggregator.sendTranscript 2000 s in
  (3 <= length (trim (Aggregator.currentTranscript s)) /\
   Aggregator.isSpeaking s = false /\
   trim (Aggregator.currentTranscript s) <> Aggregator.lastSentTranscript s /\
   Aggregator.onUserTranscript s = true) /\
  Aggregator.userTranscripts s' = [(js "hello world")] /\
  Aggregator.lastSentTranscript s' = (js "hello world") /\
  Aggregator.currentTranscript s' = [] /\
  Aggregator.userTranscripts
    (Aggregator.sendTranscript 5000
       (Aggregator.set_currentTranscript (js "hello world ") s'))
  = [(js "hello world")].
Proof.
  assert (3 <= length
                 (trim (Aggregator.currentTranscript
                          (Aggregator.set_currentTranscript (js "  hello world  ")
                             (Aggregator.initial true true))))) as Hlong.
  { simpl. lia. }
  split;
    [split; [exact Hlong | split; [reflexivity | split; [discriminate | reflexivity]]] |].
  destruct (finalize_action
              (Aggregator.set_currentTranscript (js "  hello world  ")
                 (Aggregator.initial true true)) 2000) as (_ & _ & Hemit).
  destruct Hemit as (Hout & Hmark & Hbuf & Hagain);
    [exact Hlong | reflexivity | discriminate | reflexivity |].
  split; [exact Hout | split; [exact Hmark | split; [exact Hbuf |]]].
  rewrite Hagain; [exact Hout | reflexivity | reflexivity].
Defined.

Section DeferredFinalize.
Import Aggregator.

Variable toLowerCase : str -> str.

(** A send callback over a long enough buffer, run while the avatar is
    marked speaking, only arms a new countdown of 1000ms. *)
Lemma send_callback_defers (cb : Callback) (now : Z) (s : State) :
  cb <> GraceEnd ->
  isSpeaking s = true ->
  3 <= length (trim (currentTranscript s)) ->
  let s' := runCallback cb now s in
  isSpeaking s' = true /\
  currentTranscript s' = currentTranscript s /\
  lastSentTranscript s' = lastSentTranscript s /\
  userTranscripts s' = userTranscripts s /\
  sendTimeout s' = Some (nextTimer s) /\
  timers s' !! nextTimer s = Some {| due := now + 1000; callback := SendTranscript |}.
Proof.
  intros Hcb Hsp Hlong.
  destruct cb; [congruence | |]; simpl; unfold sendTranscript; simpl;
    rewrite (long_is_truthy _ Hlong), Hsp; agg_unfold; simpl;
    rewrite lookup_insert_eq; repeat split; assumption.
Qed.

Lemma fire_pending_timer (h : nat) (t : Timer) (now : Z) (s : State) :
  timers s !! h = Some t -> (due t <= now)%Z ->
  step toLowerCase now (TimerFired h) s = runCallback (callback t) now (clearTimeout h s).
Proof.
  intros Hh Hdue. simpl. unfold onTimer. rewrite Hh.
  apply Z.leb_le in Hdue. now rewrite Hdue.
Qed.

(** One firing of a pending finalize while the avatar is marked speaking. *)
Lemma defer_once (s : State) (now : Z) (h : nat) :
  PendingFinalize now s h ->
  isSpeaking s = true ->
  let s' := step toLowerCase now (TimerFired h) s in
  isSpeaking s' = true /\
  currentTranscript s' = currentTranscript s /\
  lastSentTranscript s' = lastSentTranscript s /\
  userTranscripts s' = userTranscripts s /\
  sendTimeout s' = Some (nextTimer s) /\
  timers s' !! nextTimer s = Some {| due := now + 1000; callback := SendTranscript |}.
Proof.
  intros (Href & Hlong & t & Hh & Hdue & Hcb) Hsp.
  cbv zeta. rewrite (fire_pending_timer h t) by assumption.
  apply (send_callback_defers (callback t) now (clearTimeout h s)); assumption.
Qed.

Lemma fireSendTimeout_S (n : nat) (now : Z) (s : State) (h : nat) :
  sendTimeout s = Some h ->
  fireSendTimeout toLowerCase (S n) now s
  = fireSendTimeout toLowerCase n (now + 1000) (step toLowerCase now (TimerFired h) s).
Proof. intros H. simpl. now rewrite H. Qed.

Lemma callback_cases (cb : Callback) :
  cb = GraceEnd \/ cb = SendAfterRelease \/ cb = SendTranscript.
Proof. destruct cb; auto. Qed.

Lemma defer_many (n : nat) :
  forall (s : State) (now : Z) (h : nat),
  PendingFinalize now s h ->
  isSpeaking s = true ->
  let s' := fireSendTimeout toLowerCase n now s in
  isSpeaking s' = true /\
  currentTranscript s' = currentTranscript s /\
  lastSentTranscript s' = lastSentTranscript s /\
  userTranscripts s' = userTranscripts s /\
  exists h', PendingFinalize (now + 1000 * Z.of_nat n) s' h' /\
             (0 < n -> timers s' !! h'
                       = Some {| due := now + 1000 * Z.of_nat n;
                                 callback := SendTranscript |}).
Proof.
  induction n as [|n IH]; intros s now h Hpend Hsp.
  - simpl. repeat split; try reflexivity; try assumption.
    exists h. split; [|lia].
    replace (now + 1000 * Z.of_nat 0)%Z with now by lia. exact Hpend.
  - pose proof Hpend as (Href & Hlong & _).
    destruct (defer_once s now h Hpend Hsp) as (Hsp1 & Hb1 & Hm1 & Hu1 & Hr1 & Ht1).
    assert (PendingFinalize (now + 1000) (step toLowerCase now (TimerFired h) s) (nextTimer s))
      as Hpend1.
    { split; [exact Hr1|]. split; [now rewrite Hb1|].
      eexists; split; [exact Ht1|]. simpl. split; [lia | discriminate]. }
    destruct (IH _ (now + 1000)%Z _ Hpend1 Hsp1) as (Hsp2 & Hb2 & Hm2 & Hu2 & h' & Hp2 & Ht2).
    cbv zeta. rewrite (fireSendTimeout_S n now s h Href).
    replace (now + 1000 * Z.of_nat (S n))%Z
      with (now + 1000 + 1000 * Z.of_nat n)%Z by lia.
    split; [exact Hsp2|]. split; [congruence|]. split; [congruence|].
    split; [congruence|].
    exists h'. split; [exact Hp2|]. intros _.
    destruct n as [|n].
    + simpl in *. destruct Hp2 as (Hr & _). rewrite Hr1 in Hr.
      injection Hr as <-. rewrite Ht1. do 2 f_equal. lia.
    + apply Ht2. lia.
Qed.

End DeferredFinalize.

(** X24. When a finalize countdown fires while [isSpeakingRef] is set,
    nothing is finalized: the buffer, the last-finalized marker and the
    emitted texts stay as they are and the countdown is armed again,
    1000ms on, as often as it fires while the flag is set.  The end of the
    grace period leaves the countdown pending, and once the flag is
    cleared its firing runs the normal finalize action. *)
Theorem finalize_deferred_while_speaking (toLowerCase : str -> str)
    (s : Aggregator.State) (now : Z) (h : nat) :
  PendingFinalize now s h ->
  (Aggregator.isSpeaking s = true ->
   forall n,
     let s' := fireSendTimeout toLowerCase n now s in
     Aggregator.isSpeaking s' = true /\
     Aggregator.currentTranscript s' = Aggregator.currentTranscript s /\
     Aggregator.lastSentTranscript s' = Aggregator.lastSentTranscript s /\
     Aggregator.userTranscripts s' = Aggregator.userTranscripts s /\
     exists h', PendingFinalize (now + 1000 * Z.of_nat n) s' h' /\
                (0 < n -> Aggregator.timers s' !! h'
                          = Some {| Aggregator.due := now + 1000 * Z.of_nat n;
                                    Aggregator.callback := Aggregator.SendTranscript |})) /\
  (forall g tg now',
     Aggregator.timers s !! g = Some tg ->
     Aggregator.callback tg = Aggregator.GraceEnd ->
     (Aggregator.due tg <= now')%Z ->
     let s' := Aggregator.step toLowerCase now' (Aggregator.TimerFired g) s in
     Aggregator.isSpeaking s' = false /\ PendingFinalize now s' h) /\
  (Aggregator.isSpeaking s = false ->
   let t := trim (Aggregator.currentTranscript s) in
   let s' := Aggregator.step toLowerCase now (Aggregator.TimerFired h) s in
   Aggregator.currentTranscript s' = [] /\
   Aggregator.timers s' = delete h (Aggregator.timers s) /\
   (t = Aggregator.lastSentTranscript s ->
      Aggregator.userTranscripts s' = Aggregator.userTranscripts s) /\
   (t <> Aggregator.lastSentTranscript s ->
      Aggregator.onUserTranscript s = true ->
      Aggregator.userTranscripts s' = Aggregator.userTranscripts s ++ [t] /\
      Aggregator.lastSentTranscript s' = t)).
Proof.
  intros Hpend. split; [|split].
  - intros Hsp n. exact (defer_many toLowerCase n s now h Hpend Hsp).
  - intros g tg now' Hg Hcb Hdue s'. subst s'.
    rewrite (fire_pending_timer toLowerCase g tg) by assumption. rewrite Hcb. simpl.
    split; [reflexivity|].
    destruct Hpend as (Href & Hlong & t & Hh & Hd & Hc).
    split; [exact Href|]. split; [exact Hlong|].
    exists t. simpl. split; [|split; assumption].
    rewrite lookup_delete_ne; [exact Hh | congruence].
  - intros Hquiet t s'. subst t s'.
    destruct Hpend as (Href & Hlong & t & Hh & Hd & Hc).
    rewrite (fire_pending_timer toLowerCase h t) by assumption.
    destruct (callback_cases (Aggregator.callback t)) as [E|[E|E]];
      [congruence | |]; rewrite E; simpl;
      unfold Aggregator.sendTranscript; simpl;
      rewrite (long_is_truthy _ Hlong), Hquiet;
      (destruct (str_eqb_spec (trim (Aggregator.currentTranscript s))
                                 (Aggregator.lastSentTranscript s)) as [Heq|Hne];
       simpl;
       [ split; [reflexivity|]; split; [reflexivity|];
         split; [reflexivity | intros Hn; contradiction]
       | destruct (Aggregator.onUserTranscript s); simpl;
         (split; [reflexivity|]; split; [reflexivity|];
          split; [congruence|]; intros _ Hl; try discriminate;
          split; reflexivity) ]).
Qed.

(** X24 at a concrete episode: the gate is released over "I have five
    years", the avatar starts to speak, and the countdown fires twice. *)
Lemma finalize_deferred_while_speaking_witness :
  let s := Aggregator.run toLowerCaseLatin
             [(0, Aggregator.PushToTalk true);
              (100, Aggregator.UserTranscription (js "I have five years"));
              (1000, Aggregator.PushToTalk false);
              (2000, Aggregator.AvatarSpeakStarted)]%Z
             (Aggregator.initial true true) in
  let s' := fireSendTimeout toLowerCaseLatin 2 3000 s in
  PendingFinalize 3000 s 0 /\
  Aggregator.isSpeaking s = true /\
  Aggregator.currentTranscript s' = Aggregator.currentTranscript s /\
  Aggregator.userTranscripts s' = Aggregator.userTranscripts s.
Proof.
  assert (PendingFinalize 3000
            (Aggregator.run toLowerCaseLatin
               [(0, Aggregator.PushToTalk true);
                (100, Aggregator.UserTranscription (js "I have five years"));
                (1000, Aggregator.PushToTalk false);
                (2000, Aggregator.AvatarSpeakStarted)]%Z
               (Aggregator.initial true true)) 0) as Hpend.
  { split; [reflexivity|]. split; [simpl; lia|].
    eexists. split; [reflexivity|]. split; [simpl; lia | discriminate]. }
  split; [exact Hpend|]. split; [reflexivity|].
  destruct (finalize_deferred_while_speaking toLowerCaseLatin _ 3000 0 Hpend)
    as (Hdefer & _ & _).
  destruct (Hdefer eq_refl 2) as (_ & Hbuf & _ & Hout & _).
  split; [exact Hbuf | exact Hout].
Defined.

Section BufferGrowth.
Import Aggregator.

Variable toLowerCase : str -> str.

(** One merge extends the buffer. *)
Lemma merge_extends (b text : str) :
  Extends toLowerCase b (mergeTranscript toLowerCase b text).
Proof.
  unfold mergeTranscript.
  destruct (truthy b) eqn:Hb; cbn [andb].
  - destruct (startsWith _ _) eqn:E; cbn [negb].
    + destruct (length b <? length text) eqn:L.
      * apply (extends_continuation _ b text);
          [right; now apply startsWith_Continues | now apply Nat.ltb_lt
          | constructor].
      * constructor.
    + apply (extends_segment _ b text); [assumption | constructor].
  - destruct (length b <? length text) eqn:L.
    + apply (extends_continuation _ b text);
        [left; now destruct b | now apply Nat.ltb_lt | constructor].
    + constructor.
Qed.

(** Extending a buffer never makes it shorter. *)
Lemma Extends_sound (b b' : str) :
  Extends toLowerCase b b' -> length b <= length b'.
Proof.
  induction 1 as [b | b text b' Hb _ IH | b text b' Hc Hl _ IH].
  - lia.
  - rewrite !length_app in IH. lia.
  - lia.
Qed.

Lemma Extends_trans (a b c : str) :
  Extends toLowerCase a b -> Extends toLowerCase b c -> Extends toLowerCase a c.
Proof.
  induction 1 as [b | a text b Ha _ IH | a text b Hc Hl _ IH]; intros Hbc.
  - exact Hbc.
  - apply (extends_segment _ a text); auto.
  - apply (extends_continuation _ a text); auto.
Qed.

(** An event of an episode in progress, in push-to-talk mode, extends the
    buffer and emits nothing. *)
Lemma accumulating_step (now : Z) (e : Event) (s : State) :
  pushToTalkEnabled s = true ->
  Accumulating s e ->
  let s' := step toLowerCase now e s in
  pushToTalkEnabled s' = true /\
  Extends toLowerCase (currentTranscript s) (currentTranscript s') /\
  userTranscripts s' = userTranscripts s /\
  lastSentTranscript s' = lastSentTranscript s.
Proof.
  intros Hptt Hacc. destruct e as [text | | | b | h]; simpl in *.
  - unfold onUserTranscription.
    destruct (isSpeaking s); [repeat split; [assumption | constructor]|].
    destruct (negb (truthy text) || _); [repeat split; [assumption | constructor]|].
    rewrite Hptt.
    destruct (pttReleased _); [destruct (sendTimeout s) eqn:E|];
      agg_unfold; simpl; try rewrite E; simpl;
      (repeat split; [assumption | apply merge_extends]).
  - repeat split; [assumption | constructor].
  - repeat split; [assumption | constructor].
  - contradiction.
  - unfold onTimer. destruct (timers s !! h) as [t|] eqn:E;
      [|repeat split; [assumption | constructor]].
    destruct (due t <=? now)%Z; [|repeat split; [assumption | constructor]].
    rewrite (Hacc t eq_refl). simpl.
    repeat split; [assumption | constructor].
Qed.

Lemma episode_extends (s s' : State) :
  InEpisode toLowerCase s s' ->
  pushToTalkEnabled s = true ->
  Extends toLowerCase (currentTranscript s) (currentTranscript s') /\
  userTranscripts s' = userTranscripts s /\
  lastSentTranscript s' = lastSentTranscript s.
Proof.
  induction 1 as [s | s now e s' Hacc _ IH]; intros Hptt.
  - repeat split. constructor.
  - destruct (accumulating_step now e s Hptt Hacc) as (Hptt' & Hext & Hout & Hmark).
    destruct (IH Hptt') as (Hext' & Hout' & Hmark').
    split; [now apply (Extends_trans _ _ _ Hext)|]. split; congruence.
Qed.

(** Whatever timer fires, the listener receives nothing or the trimmed
    buffer. *)
Lemma timer_emits (h : nat) (now : Z) (s : State) :
  userTranscripts (step toLowerCase now (TimerFired h) s) = userTranscripts s \/
  userTranscripts (step toLowerCase now (TimerFired h) s)
  = userTranscripts s ++ [trim (currentTranscript s)].
Proof.
  simpl. unfold onTimer. destruct (timers s !! h) as [t|]; [|now left].
  destruct (due t <=? now)%Z; [|now left].
  destruct (callback t); simpl; [now left | |].
  - apply (sendTranscript_emits now (set_pttReleased false (clearTimeout h s))).
  - apply (sendTranscript_emits now (clearTimeout h s)).
Qed.

(** An accepted event after the release of the gate cancels the
    countdown and arms a new one of 2000ms. *)
Lemma accepted_event_rearms (s : State) (now : Z) (text : str) :
  WellFormed s ->
  pushToTalkEnabled s = true -> pttReleased s = true -> Accepted s text ->
  let s' := step toLowerCase now (UserTranscription text) s in
  (forall h, sendTimeout s = Some h -> timers s' !! h = None) /\
  sendTimeout s' = Some (nextTimer s) /\
  timers s' !! nextTimer s = Some {| due := now + 2000; callback := SendAfterRelease |}.
Proof.
  intros [_ Hwf] Hptt Hrel (Hsp & Htr & Hlen).
  simpl. unfold onUserTranscription. rewrite Hsp, Htr.
  assert ((length (trim text) <? 2) = false) as -> by now apply Nat.ltb_ge.
  simpl. rewrite Hptt. simpl. rewrite Hrel.
  destruct (sendTimeout s) as [h0|] eqn:E; agg_unfold; simpl; rewrite ?E; simpl.
  - split; [|split; [reflexivity | apply lookup_insert_eq]].
    intros h [= <-]. specialize (Hwf h0 eq_refl).
    rewrite lookup_insert_ne by lia. apply lookup_delete_eq.
  - split; [discriminate | split; [reflexivity | apply lookup_insert_eq]].
Qed.

End BufferGrowth.

(** C5, for push-to-talk mode.  When an accepted event after the release of
    the gate cancels the finalize countdown (and arms it again), then as
    long as the episode goes on the buffer only grows by the merge
    heuristic: the buffer at any later point of the episode comes from the
    buffer at cancellation time by merges alone and is never shorter; and
    the text a later firing of a countdown hands to the listener, if any,
    is that later buffer, trimmed. *)
Theorem ptt_buffer_never_regresses (toLowerCase : str -> str)
    (s0 : Aggregator.State) (now : Z) (T : str) (s' : Aggregator.State) :
  WellFormed s0 ->
  Aggregator.pushToTalkEnabled s0 = true ->
  Aggregator.pttReleased s0 = true ->
  Accepted s0 T ->
  let s := Aggregator.step toLowerCase now (Aggregator.UserTranscription T) s0 in
  InEpisode toLowerCase s s' ->
  ((forall h, Aggregator.sendTimeout s0 = Some h -> Aggregator.timers s !! h = None) /\
   Aggregator.sendTimeout s = Some (Aggregator.nextTimer s0) /\
   Aggregator.timers s !! Aggregator.nextTimer s0
   = Some {| Aggregator.due := now + 2000;
             Aggregator.callback := Aggregator.SendAfterRelease |}) /\
  Aggregator.currentTranscript s
  = Aggregator.mergeTranscript toLowerCase (Aggregator.currentTranscript s0) T /\
  Extends toLowerCase (Aggregator.currentTranscript s0) (Aggregator.currentTranscript s) /\
  Extends toLowerCase (Aggregator.currentTranscript s) (Aggregator.currentTranscript s') /\
  length (Aggregator.currentTranscript s0)
  <= length (Aggregator.currentTranscript s) /\
  length (Aggregator.currentTranscript s)
  <= length (Aggregator.currentTranscript s') /\
  Aggregator.userTranscripts s' = Aggregator.userTranscripts s0 /\
  forall now' h,
    let s'' := Aggregator.step toLowerCase now' (Aggregator.TimerFired h) s' in
    Aggregator.userTranscripts s'' = Aggregator.userTranscripts s' \/
    Aggregator.userTranscripts s''
    = Aggregator.userTranscripts s' ++ [trim (Aggregator.currentTranscript s')].
Proof.
  intros Hwf Hptt Hrel Hacc s Hep. subst s.
  destruct (accumulating_step toLowerCase now (Aggregator.UserTranscription T)
              s0 Hptt I) as (Hptt1 & Hext1 & Hout1 & _).
  destruct (episode_extends toLowerCase _ _ Hep Hptt1) as (Hext & Hout & _).
  split; [now apply accepted_event_rearms|].
  split; [now apply accepted_ptt_buffer|].
  split; [exact Hext1|]. split; [exact Hext|].
  split; [exact (Extends_sound toLowerCase _ _ Hext1)|].
  split; [exact (Extends_sound toLowerCase _ _ Hext)|].
  split; [congruence|].
  intros now' h. apply timer_emits.
Qed.

Section Handles.
Import Aggregator.

Variable toLowerCase : str -> str.

Lemma WellFormed_same (s s' : State) :
  timers s' = timers s -> nextTimer s' = nextTimer s ->
  sendTimeout s' = sendTimeout s ->
  WellFormed s -> WellFormed s'.
Proof. unfold WellFormed. intros -> -> ->. trivial. Qed.

Lemma WellFormed_clearTimeout (h : nat) (s : State) :
  WellFormed s -> WellFormed (clearTimeout h s).
Proof.
  intros [Ht Hr]. split; simpl; [|exact Hr].
  intros h' t H. apply lookup_delete_Some in H as [_ H]. eauto.
Qed.

Lemma WellFormed_clearSendTimeout (s : State) :
  WellFormed s -> WellFormed (clearSendTimeout s).
Proof.
  unfold clearSendTimeout. destruct (sendTimeout s); [|trivial].
  apply WellFormed_clearTimeout.
Qed.

Lemma WellFormed_setTimeout (cb : Callback) (delay now : Z) (s : State) :
  WellFormed s -> WellFormed (snd (setTimeout cb delay now s)).
Proof.
  intros [Ht Hr]. split; simpl.
  - intros h t H. apply lookup_insert_Some in H as [[<- _]|[_ H]]; [lia|].
    specialize (Ht _ _ H). lia.
  - intros h H. specialize (Hr _ H). lia.
Qed.

Lemma WellFormed_armSendTimeout (cb : Callback) (delay now : Z) (s : State) :
  WellFormed s -> WellFormed (armSendTimeout cb delay now s).
Proof.
  intros Hwf. destruct (WellFormed_setTimeout cb delay now s Hwf) as [Ht _].
  split; [exact Ht|]. simpl. intros h [= <-]. lia.
Qed.

Lemma WellFormed_sendTranscript (now : Z) (s : State) :
  WellFormed s -> WellFormed (sendTranscript now s).
Proof.
  intros Hwf. unfold sendTranscript.
  destruct (negb _ || _); [exact Hwf|].
  destruct (isSpeaking s); [now apply WellFormed_armSendTimeout|].
  destruct (eqb _ _); [exact Hwf|].
  simpl. destruct (onUserTranscript s); exact Hwf.
Qed.

(** Every handler keeps the handles in order. *)
Lemma WellFormed_step (now : Z) (e : Event) (s : State) :
  WellFormed s -> WellFormed (step toLowerCase now e s).
Proof.
  intros Hwf. destruct e as [text | | | b | h]; simpl.
  - unfold onUserTranscription.
    destruct (isSpeaking s); [exact Hwf|].
    destruct (negb (truthy text) || _); [exact Hwf|].
    destruct (pushToTalkEnabled s).
    + destruct (pttReleased _); [|exact Hwf].
      apply WellFormed_armSendTimeout, WellFormed_clearSendTimeout. exact Hwf.
    + apply WellFormed_armSendTimeout, WellFormed_clearSendTimeout.
      destruct (_ >? _)%Z; exact Hwf.
  - exact Hwf.
  - now apply WellFormed_setTimeout.
  - unfold pushToTalkEffect.
    destruct (pushToTalkEnabled s); simpl; [|exact Hwf].
    destruct (prevPushToTalk s), b; simpl; try exact Hwf.
    + apply (WellFormed_same (armSendTimeout SendAfterRelease 2000 now
                                (clearSendTimeout (set_pttReleased true s))));
        try reflexivity.
      apply WellFormed_armSendTimeout.
      apply (WellFormed_clearSendTimeout (set_pttReleased true s)). exact Hwf.
    + destruct (sendTimeout s) as [h|] eqn:E; [|exact Hwf].
      destruct (WellFormed_clearTimeout h s Hwf) as [Ht _].
      split; [exact Ht | discriminate].
  - unfold onTimer. destruct (timers s !! h) as [t|]; [|exact Hwf].
    destruct (due t <=? now)%Z; [|exact Hwf].
    pose proof (WellFormed_clearTimeout h s Hwf) as Hwf'.
    destruct (callback t); simpl.
    + exact Hwf'.
    + apply WellFormed_sendTranscript. exact Hwf'.
    + apply WellFormed_sendTranscript. exact Hwf'.
Qed.

Lemma WellFormed_initial (ptt listener : bool) : WellFormed (initial ptt listener).
Proof. split; simpl; [intros h t H; now rewrite lookup_empty in H | discriminate]. Qed.

Lemma WellFormed_run (tr : list (Z * Event)) (s : State) :
  WellFormed s -> WellFormed (run toLowerCase tr s).
Proof.
  revert s. induction tr as [|[now e] tr IH]; intros s Hwf; [exact Hwf|].
  apply IH, WellFormed_step, Hwf.
Qed.

End Handles.

(** C5 at the scenario of the specification: the gate is released over "I
    have five years", and the recognizer then delivers the longer text and
    one more segment. *)
Lemma ptt_buffer_never_regresses_witness :
  let s0 := Aggregator.run toLowerCaseLatin
              [(0, Aggregator.PushToTalk true);
               (100, Aggregator.UserTranscription (js "I have five years"));
               (1000, Aggregator.PushToTalk false)]%Z
              (Aggregator.initial true true) in
  let T := (js "I have five years of experience") in
  let s := Aggregator.step toLowerCaseLatin 1800 (Aggregator.UserTranscription T) s0 in
  let s' := Aggregator.step toLowerCaseLatin 2500
      (Aggregator.UserTranscription (js "in Java")) s in
  (WellFormed s0 /\ Aggregator.pushToTalkEnabled s0 = true /\
   Aggregator.pttReleased s0 = true /\ Accepted s0 T /\ InEpisode toLowerCaseLatin s s') /\
  length (Aggregator.currentTranscript s)
  <= length (Aggregator.currentTranscript s') /\
  Aggregator.userTranscripts s' = Aggregator.userTranscripts s0.
Proof.
  cbv zeta.
  assert (WellFormed
            (Aggregator.run toLowerCaseLatin
               [(0, Aggregator.PushToTalk true);
                (100, Aggregator.UserTranscription (js "I have five years"));
                (1000, Aggregator.PushToTalk false)]%Z
               (Aggregator.initial true true))) as Hwf
    by apply WellFormed_run, WellFormed_initial.
  assert (Accepted
            (Aggregator.run toLowerCaseLatin
               [(0, Aggregator.PushToTalk true);
                (100, Aggregator.UserTranscription (js "I have five years"));
                (1000, Aggregator.PushToTalk false)]%Z
               (Aggregator.initial true true))
            (js "I have five years of experience")) as Hacc.
  { split; [reflexivity|]. split; [reflexivity | simpl; lia]. }
  assert (InEpisode toLowerCaseLatin
            (Aggregator.step toLowerCaseLatin 1800
               (Aggregator.UserTranscription (js "I have five years of experience"))
               (Aggregator.run toLowerCaseLatin
                  [(0, Aggregator.PushToTalk true);
                   (100, Aggregator.UserTranscription (js "I have five years"));
                   (1000, Aggregator.PushToTalk false)]%Z
                  (Aggregator.initial true true)))
            (Aggregator.step toLowerCaseLatin 2500 (Aggregator.UserTranscription (js "in Java"))
               (Aggregator.step toLowerCaseLatin 1800
                  (Aggregator.UserTranscription (js "I have five years of experience"))
                  (Aggregator.run toLowerCaseLatin
                     [(0, Aggregator.PushToTalk true);
                      (100, Aggregator.UserTranscription (js "I have five years"));
                      (1000, Aggregator.PushToTalk false)]%Z
                     (Aggregator.initial true true))))) as Hep.
  { apply (episode_step toLowerCaseLatin _ 2500 (Aggregator.UserTranscription (js "in Java")));
      [exact I | apply episode_here]. }
  split.
  - split; [exact Hwf|]. split; [reflexivity|]. split; [reflexivity|].
    split; [exact Hacc | exact Hep].
  - destruct (ptt_buffer_never_regresses toLowerCaseLatin _ 1800 _ _
                Hwf eq_refl eq_refl Hacc Hep)
      as (_ & _ & _ & _ & _ & Hlen & Hout & _).
    split; [exact Hlen | exact Hout].
Defined.

(** C5 does not hold in automatic mode, where every event takes the
    buffer's place: a shorter text cancels the countdown, the buffer
    falls back to an earlier, shorter value, and that value is what is
    finalized. *)
Lemma auto_mode_buffer_regresses :
  let s1 := Aggregator.run toLowerCaseLatin
              [(0, Aggregator.UserTranscription (js "hello"));
               (1000, Aggregator.UserTranscription (js "hello world"))]%Z
              (Aggregator.initial false true) in
  let s2 := Aggregator.step toLowerCaseLatin 2000
      (Aggregator.UserTranscription (js "hello")) s1 in
  let s3 := Aggregator.step toLowerCaseLatin 5000 (Aggregator.TimerFired 2) s2 in
  Accepted s1 (js "hello") /\
  Aggregator.currentTranscript s1 = (js "hello world") /\
  Aggregator.timers s1 !! 1
  = Some {| Aggregator.due := 4000; Aggregator.callback := Aggregator.SendTranscript |} /\
  Aggregator.timers s2 !! 1 = None /\
  Aggregator.currentTranscript s2 = (js "hello") /\
  ~ length (Aggregator.currentTranscript s1)
    <= length (Aggregator.currentTranscript s2) /\
  ~ Extends toLowerCaseLatin (Aggregator.currentTranscript s1)
      (Aggregator.currentTranscript s2) /\
  Aggregator.userTranscripts s3 = [(js "hello")].
Proof.
  cbv zeta.
  split; [split; [reflexivity | split; [reflexivity | simpl; lia]]|].
  split; [reflexivity|]. split; [reflexivity|]. split; [reflexivity|].
  split; [reflexivity|]. split; [simpl; lia|]. split; [|reflexivity].
  intros H. apply Extends_sound in H. simpl in H. lia.
Qed.

Section Suppression.
Import Aggregator.

Variable toLowerCase : str -> str.

(** While [isSpeakingRef] is set the handler drops the event: the state
    does not change at all. *)
Lemma ignored_while_marked_speaking (now : Z) (text : str) (s : State) :
  isSpeaking s = true -> step toLowerCase now (UserTranscription text) s = s.
Proof. intros H. simpl. unfold onUserTranscription. now rewrite H. Qed.

(** So no sequence of recognition events changes anything while the mark
    is set. *)
Lemma recognition_ignored_while_marked_speaking
    (events : list (Z * str)) (s : State) :
  isSpeaking s = true ->
  run toLowerCase (map (fun e => (fst e, UserTranscription (snd e))) events) s = s.
Proof.
  intros H. induction events as [|[now text] events IH]; [reflexivity|].
  simpl. unfold onUserTranscription. rewrite H. exact IH.
Qed.

(** The end of the avatar's speech leaves the mark set and arms a timer
    of 500ms that clears it; that timer does nothing before it is due. *)
Lemma speech_end_arms_grace_timer (now : Z) (s : State) :
  let s' := step toLowerCase now AvatarSpeakEnded s in
  isSpeaking s' = isSpeaking s /\
  timers s' !! nextTimer s = Some {| due := now + 500; callback := GraceEnd |} /\
  forall now', (now' < now + 500)%Z ->
               step toLowerCase now' (TimerFired (nextTimer s)) s' = s'.
Proof.
  simpl. split; [reflexivity|]. split; [apply lookup_insert_eq|].
  intros now' Hearly. unfold onTimer. simpl. rewrite lookup_insert_eq. simpl.
  apply Z.leb_gt in Hearly. now rewrite Hearly.
Qed.

End Suppression.

(** C1.  The property fails on a stale grace timer.  The avatar stops
    speaking at 4000 and starts again at 4200; the 500ms timer armed at
    4000 is not cancelled and clears [isSpeakingRef] at 4500, in the middle
    of the second speech.  A recognition event at 4600, while the avatar
    speaks, is taken up, and the countdown it arms finalizes it at 7600,
    the avatar still speaking.  When the second speech ends at 4550 instead,
    the event at 4600 falls in its grace period and is taken up all the
    same. *)
Theorem stale_grace_timer_unmutes_capture :
  let speech := [(0, Aggregator.AvatarSpeakStarted);
                 (4000, Aggregator.AvatarSpeakEnded);
                 (4200, Aggregator.AvatarSpeakStarted);
                 (4500, Aggregator.TimerFired 0)]%Z in
  let heard := [(4600, Aggregator.UserTranscription (js "thanks for joining us today"));
                (7600, Aggregator.TimerFired 1)]%Z in
  let s := Aggregator.run toLowerCaseLatin speech (Aggregator.initial false true) in
  Aggregator.avatarTalking false speech = true /\
  Aggregator.isSpeaking s = false /\
  Aggregator.avatarTalking false (speech ++ heard) = true /\
  Aggregator.userTranscripts (Aggregator.run toLowerCaseLatin heard s)
  = [(js "thanks for joining us today")] /\
  let s' := Aggregator.step toLowerCaseLatin 4550 Aggregator.AvatarSpeakEnded s in
  Aggregator.timers s' !! 1
  = Some {| Aggregator.due := 5050; Aggregator.callback := Aggregator.GraceEnd |} /\
  Aggregator.currentTranscript
    (Aggregator.step toLowerCaseLatin 4600
       (Aggregator.UserTranscription (js "thanks for joining us today")) s')
  = (js "thanks for joining us today").
Proof. cbv zeta. repeat split. Qed.

(** C8.  The property fails on the same stale grace timer.  The avatar
    speaks from 4200 on, but the 500ms timer armed at 4000 has cleared
    [isSpeakingRef] at 4500.  The text recognised at 4600 arms a countdown;
    when it fires at 7600, the avatar still speaking, [sendTranscript]
    finds the flag cleared: the finalize is performed then, the text goes
    to the listener, the buffer is emptied and no countdown is armed
    again. *)
Theorem finalize_performed_while_avatar_speaks :
  let events := [(0, Aggregator.AvatarSpeakStarted);
                 (4000, Aggregator.AvatarSpeakEnded);
                 (4200, Aggregator.AvatarSpeakStarted);
                 (4500, Aggregator.TimerFired 0);
                 (4600, Aggregator.UserTranscription
                          (js "thanks for joining us today"))]%Z in
  let s := Aggregator.run toLowerCaseLatin events (Aggregator.initial false true) in
  let s' := Aggregator.step toLowerCaseLatin 7600 (Aggregator.TimerFired 1) s in
  Aggregator.avatarTalking false events = true /\
  PendingFinalize 7600 s 1 /\
  Aggregator.isSpeaking s = false /\
  Aggregator.userTranscripts s = [] /\
  Aggregator.userTranscripts s' = [js "thanks for joining us today"] /\
  Aggregator.lastSentTranscript s' = js "thanks for joining us today" /\
  Aggregator.currentTranscript s' = [] /\
  Aggregator.timers s' = ∅.
Proof.
  cbv zeta. split; [reflexivity|]. split.
  - split; [reflexivity|]. split; [vm_compute; lia|].
    eexists. split; [reflexivity|].
    split; [apply Z.leb_le; reflexivity | discriminate].
  - repeat split.
Qed.

(* ===================================================================== *)
(** ** Properties of the pending-speak queue *)
(* ===================================================================== *)

Import JsString.

Section SpeakQueueFacts.
Import SpeakQueue.

Lemma drain_spec (pending repeated : list string) :
  drain pending repeated = ([], repeated ++ List.filter truthy pending).
Proof.
  revert repeated. induction pending as [|text rest IH]; intros repeated; simpl.
  - now rewrite app_nil_r.
  - rewrite IH. destruct (truthy text); [|reflexivity].
    now rewrite <- app_assoc.
Qed.

Lemma filter_all_truthy (l : list string) :
  Forall (fun t => t <> EmptyString) l -> List.filter truthy l = l.
Proof.
  induction 1 as [|t l Ht _ IH]; simpl; [reflexivity|].
  apply truthy_true in Ht. now rewrite Ht, IH.
Qed.

Lemma speakAll_enqueues (texts : list string) (s : State) :
  session s = false \/ isReady s = false ->
  session (speakAll texts s) = session s /\
  isReady (speakAll texts s) = isReady s /\
  pendingSpeak (speakAll texts s) = pendingSpeak s ++ texts /\
  repeated (speakAll texts s) = repeated s.
Proof.
  revert s. induction texts as [|t texts IH]; intros s Hnot; simpl.
  - now rewrite app_nil_r.
  - assert (speak t s = enqueue t s) as ->.
    { unfold speak. destruct Hnot as [-> | ->]; simpl; [reflexivity|].
      now destruct (session s). }
    destruct (IH (enqueue t s) Hnot) as (H1 & H2 & H3 & H4).
    rewrite H1, H2, H3, H4. simpl. now rewrite <- app_assoc.
Qed.

End SpeakQueueFacts.

(** C10, amended.  Every text passed to [speak] before the avatar session
    is ready is put at the end of the queue, and nothing is spoken.  When
    the stream becomes ready the queue is emptied in the order of arrival,
    and every queued text that is not the empty string is spoken, in that
    order; an empty text is taken from the queue without being spoken. *)
Theorem queued_speak_fifo (texts : list string) (s : SpeakQueue.State) :
  SpeakQueue.session s = false \/ SpeakQueue.isReady s = false ->
  let s1 := SpeakQueue.speakAll texts s in
  let s2 := SpeakQueue.onStreamReady s1 in
  SpeakQueue.pendingSpeak s1 = SpeakQueue.pendingSpeak s ++ texts /\
  SpeakQueue.repeated s1 = SpeakQueue.repeated s /\
  SpeakQueue.isReady s2 = true /\
  SpeakQueue.pendingSpeak s2 = [] /\
  SpeakQueue.repeated s2
  = SpeakQueue.repeated s
    ++ List.filter truthy (SpeakQueue.pendingSpeak s ++ texts) /\
  (Forall (fun t => t <> EmptyString) (SpeakQueue.pendingSpeak s ++ texts) ->
   SpeakQueue.repeated s2
   = SpeakQueue.repeated s ++ SpeakQueue.pendingSpeak s ++ texts).
Proof.
  intros Hnot s1 s2. subst s1 s2.
  destruct (speakAll_enqueues texts s Hnot) as (_ & _ & Hq & Hr).
  unfold SpeakQueue.onStreamReady. rewrite drain_spec, Hq, Hr. simpl.
  repeat split. intros Hall. now rewrite filter_all_truthy.
Qed.

(** C10 for three texts spoken before the session exists. *)
Lemma queued_speak_fifo_witness :
  let texts := ["Hello."; "Welcome to the interview."; "Shall we begin?"] in
  let s2 := SpeakQueue.onStreamReady
              (SpeakQueue.speakAll texts SpeakQueue.initial) in
  (SpeakQueue.session SpeakQueue.initial = false \/
   SpeakQueue.isReady SpeakQueue.initial = false) /\
  SpeakQueue.pendingSpeak s2 = [] /\
  SpeakQueue.repeated s2 = texts.
Proof.
  cbv zeta. split; [left; reflexivity|].
  destruct (queued_speak_fifo
              ["Hello."; "Welcome to the interview."; "Shall we begin?"]
              SpeakQueue.initial (or_introl eq_refl))
    as (_ & _ & _ & Hq & _ & Hall).
  split; [exact Hq|]. apply Hall.
  repeat constructor; discriminate.
Defined.

(** C10 as stated fails for the empty text: it is enqueued, and the ready
    handler takes it from the queue without speaking it, while the same
    text is handed to the session when the stream is ready already. *)
Lemma queued_empty_text_not_spoken :
  let s1 := SpeakQueue.speak EmptyString SpeakQueue.initial in
  let s2 := SpeakQueue.onStreamReady (SpeakQueue.onSessionCreated s1) in
  SpeakQueue.pendingSpeak s1 = [EmptyString] /\
  SpeakQueue.pendingSpeak s2 = [] /\
  SpeakQueue.repeated s2 = [] /\
  SpeakQueue.repeated s2 <> SpeakQueue.pendingSpeak s1 /\
  SpeakQueue.repeated (SpeakQueue.speak EmptyString s2) = [EmptyString].
Proof. cbv zeta. repeat split. discriminate. Qed.

(* ===================================================================== *)
(** ** Properties of the interview reducer *)
(* ===================================================================== *)

Section ReducerFacts.
Import Interview.

Lemma phase_eqb_eq (p q : InterviewPhase) : phase_eqb p q = true <-> p = q.
Proof. destruct p, q; simpl; split; congruence. Qed.

Lemma phasesFrom_unfold (p : InterviewPhase) :
  phasesFrom p
  = p :: match nextPhase p with Some q => phasesFrom q | None => [] end.
Proof. now destruct p. Qed.

Lemma phase_after_write (s : InterviewState) (a : InterviewAction) (q : InterviewPhase) :
  phaseWritten a = Some q -> phase (interviewReducer s a) = q.
Proof. destruct a; simpl; congruence. Qed.

Lemma phase_after_other (s : InterviewState) (a : InterviewAction) :
  phaseWritten a = None -> phase (interviewReducer s a) = phase s.
Proof. destruct a; simpl; congruence. Qed.

(** The reducer stores the phase of a [SET_PHASE] whatever the current
    phase is. *)
Lemma set_phase_unchecked (s : InterviewState) (p : InterviewPhase) :
  phase (interviewReducer s (SET_PHASE p)) = p.
Proof. reflexivity. Qed.

End ReducerFacts.

(** C2, amended.  The reducer takes every phase update as it comes: it
    stores the phase a [SET_PHASE] carries, moves to COMPLETED on
    [SET_EVALUATION] and back to IDLE on [RESET], from any phase.  The
    phases a session visits from state [s] on follow the order IDLE,
    GREETING, TECHNICAL, EVALUATION, COMPLETED (they are a prefix of the
    order from the phase of [s] on; from the initial state, a prefix of the
    whole order) exactly when every update that reaches the reducer
    carries the successor of the current phase. *)
Theorem phases_in_order_iff_updates_successive
    (actions : list Interview.InterviewAction) :
  forall s : Interview.InterviewState,
  Interview.phasesVisited s actions
    `prefix_of` Interview.phasesFrom (Interview.phase s)
  <-> Interview.successiveUpdates (Interview.phase s) actions = true.
Proof.
  unfold Interview.phasesVisited.
  induction actions as [|a rest IH]; intros s.
  - simpl. split; [reflexivity|]. intros _. rewrite phasesFrom_unfold.
    now exists (match Interview.nextPhase (Interview.phase s) with
                | Some q => Interview.phasesFrom q | None => [] end).
  - simpl. destruct (Interview.phaseWritten a) as [q|] eqn:Hw.
    + rewrite (phase_after_write s a q Hw).
      rewrite (phasesFrom_unfold (Interview.phase s)).
      destruct (Interview.nextPhase (Interview.phase s)) as [n|].
      * split.
        -- intros H. apply prefix_cons_inv_2 in H.
           pose proof H as Hhead. rewrite phasesFrom_unfold in Hhead.
           apply prefix_cons_inv_1 in Hhead. subst n.
           apply andb_true_iff. split; [now apply phase_eqb_eq|].
           specialize (IH (Interview.interviewReducer s a)).
           rewrite (phase_after_write s a q Hw) in IH. now apply IH.
        -- intros H. apply andb_true_iff in H as [Hq Hrest].
           apply phase_eqb_eq in Hq. subst n. apply prefix_cons.
           specialize (IH (Interview.interviewReducer s a)).
           rewrite (phase_after_write s a q Hw) in IH. now apply IH.
      * split; [|discriminate]. intros H. apply prefix_cons_inv_2 in H.
        now apply prefix_nil_not in H.
    + specialize (IH (Interview.interviewReducer s a)).
      rewrite (phase_after_other s a Hw) in IH. exact IH.
Qed.

(** C2 for a whole interview: session set, three phase updates, turns in
    between, and the evaluation result. *)
Lemma phases_in_order_iff_updates_successive_witness :
  let actions :=
    [Interview.SET_SESSION "abc"; Interview.SET_PHASE Interview.GREETING;
     Interview.SET_CONNECTED true; Interview.SET_PHASE Interview.TECHNICAL;
     Interview.SET_PUSH_TO_TALK true; Interview.SET_PHASE Interview.EVALUATION;
     Interview.SET_EVALUATION
       {| Interview.score := 80; Interview.result_passed := true;
          Interview.feedback :=
            {| Interview.persuasion := 80; Interview.technicalFit := 85;
               Interview.communication := 75 |};
          Interview.summary := "ok" |}] in
  Interview.successiveUpdates Interview.IDLE actions = true /\
  Interview.phasesVisited Interview.initialState actions
    `prefix_of` Interview.phaseOrder.
Proof.
  cbv zeta. split; [reflexivity|].
  apply (proj2 (phases_in_order_iff_updates_successive _ Interview.initialState)).
  reflexivity.
Defined.

(** C2 as stated fails: nothing in the reducer keeps a phase update from
    skipping a phase, from repeating one, or from going back. *)
Lemma reducer_takes_any_phase_update :
  let skip := [Interview.SET_PHASE Interview.TECHNICAL] in
  let again := [Interview.SET_PHASE Interview.GREETING;
                Interview.SET_PHASE Interview.GREETING] in
  let back := [Interview.SET_PHASE Interview.GREETING;
               Interview.SET_PHASE Interview.TECHNICAL;
               Interview.SET_PHASE Interview.GREETING] in
  Interview.phasesVisited Interview.initialState skip
  = [Interview.IDLE; Interview.TECHNICAL] /\
  ~ Interview.phasesVisited Interview.initialState skip
      `prefix_of` Interview.phaseOrder /\
  Interview.phasesVisited Interview.initialState again
  = [Interview.IDLE; Interview.GREETING; Interview.GREETING] /\
  ~ Interview.phasesVisited Interview.initialState again
      `prefix_of` Interview.phaseOrder /\
  Interview.phasesVisited Interview.initialState back
  = [Interview.IDLE; Interview.GREETING; Interview.TECHNICAL; Interview.GREETING] /\
  ~ Interview.phasesVisited Interview.initialState back
      `prefix_of` Interview.phaseOrder.
Proof.
  cbv zeta.
  split; [reflexivity|]. split; [intros [k Hk]; discriminate|].
  split; [reflexivity|]. split; [intros [k Hk]; discriminate|].
  split; [reflexivity|]. intros [k Hk]; discriminate.
Qed.

(* ===================================================================== *)
(** ** Properties of the session channel *)
(* ===================================================================== *)

Import ChannelNotions.

(** Unfold the operations and the field updates of the channel. *)
Ltac chan_unfold :=
  unfold Channel.send, Channel.onopen, Channel.onmessage, Channel.onerror,
    Channel.notify, Channel.wsOpen, Channel.openSocket, Channel.closeSocket,
    Channel.setTimeout, Channel.clearTimeout, Channel.print,
    Channel.set_timers, Channel.set_reconnectTimeout, Channel.setIsConnected,
    Channel.set_activeSessionId, Channel.set_wsRef, Channel.set_sockets in *.

(** Take apart every [match] and [if] of the goal. *)
Ltac break_match_goal :=
  repeat match goal with
         | |- context [match ?x with _ => _ end] =>
             destruct x eqn:?; simpl in *; try congruence
         end.

Section ChannelFacts.
Import Channel.

(** The handlers never read the console: two states that differ in the
    console only are taken to two such states. *)
Lemma eraseConsole_step (now : Z) (e : Event) (s1 s2 : State) :
  eraseConsole s1 = eraseConsole s2 ->
  eraseConsole (UseWebSocket.step now e s1)
  = eraseConsole (UseWebSocket.step now e s2).
Proof.
  destruct s1, s2. unfold eraseConsole. simpl.
  intros [= -> -> -> -> -> -> -> ->].
  destruct e; simpl;
    unfold UseWebSocket.disconnect, UseWebSocket.onclose,
      UseWebSocket.reconnect, UseWebSocket.connect;
    chan_unfold; simpl; break_match_goal; reflexivity.
Qed.

Lemma eraseConsole_run (tr : list (Z * Event)) :
  forall s1 s2 : State,
  eraseConsole s1 = eraseConsole s2 ->
  eraseConsole (UseWebSocket.run tr s1) = eraseConsole (UseWebSocket.run tr s2).
Proof.
  induction tr as [|[now e] tr IH]; intros s1 s2 H; [exact H|].
  apply IH, eraseConsole_step, H.
Qed.

End ChannelFacts.

(** C6. A [send] while the current socket is not open does nothing but
    print a warning: no socket is handed the message, and the message is
    kept nowhere, since whatever happens afterwards the hook goes on as if
    [send] had not been called (the states differ in the console only). *)
Theorem send_while_not_connected_is_dropped
    (message : Channel.WebSocketMessage) (s : Channel.State) :
  Channel.wsOpen s = false ->
  Channel.send message s
  = Channel.print
      (Channel.ConsoleWarn "WebSocket not connected, message not sent") s /\
  Channel.transmitted (Channel.send message s) = Channel.transmitted s /\
  forall tr,
    eraseConsole (UseWebSocket.run tr (Channel.send message s))
    = eraseConsole (UseWebSocket.run tr s).
Proof.
  intros Hclosed. unfold Channel.send. rewrite Hclosed.
  split; [reflexivity|]. split; [reflexivity|].
  intros tr. now apply eraseConsole_run.
Qed.

(** C6 in the gap of the specification's scenario: the socket has closed,
    a turn is sent and dropped, and the reconnection three seconds later
    does not carry it. *)
Lemma send_while_not_connected_is_dropped_witness :
  let s := UseWebSocket.run
             [(0, Channel.Connect (render (Some "A")) None);
              (50, Channel.Opened 0); (9000, Channel.Closed 0)]%Z
             Channel.initial in
  let m := {| Channel.msgType := Channel.transcript_entry;
              Channel.payload := "I have five years of experience" |} in
  let later := [(12000, Channel.TimerFired 0); (12050, Channel.Opened 1)]%Z in
  Channel.wsOpen s = false /\
  Channel.transmitted (Channel.send m s) = [[]] /\
  Channel.transmitted (UseWebSocket.run later (Channel.send m s)) = [[]; []].
Proof.
  cbv zeta. split; [reflexivity|].
  destruct (send_while_not_connected_is_dropped
              {| Channel.msgType := Channel.transcript_entry;
                 Channel.payload := "I have five years of experience" |}
              (UseWebSocket.run
                 [(0, Channel.Connect (render (Some "A")) None);
                  (50, Channel.Opened 0); (9000, Channel.Closed 0)]%Z
                 Channel.initial) eq_refl) as (_ & Hnow & Hlater).
  split; [rewrite Hnow; reflexivity|].
  specialize (Hlater [(12000, Channel.TimerFired 0); (12050, Channel.Opened 1)]%Z).
  apply (f_equal Channel.transmitted) in Hlater.
  exact (eq_trans Hlater eq_refl).
Defined.

(** *** The later revision: the stored session identifier *)

Section StoredIdentifier.
Import Channel UseWebSocketStored.

(** X21. In the later revision, the closure of a socket marks the channel
    disconnected, tells the caller (when [onDisconnect] is given), arms one
    timer of 3000ms kept in [reconnectTimeoutRef], and leaves the stored
    identifier alone. *)
Lemma stored_closure_schedules_reconnect
    (s : State) (i : nat) (ws : WebSocket) (now : Z) :
  sockets s !! i = Some ws -> readyState ws <> CLOSED ->
  let s' := step now (Closed i) s in
  isConnected s' = false /\
  notifications s'
  = notifications s ++ (if onDisconnect (handlers ws) then [DisconnectNotice] else []) /\
  timers s' = <[nextTimer s := {| due := now + 3000; scheduledBy := handlers ws |}]>
      (timers s) /\
  reconnectTimeout s' = Some (nextTimer s) /\
  activeSessionId s' = activeSessionId s.
Proof.
  intros Hws Hopen. simpl. rewrite Hws.
  destruct (readyState ws) eqn:E; [| | |congruence];
    unfold onclose; chan_unfold; simpl;
    destruct (onDisconnect (handlers ws)); simpl;
    rewrite ?app_nil_r; repeat split.
Qed.

(** X20. In the later revision, when the reconnection timer fires and the
    current socket is not open, the socket it opens is for the identifier
    kept in [activeSessionIdRef], whatever [sessionId] the closure that
    armed the timer had, even none. *)
Lemma stored_reconnect_uses_last_identifier
    (s : State) (h : nat) (t : Timer) (now : Z) (sid : string) :
  timers s !! h = Some t -> (due t <= now)%Z ->
  activeSessionId s = Some sid -> sid <> EmptyString ->
  wsOpen s = false ->
  let s' := step now (TimerFired h) s in
  sockets s'
  = sockets s ++ [{| wsUrl := url (scheduledBy t) +:+ "/" +:+ sid;
                     readyState := CONNECTING; sent := [];
                     handlers := scheduledBy t |}] /\
  wsRef s' = Some (length (sockets s)) /\
  activeSessionId s' = Some sid.
Proof.
  intros Hh Hdue Hid Hne Hclosed. simpl. rewrite Hh.
  apply Z.leb_le in Hdue. rewrite Hdue.
  apply truthy_true in Hne.
  unfold reconnect, connect, orElse, truthyId.
  change (activeSessionId (clearTimeout h s)) with (activeSessionId s).
  change (wsOpen (clearTimeout h s)) with (wsOpen s).
  rewrite Hid, Hne, Hclosed, Hne. repeat split.
Qed.

(** [disconnect()] forgets the identifier, deletes the timer kept in
    [reconnectTimeoutRef] and drops the socket. *)
Lemma stored_disconnect_clears (s : State) :
  let s' := disconnect s in
  activeSessionId s' = None /\ wsRef s' = None /\ isConnected s' = false /\
  (forall h, reconnectTimeout s = Some h -> timers s' !! h = None) /\
  length (sockets s') = length (sockets s).
Proof.
  unfold disconnect. chan_unfold.
  destruct (reconnectTimeout s) as [h|] eqn:Eh; simpl;
    (destruct (wsRef s) as [i|] eqn:Ei; simpl;
     [destruct (sockets s !! i) as [ws|] eqn:Ew; simpl;
      [destruct (readyState ws); simpl|]|]);
    repeat split; try discriminate;
    try (intros h' [= <-]; apply lookup_delete_eq);
    try (now rewrite length_insert).
Qed.

(** Without an identifier no event other than a call of [connect] opens
    a socket or brings an identifier back. *)
Lemma stored_no_identifier_step (now : Z) (e : Event) (s : State) :
  notConnect e = true -> activeSessionId s = None ->
  activeSessionId (step now e s) = None /\
  length (sockets (step now e s)) = length (sockets s).
Proof.
  intros Hne Hnone. destruct e; try discriminate; simpl.
  - unfold disconnect. chan_unfold. simpl. break_match_goal;
      rewrite ?length_insert; auto.
  - chan_unfold. break_match_goal; rewrite ?length_insert; auto.
  - chan_unfold. break_match_goal; rewrite ?length_insert; auto.
  - unfold onmessage. chan_unfold. break_match_goal; auto.
  - chan_unfold. break_match_goal; auto.
  - unfold onclose. chan_unfold. break_match_goal; rewrite ?length_insert; auto.
  - unfold reconnect, truthyId.
    change (activeSessionId (clearTimeout h s)) with (activeSessionId s).
    rewrite Hnone. break_match_goal; auto.
Qed.

Lemma stored_no_identifier_run (tr : list (Z * Event)) :
  forall s : State,
  activeSessionId s = None ->
  forallb (fun te => notConnect (snd te)) tr = true ->
  length (sockets (run tr s)) = length (sockets s) /\
  activeSessionId (run tr s) = None.
Proof.
  induction tr as [|[now e] tr IH]; intros s Hnone Hquiet; [auto|].
  simpl in Hquiet. apply andb_true_iff in Hquiet as [He Htr].
  destruct (stored_no_identifier_step now e s He Hnone) as (Hnone' & Hlen').
  destruct (IH (step now e s) Hnone' Htr) as (H1 & H2).
  simpl. split; [congruence | exact H2].
Qed.

(** X19. In the later revision, after [disconnect()] there is no automatic
    reconnection: as long as the caller does not call [connect], no socket
    is opened, whichever close events arrive and whichever timers fire. *)
Lemma stored_no_reconnect_after_disconnect (tr : list (Z * Event)) (s : State) :
  forallb (fun te => notConnect (snd te)) tr = true ->
  length (sockets (run tr (disconnect s))) = length (sockets s) /\
  activeSessionId (run tr (disconnect s)) = None.
Proof.
  intros Hquiet.
  destruct (stored_disconnect_clears s) as (Hnone & _ & _ & _ & Hlen).
  destruct (stored_no_identifier_run tr (disconnect s) Hnone Hquiet) as (H1 & H2).
  split; [congruence | exact H2].
Qed.

End StoredIdentifier.

(** C7.  The closure of a socket marks the channel disconnected, tells the
    caller, and arms one timer, due 3000ms later and kept in
    [reconnectTimeoutRef]; it opens no socket, and the timer does nothing
    before it is due.  When the timer fires, the attempt connects with the
    identifier kept in [activeSessionIdRef], whatever [sessionId] the
    props of the closed socket's render held, even none, and the timer is
    gone.  That identifier is the last the channel connected with:
    [connect] stores the identifier it opens a socket for. *)
Theorem closure_reconnects_with_stored_identifier
    (s : Channel.State) (i : nat) (ws : Channel.WebSocket) (now : Z) :
  Channel.sockets s !! i = Some ws ->
  Channel.readyState ws <> Channel.CLOSED ->
  let s1 := UseWebSocketStored.step now (Channel.Closed i) s in
  let h := Channel.nextTimer s in
  let t := {| Channel.due := now + 3000;
              Channel.scheduledBy := Channel.handlers ws |} in
  (Channel.isConnected s1 = false /\
   Channel.notifications s1
   = Channel.notifications s
     ++ (if Channel.onDisconnect (Channel.handlers ws)
         then [Channel.DisconnectNotice] else []) /\
   Channel.timers s1 = <[h := t]> (Channel.timers s) /\
   Channel.reconnectTimeout s1 = Some h /\
   Channel.activeSessionId s1 = Channel.activeSessionId s /\
   length (Channel.sockets s1) = length (Channel.sockets s)) /\
  (forall now', (now' < now + 3000)%Z ->
     UseWebSocketStored.step now' (Channel.TimerFired h) s1 = s1) /\
  (forall s2 now2 sid,
     Channel.timers s2 !! h = Some t -> (now + 3000 <= now2)%Z ->
     Channel.activeSessionId s2 = Some sid -> sid <> EmptyString ->
     Channel.wsOpen s2 = false ->
     let s3 := UseWebSocketStored.step now2 (Channel.TimerFired h) s2 in
     Channel.sockets s3
     = Channel.sockets s2
       ++ [{| Channel.wsUrl := Channel.url (Channel.handlers ws) +:+ "/" +:+ sid;
              Channel.readyState := Channel.CONNECTING; Channel.sent := [];
              Channel.handlers := Channel.handlers ws |}] /\
     Channel.wsRef s3 = Some (length (Channel.sockets s2)) /\
     Channel.activeSessionId s3 = Some sid /\
     Channel.timers s3 = delete h (Channel.timers s2)) /\
  (forall cl o sid s0,
     Channel.wsOpen s0 = false ->
     UseWebSocketStored.orElse o (Channel.sessionId cl) = Some sid ->
     sid <> EmptyString ->
     Channel.activeSessionId (UseWebSocketStored.connect cl o s0) = Some sid).
Proof.
  intros Hws Hopen s1 h t. subst s1 h t.
  split; [|split; [|split]].
  - simpl. rewrite Hws.
    destruct (Channel.readyState ws) eqn:E; [| | |congruence];
      unfold UseWebSocketStored.onclose; chan_unfold; simpl;
      destruct (Channel.onDisconnect (Channel.handlers ws)); simpl;
      rewrite ?app_nil_r, ?length_insert; repeat split.
  - intros now' Hearly. apply Z.leb_gt in Hearly. simpl. rewrite Hws.
    destruct (Channel.readyState ws) eqn:E; [| | |congruence];
      unfold UseWebSocketStored.onclose; chan_unfold; simpl;
      destruct (Channel.onDisconnect (Channel.handlers ws)); simpl;
      rewrite lookup_insert_eq; simpl; rewrite Hearly; reflexivity.
  - intros s2 now2 sid Hh Hdue Hid Hne Hclosed. simpl. rewrite Hh. simpl.
    apply Z.leb_le in Hdue. rewrite Hdue.
    apply truthy_true in Hne.
    unfold UseWebSocketStored.reconnect, UseWebSocketStored.connect,
      UseWebSocketStored.orElse, Channel.truthyId.
    change (Channel.activeSessionId (Channel.clearTimeout (Channel.nextTimer s) s2))
      with (Channel.activeSessionId s2).
    change (Channel.wsOpen (Channel.clearTimeout (Channel.nextTimer s) s2))
      with (Channel.wsOpen s2).
    rewrite Hid, Hne, Hclosed, Hne. repeat split.
  - intros cl o sid s0 Hclosed Hid Hne. apply truthy_true in Hne.
    unfold UseWebSocketStored.connect. rewrite Hclosed, Hid, Hne. reflexivity.
Qed.

(** C7 when session A was ended and session B started, both with
    [connect(data.sessionId)] from a render whose [sessionId] is null: the
    socket of A closes at 61500, and the timer its closure armed connects
    to B at 64500. *)
Lemma closure_reconnects_with_stored_identifier_witness :
  let s := UseWebSocketStored.run
             [(0, Channel.Connect (render None) (Some "A")); (50, Channel.Opened 0);
              (60000, Channel.Disconnect);
              (61000, Channel.Connect (render None) (Some "B"))]%Z
             Channel.initial in
  let ws := {| Channel.wsUrl := "ws://localhost:8000/ws/A";
               Channel.readyState := Channel.CLOSING; Channel.sent := [];
               Channel.handlers := render None |} in
  let s2 := UseWebSocketStored.run
              [(61500, Channel.Closed 0); (62000, Channel.Closed 1)]%Z s in
  let s3 := UseWebSocketStored.step 64500 (Channel.TimerFired 0) s2 in
  (Channel.sockets s !! 0 = Some ws /\
   Channel.readyState ws <> Channel.CLOSED /\
   Channel.timers s2 !! 0
   = Some {| Channel.due := 61500 + 3000; Channel.scheduledBy := render None |} /\
   (61500 + 3000 <= 64500)%Z /\
   Channel.activeSessionId s2 = Some "B" /\ "B" <> EmptyString /\
   Channel.wsOpen s2 = false) /\
  map Channel.wsUrl (Channel.sockets s3)
  = ["ws://localhost:8000/ws/A"; "ws://localhost:8000/ws/B";
     "ws://localhost:8000/ws/B"] /\
  Channel.wsRef s3 = Some 2.
Proof.
  cbv zeta.
  assert (61500 + 3000 <= 64500)%Z as Hdue by lia.
  split.
  - split; [reflexivity|]. split; [discriminate|]. split; [reflexivity|].
    split; [exact Hdue|]. split; [reflexivity|]. split; [discriminate | reflexivity].
  - destruct (closure_reconnects_with_stored_identifier
                (UseWebSocketStored.run
                   [(0, Channel.Connect (render None) (Some "A")); (50, Channel.Opened 0);
                    (60000, Channel.Disconnect);
                    (61000, Channel.Connect (render None) (Some "B"))]%Z
                   Channel.initial)
                0
                {| Channel.wsUrl := "ws://localhost:8000/ws/A";
                   Channel.readyState := Channel.CLOSING; Channel.sent := [];
                   Channel.handlers := render None |}
                61500 eq_refl ltac:(discriminate))
      as (_ & _ & Hfire & _).
    destruct (Hfire
                (UseWebSocketStored.run
                   [(61500, Channel.Closed 0); (62000, Channel.Closed 1)]%Z
                   (UseWebSocketStored.run
                      [(0, Channel.Connect (render None) (Some "A"));
                       (50, Channel.Opened 0);
                       (60000, Channel.Disconnect);
                       (61000, Channel.Connect (render None) (Some "B"))]%Z
                      Channel.initial))
                64500%Z "B" eq_refl Hdue eq_refl ltac:(discriminate) eq_refl)
      as (Hsockets & Href & _).
    split; [|exact Href].
    exact (eq_trans (f_equal (map Channel.wsUrl) Hsockets) eq_refl).
Defined.



(* ===================================================================== *)
(** ** Further properties of the transcript aggregation *)
(* ===================================================================== *)

Import MoreNotions Utf16.

Section TrimFacts.

Lemma trimEnd_idempotent (s : str) : trimEnd (trimEnd s) = trimEnd s.
Proof.
  induction s as [|c r IH]; [reflexivity|].
  simpl. destruct (trimEnd r) as [|d r'] eqn:E.
  - destruct (is_white_space c) eqn:W; [reflexivity|]. simpl. now rewrite W.
  - simpl in *. now rewrite IH.
Qed.

Lemma trimStart_trimmedStart (s : str) : trimmedStart (trimStart s).
Proof.
  induction s as [|c r IH]; simpl; [exact I|].
  destruct (is_white_space c) eqn:W; [exact IH | exact W].
Qed.

Lemma trimEnd_trimmedStart (s : str) :
  trimmedStart s -> trimmedStart (trimEnd s).
Proof.
  destruct s as [|c r]; simpl; [trivial|]. intros W.
  destruct (trimEnd r); [now rewrite W | exact W].
Qed.

Lemma trimStart_fixed (s : str) : trimmedStart s -> trimStart s = s.
Proof. destruct s as [|c r]; simpl; [trivial|]. now intros ->. Qed.

Lemma trim_idempotent (s : str) : trim (trim s) = trim s.
Proof.
  unfold trim.
  rewrite (trimStart_fixed (trimEnd (trimStart s))).
  - apply trimEnd_idempotent.
  - apply trimEnd_trimmedStart, trimStart_trimmedStart.
Qed.

End TrimFacts.

Section Emission.
Import Aggregator.

Variable toLowerCase : str -> str.

(** What [sendTranscript] can do to the list of emitted texts. *)
Lemma sendTranscript_emission (now : Z) (s : State) :
  userTranscripts (sendTranscript now s) = userTranscripts s \/
  (userTranscripts (sendTranscript now s)
   = userTranscripts s ++ [trim (currentTranscript s)] /\
   3 <= length (trim (currentTranscript s)) /\
   isSpeaking s = false /\
   trim (currentTranscript s) <> lastSentTranscript s /\
   lastSentTranscript (sendTranscript now s) = trim (currentTranscript s)).
Proof.
  unfold sendTranscript.
  destruct (negb _ || _) eqn:Hshort; [now left|].
  destruct (isSpeaking s) eqn:Hsp; [now left|].
  destruct (str_eqb_spec (trim (currentTranscript s)) (lastSentTranscript s))
    as [Heq|Hne]; [now left|].
  simpl. destruct (onUserTranscript s); [right | now left].
  apply orb_false_iff in Hshort as [_ Hlen]. apply Nat.ltb_ge in Hlen.
  simpl. repeat split; assumption.
Qed.

(** What one event can do to the list of emitted texts. *)
Lemma step_emission (now : Z) (e : Event) (s : State) :
  userTranscripts (step toLowerCase now e s) = userTranscripts s \/
  ((exists h, e = TimerFired h) /\
   userTranscripts (step toLowerCase now e s)
   = userTranscripts s ++ [trim (currentTranscript s)] /\
   3 <= length (trim (currentTranscript s)) /\
   isSpeaking s = false /\
   trim (currentTranscript s) <> lastSentTranscript s /\
   lastSentTranscript (step toLowerCase now e s) = trim (currentTranscript s)).
Proof.
  destruct e as [text | | | b | h]; simpl.
  - left. unfold onUserTranscription.
    destruct (isSpeaking s); [reflexivity|].
    destruct (negb (truthy text) || _); [reflexivity|].
    destruct (pushToTalkEnabled s).
    + destruct (pttReleased _); [destruct (sendTimeout s) eqn:E|];
        agg_unfold; simpl; rewrite ?E; reflexivity.
    + destruct (sendTimeout s) eqn:E; agg_unfold; simpl;
        destruct (_ >? _)%Z; simpl; rewrite ?E; reflexivity.
  - now left.
  - now left.
  - left. unfold pushToTalkEffect.
    destruct (pushToTalkEnabled s); simpl; [|reflexivity].
    destruct (prevPushToTalk s), b; simpl; try reflexivity;
      destruct (sendTimeout s) eqn:E; agg_unfold; simpl; rewrite ?E; reflexivity.
  - unfold onTimer. destruct (timers s !! h) as [t|]; [|now left].
    destruct (due t <=? now)%Z; [|now left].
    destruct (callback t); simpl; [now left | |].
    + destruct (sendTranscript_emission now (set_pttReleased false (clearTimeout h s)))
        as [H|H]; [now left | right]. split; [now exists h | exact H].
    + destruct (sendTranscript_emission now (clearTimeout h s))
        as [H|H]; [now left | right]. split; [now exists h | exact H].
Qed.

End Emission.

(** X1. A text reaches the listener only when a timer fires while the
    avatar is not marked speaking; it is then the trimmed buffer, three
    characters long or more and not equal to the last text sent, and it
    becomes the last text sent.  No other event emits anything. *)
Theorem emission_only_by_countdown (toLowerCase : str -> str)
    (now : Z) (e : Aggregator.Event) (s : Aggregator.State) :
  Aggregator.userTranscripts (Aggregator.step toLowerCase now e s)
  = Aggregator.userTranscripts s \/
  ((exists h, e = Aggregator.TimerFired h) /\
   Aggregator.userTranscripts (Aggregator.step toLowerCase now e s)
   = Aggregator.userTranscripts s ++ [trim (Aggregator.currentTranscript s)] /\
   3 <= length (trim (Aggregator.currentTranscript s)) /\
   Aggregator.isSpeaking s = false /\
   trim (Aggregator.currentTranscript s) <> Aggregator.lastSentTranscript s /\
   Aggregator.lastSentTranscript (Aggregator.step toLowerCase now e s)
   = trim (Aggregator.currentTranscript s)).
Proof. exact (step_emission toLowerCase now e s). Qed.

(** X2. Whatever events arrive, the texts handed to the listener are never
    taken back or reordered, and every text handed over is three
    characters long or more and has no white space at either end. *)
Theorem emitted_texts_are_finalized (toLowerCase : str -> str)
    (tr : list (Z * Aggregator.Event)) (s : Aggregator.State) :
  exists new,
    Aggregator.userTranscripts (Aggregator.run toLowerCase tr s)
    = Aggregator.userTranscripts s ++ new /\
    Forall Finalized new.
Proof.
  revert s. induction tr as [|[now e] tr IH]; intros s.
  - exists []. split; [now rewrite app_nil_r | constructor].
  - destruct (IH (Aggregator.step toLowerCase now e s)) as (new & Hnew & Hall).
    simpl. change (fold_left _ tr ?x) with (Aggregator.run toLowerCase tr x).
    rewrite Hnew.
    destruct (step_emission toLowerCase now e s) as [Hsame | (_ & Hone & Hlen & _)].
    + exists new. now rewrite Hsame.
    + exists (trim (Aggregator.currentTranscript s) :: new).
      rewrite Hone, <- app_assoc. split; [reflexivity|].
      constructor; [|exact Hall]. split; [exact Hlen | apply trim_idempotent].
Qed.

Section Countdowns.
Import Aggregator.

Variable toLowerCase : str -> str.

Lemma SingleCountdown_rearm (cb : Callback) (delay now : Z) (s : State) :
  SingleCountdown s ->
  SingleCountdown (armSendTimeout cb delay now (clearSendTimeout s)).
Proof.
  intros Hone h t. unfold armSendTimeout, clearSendTimeout.
  destruct (sendTimeout s) as [h0|] eqn:E; simpl; intros Hh Hcb;
    apply lookup_insert_Some in Hh as [[<- _]|[Hne Hh]]; try reflexivity.
  - apply lookup_delete_Some in Hh as [Hne0 Hh].
    specialize (Hone _ _ Hh Hcb). congruence.
  - specialize (Hone _ _ Hh Hcb). congruence.
Qed.

(** Field updates that leave the timers and [sendTimeoutRef] alone. *)
Lemma SingleCountdown_same (s s' : State) :
  timers s' = timers s -> sendTimeout s' = sendTimeout s ->
  SingleCountdown s -> SingleCountdown s'.
Proof. unfold SingleCountdown. intros -> ->. trivial. Qed.

Lemma SingleCountdown_sendTranscript (h : nat) (t : Timer) (now : Z) (s s' : State) :
  SingleCountdown s ->
  timers s !! h = Some t -> callback t <> GraceEnd ->
  timers s' = delete h (timers s) -> sendTimeout s' = sendTimeout s ->
  SingleCountdown (sendTranscript now s').
Proof.
  intros Hone Hh Hcb Ht Hr.
  assert (SingleCountdown s') as Hone'.
  { intros h' t' Hh'. rewrite Ht in Hh'. rewrite Hr.
    apply lookup_delete_Some in Hh' as [_ Hh']. eauto. }
  unfold sendTranscript.
  destruct (negb _ || _); [exact Hone'|].
  destruct (isSpeaking s').
  - intros h' t' Hh' Hcb'. unfold armSendTimeout in *. simpl in *.
    apply lookup_insert_Some in Hh' as [[<- _]|[Hne Hh']]; [reflexivity|].
    rewrite Ht in Hh'. apply lookup_delete_Some in Hh' as [Hne' Hh'].
    pose proof (Hone _ _ Hh Hcb) as H1. pose proof (Hone _ _ Hh' Hcb') as H2.
    congruence.
  - destruct (eqb _ _); [exact Hone'|].
    simpl. destruct (onUserTranscript s'); exact Hone'.
Qed.

(** Every handler keeps the send countdown single. *)
Lemma SingleCountdown_step (now : Z) (e : Event) (s : State) :
  SingleCountdown s -> SingleCountdown (step toLowerCase now e s).
Proof.
  intros Hone. destruct e as [text | | | b | h]; simpl.
  - unfold onUserTranscription.
    destruct (isSpeaking s); [exact Hone|].
    destruct (negb (truthy text) || _); [exact Hone|].
    destruct (pushToTalkEnabled s).
    + destruct (pttReleased _); [|exact Hone].
      apply SingleCountdown_rearm. exact Hone.
    + apply SingleCountdown_rearm. destruct (_ >? _)%Z; exact Hone.
  - exact Hone.
  - intros h t Hh Hcb. simpl in *.
    apply lookup_insert_Some in Hh as [[_ <-]|[_ Hh]]; [now simpl in Hcb | eauto].
  - unfold pushToTalkEffect.
    destruct (pushToTalkEnabled s); simpl; [|exact Hone].
    destruct (prevPushToTalk s), b; simpl; try exact Hone.
    + apply (SingleCountdown_same
               (armSendTimeout SendAfterRelease 2000 now
                  (clearSendTimeout (set_pttReleased true s)))); try reflexivity.
      apply (SingleCountdown_rearm SendAfterRelease 2000 now (set_pttReleased true s)).
      exact Hone.
    + destruct (sendTimeout s) as [h|] eqn:E; [|exact Hone].
      intros h' t' Hh' Hcb'. simpl in *.
      apply lookup_delete_Some in Hh' as [Hne Hh'].
      specialize (Hone _ _ Hh' Hcb'). congruence.
  - unfold onTimer. destruct (timers s !! h) as [t|] eqn:Hh; [|exact Hone].
    destruct (due t <=? now)%Z; [|exact Hone].
    destruct (callback t) eqn:Hcb; simpl.
    + intros h' t' Hh' Hcb'. simpl in *.
      apply lookup_delete_Some in Hh' as [_ Hh']. eauto.
    + apply (SingleCountdown_sendTranscript h t now s); try reflexivity;
        [exact Hone | exact Hh | congruence].
    + apply (SingleCountdown_sendTranscript h t now s); try reflexivity;
        [exact Hone | exact Hh | congruence].
Qed.

(** A state without a pending send timer emits nothing, whichever timer
    fires. *)
Lemma no_send_timer_no_emission (h : nat) (now : Z) (s : State) :
  (forall h' t, timers s !! h' = Some t -> (due t <= now)%Z ->
                callback t = GraceEnd) ->
  userTranscripts (step toLowerCase now (TimerFired h) s) = userTranscripts s.
Proof.
  intros Hnone. simpl. unfold onTimer.
  destruct (timers s !! h) as [t|] eqn:Hh; [|reflexivity].
  destruct (due t <=? now)%Z eqn:Hdue; [|reflexivity].
  apply Z.leb_le in Hdue. now rewrite (Hnone _ _ Hh Hdue).
Qed.

Lemma SingleCountdown_run (tr : list (Z * Event)) (s : State) :
  SingleCountdown s -> SingleCountdown (run toLowerCase tr s).
Proof.
  revert s. induction tr as [|[now e] tr IH]; intros s Hs; [exact Hs|].
  apply IH, SingleCountdown_step, Hs.
Qed.

Lemma SingleCountdown_initial (ptt listener : bool) :
  SingleCountdown (initial ptt listener).
Proof. intros h t Hh. simpl in Hh. now rewrite lookup_empty in Hh. Qed.

End Countdowns.

(** X3. At any time at most one finalize countdown is pending, and it is
    the one kept in [sendTimeoutRef]: every handler that arms a countdown
    first clears the one before, and a deferred finalize arms its retry
    only after its own timer has gone. *)
Theorem single_finalize_countdown (toLowerCase : str -> str)
    (tr : list (Z * Aggregator.Event)) (ptt listener : bool) :
  SingleCountdown (Aggregator.run toLowerCase tr (Aggregator.initial ptt listener)).
Proof. apply SingleCountdown_run, SingleCountdown_initial. Qed.

(** X4. Debounce.  After an accepted recognition event that arms the
    countdown (in automatic mode always, in push-to-talk mode while the
    release flag [pttReleasedRef] is set) nothing is finalized before the
    silence period is over: 3000ms in automatic mode, 2000ms in
    push-to-talk mode.  Whichever timer fires earlier, no text reaches the
    listener.  In push-to-talk mode the flag is set by the release of the
    gate and cleared when the callback of the release countdown runs;
    with the flag cleared an accepted event arms nothing. *)
Theorem nothing_finalized_before_silence (toLowerCase : str -> str)
    (s : Aggregator.State) (now : Z) (text : str) :
  SingleCountdown s ->
  Accepted s text ->
  (Aggregator.pushToTalkEnabled s = true -> Aggregator.pttReleased s = true) ->
  let s' := Aggregator.step toLowerCase now (Aggregator.UserTranscription text) s in
  let silence := if Aggregator.pushToTalkEnabled s then 2000%Z else 3000%Z in
  forall h now', (now' < now + silence)%Z ->
    Aggregator.userTranscripts (Aggregator.step toLowerCase now' (Aggregator.TimerFired h) s')
    = Aggregator.userTranscripts s'.
Proof.
  intros Hone Hacc Hrel s' silence h now' Hearly.
  pose proof (SingleCountdown_step toLowerCase now (Aggregator.UserTranscription text) s Hone)
    as Hone'. fold s' in Hone'.
  assert (exists cb, Aggregator.sendTimeout s' = Some (Aggregator.nextTimer s) /\
                     Aggregator.timers s' !! Aggregator.nextTimer s
                     = Some {| Aggregator.due := now + silence;
                               Aggregator.callback := cb |}) as (cb & Href & Hnew).
  { destruct Hacc as (Hsp & Htr & Hlen). subst s' silence. simpl.
    unfold Aggregator.onUserTranscription. rewrite Hsp, Htr.
    assert ((length (trim text) <? 2) = false) as -> by now apply Nat.ltb_ge.
    simpl. destruct (Aggregator.pushToTalkEnabled s) eqn:Hptt.
    - simpl. rewrite (Hrel eq_refl). exists Aggregator.SendAfterRelease.
      destruct (Aggregator.sendTimeout s) eqn:E; agg_unfold; simpl; rewrite ?E;
        simpl; split; try reflexivity; apply lookup_insert_eq.
    - exists Aggregator.SendTranscript.
      destruct (Aggregator.sendTimeout s) eqn:E; agg_unfold; simpl;
        destruct (_ >? _)%Z; simpl; rewrite ?E; simpl;
        split; try reflexivity; apply lookup_insert_eq. }
  apply no_send_timer_no_emission. intros h' t Hh' Hdue.
  destruct (Aggregator.callback t) eqn:Hcb; [reflexivity | |];
    (assert (Aggregator.sendTimeout s' = Some h') as Hh
       by (apply (Hone' h' t Hh'); congruence);
     rewrite Href in Hh; injection Hh as <-;
     rewrite Hnew in Hh'; injection Hh' as <-; simpl in Hdue; lia).
Qed.

(** X4 for an event in automatic mode, with the avatar's grace timer
    pending beside the countdown. *)
Lemma nothing_finalized_before_silence_witness :
  let s := Aggregator.run toLowerCaseLatin
             [(0, Aggregator.AvatarSpeakStarted); (900, Aggregator.AvatarSpeakEnded);
              (1400, Aggregator.TimerFired 0);
              (2000, Aggregator.UserTranscription (js "I have five"));
              (2100, Aggregator.AvatarSpeakEnded)]%Z
             (Aggregator.initial false true) in
  let s' := Aggregator.step toLowerCaseLatin 2500
      (Aggregator.UserTranscription (js "I have five years")) s in
  (SingleCountdown s /\ Accepted s (js "I have five years")) /\
  Aggregator.userTranscripts (Aggregator.step toLowerCaseLatin 5499
      (Aggregator.TimerFired 3) s')
  = Aggregator.userTranscripts s'.
Proof.
  cbv zeta.
  assert (SingleCountdown
            (Aggregator.run toLowerCaseLatin
               [(0, Aggregator.AvatarSpeakStarted); (900, Aggregator.AvatarSpeakEnded);
                (1400, Aggregator.TimerFired 0);
                (2000, Aggregator.UserTranscription (js "I have five"));
                (2100, Aggregator.AvatarSpeakEnded)]%Z
               (Aggregator.initial false true))) as Hone
    by apply SingleCountdown_run, SingleCountdown_initial.
  assert (Accepted
            (Aggregator.run toLowerCaseLatin
               [(0, Aggregator.AvatarSpeakStarted); (900, Aggregator.AvatarSpeakEnded);
                (1400, Aggregator.TimerFired 0);
                (2000, Aggregator.UserTranscription (js "I have five"));
                (2100, Aggregator.AvatarSpeakEnded)]%Z
               (Aggregator.initial false true)) (js "I have five years")) as Hacc.
  { split; [reflexivity|]. split; [reflexivity | simpl; lia]. }
  split; [split; assumption|].
  apply (nothing_finalized_before_silence toLowerCaseLatin _ 2500
      (js "I have five years") Hone Hacc);
    [discriminate | reflexivity].
Defined.

(** X5. The two length filters differ.  In automatic mode a recognised
    text of exactly two trimmed characters passes the filter of the
    handler (two or more) and is put in the buffer, but the finalize drops
    it (three or more): when its countdown fires the buffer is cleared and
    nothing reaches the listener. *)
Theorem two_character_text_is_buffered_then_dropped (toLowerCase : str -> str)
    (s : Aggregator.State) (now : Z) (text : str) :
  Aggregator.pushToTalkEnabled s = false ->
  Accepted s text ->
  length (trim text) < 3 ->
  let s1 := Aggregator.step toLowerCase now (Aggregator.UserTranscription text) s in
  let s2 := Aggregator.step toLowerCase (now + 3000)
              (Aggregator.TimerFired (Aggregator.nextTimer s)) s1 in
  Aggregator.currentTranscript s1 = text /\
  Aggregator.currentTranscript s2 = [] /\
  Aggregator.userTranscripts s2 = Aggregator.userTranscripts s.
Proof.
  intros Hauto (Hsp & Htr & Hlen) Hshort. cbv zeta.
  simpl. unfold Aggregator.onUserTranscription. rewrite Hsp, Htr, Hauto.
  assert ((length (trim text) <? 2) = false) as -> by now apply Nat.ltb_ge.
  simpl.
  destruct (Aggregator.sendTimeout s) eqn:E; agg_unfold; simpl;
    destruct (_ >? _)%Z; simpl; rewrite ?E; simpl;
    (split; [reflexivity|]);
    unfold Aggregator.onTimer; simpl; rewrite lookup_insert_eq; simpl;
    rewrite (proj2 (Z.leb_le _ _) (Z.le_refl _)); simpl;
    unfold Aggregator.sendTranscript; simpl;
    rewrite (short_or_empty _ Hshort); simpl; split; reflexivity.
Qed.

(** X5 for the answer "ok". *)
Lemma two_character_text_is_buffered_then_dropped_witness :
  let s := Aggregator.initial false true in
  let s1 := Aggregator.step toLowerCaseLatin 100 (Aggregator.UserTranscription (js " ok ")) s in
  let s2 := Aggregator.step toLowerCaseLatin 3100 (Aggregator.TimerFired 0) s1 in
  (Aggregator.pushToTalkEnabled s = false /\ Accepted s (js " ok ") /\
   length (trim (js " ok ")) < 3) /\
  Aggregator.currentTranscript s1 = (js " ok ") /\
  Aggregator.currentTranscript s2 = [] /\
  Aggregator.userTranscripts s2 = [].
Proof.
  cbv zeta.
  assert (Accepted (Aggregator.initial false true) (js " ok ")) as Hacc.
  { split; [reflexivity|]. split; [reflexivity | simpl; lia]. }
  assert (length (trim (js " ok ")) < 3) as Hshort by (simpl; lia).
  split; [split; [reflexivity | split; assumption]|].
  exact (two_character_text_is_buffered_then_dropped toLowerCaseLatin
           (Aggregator.initial false true) 100 (js " ok ") eq_refl Hacc Hshort).
Defined.

(** X6. Pressing the push-to-talk button starts from a clean slate: the
    buffer and the last-sent marker are emptied, the release flag is
    dropped, the countdown of the episode before is cancelled, and no timer
    that fires afterwards can finalize anything of that episode. *)
Theorem gate_activation_resets_episode (toLowerCase : str -> str)
    (s : Aggregator.State) (now : Z) :
  SingleCountdown s ->
  Aggregator.pushToTalkEnabled s = true ->
  Aggregator.prevPushToTalk s = false ->
  let s' := Aggregator.step toLowerCase now (Aggregator.PushToTalk true) s in
  Aggregator.currentTranscript s' = [] /\
  Aggregator.lastSentTranscript s' = [] /\
  Aggregator.pttReleased s' = false /\
  Aggregator.sendTimeout s' = None /\
  Aggregator.prevPushToTalk s' = true /\
  forall h now',
    Aggregator.userTranscripts (Aggregator.step toLowerCase now' (Aggregator.TimerFired h) s')
    = Aggregator.userTranscripts s'.
Proof.
  intros Hone Hptt Hprev s'.
  pose proof (SingleCountdown_step toLowerCase now (Aggregator.PushToTalk true)
      s Hone) as Hone'.
  fold s' in Hone'.
  assert (Aggregator.currentTranscript s' = [] /\
          Aggregator.lastSentTranscript s' = [] /\
          Aggregator.pttReleased s' = false /\
          Aggregator.sendTimeout s' = None /\
          Aggregator.prevPushToTalk s' = true) as H.
  { subst s'. simpl. unfold Aggregator.pushToTalkEffect. rewrite Hptt, Hprev. simpl.
    destruct (Aggregator.sendTimeout s) eqn:E; simpl; repeat split; exact E. }
  destruct H as (H1 & H2 & H3 & H4 & H5). repeat split; try assumption.
  intros h now'. apply no_send_timer_no_emission. intros h' t Hh' _.
  destruct (Aggregator.callback t) eqn:Hcb; [reflexivity | |];
    (assert (Aggregator.sendTimeout s' = Some h') as Hh
       by (apply (Hone' h' t Hh'); congruence); congruence).
Qed.

(** X6 when the button is pressed again before the countdown of the
    episode before has fired. *)
Lemma gate_activation_resets_episode_witness :
  let s := Aggregator.run toLowerCaseLatin
             [(0, Aggregator.PushToTalk true);
              (100, Aggregator.UserTranscription (js "I have five years"));
              (1000, Aggregator.PushToTalk false)]%Z
             (Aggregator.initial true true) in
  let s' := Aggregator.step toLowerCaseLatin 1500 (Aggregator.PushToTalk true) s in
  (SingleCountdown s /\ Aggregator.pushToTalkEnabled s = true /\
   Aggregator.prevPushToTalk s = false) /\
  Aggregator.currentTranscript s' = [] /\
  Aggregator.userTranscripts (Aggregator.step toLowerCaseLatin 3000
      (Aggregator.TimerFired 0) s')
  = Aggregator.userTranscripts s'.
Proof.
  cbv zeta.
  assert (SingleCountdown
            (Aggregator.run toLowerCaseLatin
               [(0, Aggregator.PushToTalk true);
                (100, Aggregator.UserTranscription (js "I have five years"));
                (1000, Aggregator.PushToTalk false)]%Z
               (Aggregator.initial true true))) as Hone
    by apply SingleCountdown_run, SingleCountdown_initial.
  split; [split; [exact Hone | split; reflexivity]|].
  destruct (gate_activation_resets_episode toLowerCaseLatin _ 1500 Hone eq_refl eq_refl)
    as (Hbuf & _ & _ & _ & _ & Hquiet).
  split; [exact Hbuf | apply Hquiet].
Defined.

(** X7. In push-to-talk mode recognition alone never finalizes: as long as
    the release flag is not set, recognition events only merge into the
    buffer, which comes from the buffer before by merges alone and is
    never shorter; they arm no countdown and hand nothing to the
    listener. *)
Theorem recognition_without_release_arms_nothing (toLowerCase : str -> str)
    (events : list (Z * str)) (s : Aggregator.State) :
  Aggregator.pushToTalkEnabled s = true ->
  Aggregator.pttReleased s = false ->
  let s' := Aggregator.run toLowerCase
              (map (fun e => (fst e, Aggregator.UserTranscription (snd e))) events) s in
  Aggregator.timers s' = Aggregator.timers s /\
  Aggregator.sendTimeout s' = Aggregator.sendTimeout s /\
  Aggregator.userTranscripts s' = Aggregator.userTranscripts s /\
  Aggregator.lastSentTranscript s' = Aggregator.lastSentTranscript s /\
  Extends toLowerCase (Aggregator.currentTranscript s) (Aggregator.currentTranscript s') /\
  length (Aggregator.currentTranscript s) <= length (Aggregator.currentTranscript s').
Proof.
  intros Hptt Hheld s'.
  enough (Aggregator.timers s' = Aggregator.timers s /\
          Aggregator.sendTimeout s' = Aggregator.sendTimeout s /\
          Aggregator.userTranscripts s' = Aggregator.userTranscripts s /\
          Aggregator.lastSentTranscript s' = Aggregator.lastSentTranscript s /\
          Extends toLowerCase (Aggregator.currentTranscript s)
                  (Aggregator.currentTranscript s')) as (H1 & H2 & H3 & H4 & H5).
  { repeat split; try assumption. exact (Extends_sound toLowerCase _ _ H5). }
  subst s'. revert s Hptt Hheld.
  induction events as [|[now text] events IH]; intros s Hptt Hheld.
  - simpl. repeat split. constructor.
  - change (Aggregator.run toLowerCase
              (map (fun e => (fst e, Aggregator.UserTranscription (snd e)))
                   ((now, text) :: events)) s)
      with (Aggregator.run toLowerCase
              (map (fun e => (fst e, Aggregator.UserTranscription (snd e))) events)
              (Aggregator.step toLowerCase now (Aggregator.UserTranscription text) s)).
    assert (Aggregator.step toLowerCase now (Aggregator.UserTranscription text) s = s \/
            Aggregator.step toLowerCase now (Aggregator.UserTranscription text) s
            = Aggregator.set_currentTranscript
                (Aggregator.mergeTranscript toLowerCase
                    (Aggregator.currentTranscript s) text) s)
      as Hstep.
    { simpl. unfold Aggregator.onUserTranscription.
      destruct (Aggregator.isSpeaking s); [now left|].
      destruct (negb (truthy text) || _); [now left|].
      rewrite Hptt. simpl. rewrite Hheld. now right. }
    destruct Hstep as [-> | ->]; [now apply IH|].
    destruct (IH (Aggregator.set_currentTranscript
                    (Aggregator.mergeTranscript toLowerCase
                        (Aggregator.currentTranscript s) text) s)
                 Hptt Hheld) as (H1 & H2 & H3 & H4 & H5).
    repeat split; try assumption.
    eapply Extends_trans; [apply merge_extends | exact H5].
Qed.

(** X7 while the button is held. *)
Lemma recognition_without_release_arms_nothing_witness :
  let s := Aggregator.step toLowerCaseLatin 0 (Aggregator.PushToTalk true)
             (Aggregator.initial true true) in
  let s' := Aggregator.run toLowerCaseLatin
              [(100, Aggregator.UserTranscription (js "I have"));
               (600, Aggregator.UserTranscription (js "I have five years"));
               (900, Aggregator.UserTranscription (js "of experience"))]%Z s in
  (Aggregator.pushToTalkEnabled s = true /\ Aggregator.pttReleased s = false) /\
  Aggregator.timers s' = Aggregator.timers s /\
  Aggregator.userTranscripts s' = Aggregator.userTranscripts s /\
  length (Aggregator.currentTranscript s) <= length (Aggregator.currentTranscript s').
Proof.
  cbv zeta. split; [split; reflexivity|].
  destruct (recognition_without_release_arms_nothing toLowerCaseLatin
              [(100, (js "I have")); (600, (js "I have five years"));
                  (900, (js "of experience"))]%Z
              (Aggregator.step toLowerCaseLatin 0 (Aggregator.PushToTalk true)
                 (Aggregator.initial true true)) eq_refl eq_refl)
    as (Ht & _ & Hu & _ & _ & Hlen).
  split; [exact Ht|]. split; [exact Hu | exact Hlen].
Defined.

(** X8. The five-second rule of automatic mode.  When the recognizer
    delivers again the text that was sent last, the countdown it arms
    sends the text once more only if more than 5000ms have passed since
    the event before; within 5000ms the repeat is suppressed. *)
Theorem repeat_is_resent_only_after_five_seconds (toLowerCase : str -> str)
    (s : Aggregator.State) (now : Z) (text : str) :
  Aggregator.pushToTalkEnabled s = false ->
  Accepted s text ->
  3 <= length (trim text) ->
  Aggregator.lastSentTranscript s = trim text ->
  Aggregator.onUserTranscript s = true ->
  let s1 := Aggregator.step toLowerCase now (Aggregator.UserTranscription text) s in
  let s2 := Aggregator.step toLowerCase (now + 3000)
              (Aggregator.TimerFired (Aggregator.nextTimer s)) s1 in
  ((now - Aggregator.lastTranscriptTime s > 5000)%Z ->
   Aggregator.userTranscripts s2 = Aggregator.userTranscripts s ++ [trim text]) /\
  ((now - Aggregator.lastTranscriptTime s <= 5000)%Z ->
   Aggregator.userTranscripts s2 = Aggregator.userTranscripts s).
Proof.
  intros Hauto (Hsp & Htr & Hlen) Hlong Hmark Hlistener. cbv zeta.
  simpl. unfold Aggregator.onUserTranscription. rewrite Hsp, Htr, Hauto.
  assert ((length (trim text) <? 2) = false) as -> by now apply Nat.ltb_ge.
  assert (trim text <> []) as Hne.
  { intros E. rewrite E in Hlong. simpl in Hlong. lia. }
  simpl. split; intros Hgap.
  - apply Z.gtb_gt in Hgap.
    destruct (Aggregator.sendTimeout s) eqn:E; agg_unfold; simpl;
      rewrite Hgap; simpl; rewrite ?E; simpl;
      unfold Aggregator.onTimer; simpl; rewrite lookup_insert_eq; simpl;
      rewrite (proj2 (Z.leb_le _ _) (Z.le_refl _)); simpl;
      unfold Aggregator.sendTranscript; simpl;
      rewrite (long_is_truthy _ Hlong), Hsp;
      rewrite (proj2 (str_eqb_neq _ _) Hne); simpl;
      rewrite Hlistener; reflexivity.
  - assert ((now - Aggregator.lastTranscriptTime s >? 5000)%Z = false) as Hno.
    { destruct (now - Aggregator.lastTranscriptTime s >? 5000)%Z eqn:G;
        [apply Z.gtb_gt in G; lia | reflexivity]. }
    destruct (Aggregator.sendTimeout s) eqn:E; agg_unfold; simpl;
      rewrite Hno; simpl; rewrite ?E; simpl;
      unfold Aggregator.onTimer; simpl; rewrite lookup_insert_eq; simpl;
      rewrite (proj2 (Z.leb_le _ _) (Z.le_refl _)); simpl;
      unfold Aggregator.sendTranscript; simpl;
      rewrite (long_is_truthy _ Hlong), Hsp, Hmark, str_eqb_refl; reflexivity.
Qed.

(** X8 after "hello world" was sent at 3000: the same text at 4000 is
    suppressed. *)
Lemma repeat_is_resent_only_after_five_seconds_witness :
  let s := Aggregator.run toLowerCaseLatin
             [(0, Aggregator.UserTranscription (js "hello world"));
              (3000, Aggregator.TimerFired 0)]%Z
             (Aggregator.initial false true) in
  let s2 := Aggregator.run toLowerCaseLatin
              [(4000, Aggregator.UserTranscription (js "hello world"));
               (7000, Aggregator.TimerFired 1)]%Z s in
  (Aggregator.pushToTalkEnabled s = false /\ Accepted s (js "hello world") /\
   3 <= length (trim (js "hello world")) /\
   Aggregator.lastSentTranscript s = trim (js "hello world") /\
   Aggregator.onUserTranscript s = true /\
   (4000 - Aggregator.lastTranscriptTime s <= 5000)%Z) /\
  Aggregator.userTranscripts s2 = Aggregator.userTranscripts s.
Proof.
  cbv zeta.
  assert (Accepted
            (Aggregator.run toLowerCaseLatin
               [(0, Aggregator.UserTranscription (js "hello world"));
                (3000, Aggregator.TimerFired 0)]%Z
               (Aggregator.initial false true)) (js "hello world")) as Hacc.
  { split; [reflexivity|]. split; [reflexivity | simpl; lia]. }
  assert (3 <= length (trim (js "hello world"))) as Hlong by (simpl; lia).
  assert (4000 - Aggregator.lastTranscriptTime
                   (Aggregator.run toLowerCaseLatin
                      [(0, Aggregator.UserTranscription (js "hello world"));
                       (3000, Aggregator.TimerFired 0)]%Z
                      (Aggregator.initial false true)) <= 5000)%Z as Hgap
    by (vm_compute; discriminate).
  split.
  - split; [reflexivity|]. split; [exact Hacc|]. split; [exact Hlong|].
    split; [reflexivity|]. split; [reflexivity | exact Hgap].
  - destruct (repeat_is_resent_only_after_five_seconds toLowerCaseLatin
                (Aggregator.run toLowerCaseLatin
                   [(0, Aggregator.UserTranscription (js "hello world"));
                    (3000, Aggregator.TimerFired 0)]%Z
                   (Aggregator.initial false true))
                4000 (js "hello world")
                eq_refl Hacc Hlong eq_refl eq_refl) as (_ & Hwithin).
    exact (Hwithin Hgap).
Defined.

(** X9. Releasing the push-to-talk button does not send at once: it sets
    the release flag and arms a countdown of 2000ms.  Fired before that
    time the timer does nothing; fired at or after it, with the avatar not
    marked speaking, it hands the trimmed buffer to the listener, clears
    the buffer and drops the release flag. *)
Theorem release_finalizes_after_two_seconds (toLowerCase : str -> str)
    (s : Aggregator.State) (now now' : Z) :
  Aggregator.pushToTalkEnabled s = true ->
  Aggregator.prevPushToTalk s = true ->
  Aggregator.isSpeaking s = false ->
  3 <= length (trim (Aggregator.currentTranscript s)) ->
  trim (Aggregator.currentTranscript s) <> Aggregator.lastSentTranscript s ->
  Aggregator.onUserTranscript s = true ->
  let s1 := Aggregator.step toLowerCase now (Aggregator.PushToTalk false) s in
  let s2 := Aggregator.step toLowerCase now'
      (Aggregator.TimerFired (Aggregator.nextTimer s)) s1 in
  Aggregator.pttReleased s1 = true /\
  Aggregator.userTranscripts s1 = Aggregator.userTranscripts s /\
  ((now' < now + 2000)%Z -> s2 = s1) /\
  ((now + 2000 <= now')%Z ->
   Aggregator.userTranscripts s2
   = Aggregator.userTranscripts s ++ [trim (Aggregator.currentTranscript s)] /\
   Aggregator.currentTranscript s2 = [] /\
   Aggregator.lastSentTranscript s2 = trim (Aggregator.currentTranscript s) /\
   Aggregator.pttReleased s2 = false).
Proof.
  intros Hptt Hprev Hsp Hlong Hnew Hlistener. cbv zeta.
  apply str_eqb_neq in Hnew.
  simpl. unfold Aggregator.pushToTalkEffect. rewrite Hptt, Hprev. simpl.
  destruct (Aggregator.sendTimeout s) eqn:E; agg_unfold; simpl; rewrite ?E; simpl;
    (split; [reflexivity|]); (split; [reflexivity|]);
    unfold Aggregator.onTimer; simpl; rewrite lookup_insert_eq; simpl;
    (split; intros Htime;
     [ apply Z.leb_gt in Htime; rewrite Htime; reflexivity
     | apply Z.leb_le in Htime; rewrite Htime; simpl;
       unfold Aggregator.sendTranscript; simpl;
       rewrite (long_is_truthy _ Hlong), Hsp, Hnew; simpl;
       rewrite Hlistener; simpl; repeat split ]).
Qed.

(** X9 at the scenario of the specification. *)
Lemma release_finalizes_after_two_seconds_witness :
  let s := Aggregator.run toLowerCaseLatin
             [(0, Aggregator.PushToTalk true);
              (100, Aggregator.UserTranscription (js "I have five years"))]%Z
             (Aggregator.initial true true) in
  let s1 := Aggregator.step toLowerCaseLatin 1000 (Aggregator.PushToTalk false) s in
  (Aggregator.pushToTalkEnabled s = true /\ Aggregator.prevPushToTalk s = true /\
   Aggregator.isSpeaking s = false /\
   3 <= length (trim (Aggregator.currentTranscript s)) /\
   trim (Aggregator.currentTranscript s) <> Aggregator.lastSentTranscript s /\
   Aggregator.onUserTranscript s = true /\ (1000 + 2000 <= 3000)%Z) /\
  Aggregator.userTranscripts (Aggregator.step toLowerCaseLatin 3000
      (Aggregator.TimerFired 0) s1)
  = [(js "I have five years")].
Proof.
  cbv zeta.
  assert (3 <= length
                 (trim (Aggregator.currentTranscript
                          (Aggregator.run toLowerCaseLatin
                             [(0, Aggregator.PushToTalk true);
                              (100, Aggregator.UserTranscription (js "I have five years"))]%Z
                             (Aggregator.initial true true))))) as Hlong
    by (simpl; lia).
  assert (1000 + 2000 <= 3000)%Z as Htime by lia.
  split.
  - split; [reflexivity|]. split; [reflexivity|]. split; [reflexivity|].
    split; [exact Hlong|]. split; [discriminate|]. split; [reflexivity | exact Htime].
  - destruct (release_finalizes_after_two_seconds toLowerCaseLatin
                (Aggregator.run toLowerCaseLatin
                   [(0, Aggregator.PushToTalk true);
                    (100, Aggregator.UserTranscription (js "I have five years"))]%Z
                   (Aggregator.initial true true))
                1000 3000 eq_refl eq_refl eq_refl Hlong
                ltac:(discriminate) eq_refl) as (_ & _ & _ & Hfire).
    destruct (Hfire Htime) as (Hout & _). exact Hout.
Defined.

(* ===================================================================== *)
(** ** Further properties of the pending-speak queue *)
(* ===================================================================== *)

Import JsString.

Section SpeakOrder.
Import SpeakQueue.

Lemma speakAll_ready (texts : list string) (s : State) :
  session s = true -> isReady s = true ->
  speakAll texts s
  = {| session := true; isReady := true; pendingSpeak := pendingSpeak s;
       repeated := repeated s ++ texts |}.
Proof.
  revert s. induction texts as [|t texts IH]; intros s Hs Hr; simpl.
  - rewrite app_nil_r. destruct s; simpl in *. now subst.
  - unfold speak. rewrite Hs, Hr. simpl.
    rewrite IH by reflexivity. simpl. now rewrite <- app_assoc.
Qed.

End SpeakOrder.

(** X10. The order of speech is kept across the moment the stream becomes
    ready: texts passed to [speak] before that moment (the empty ones
    left out) are all spoken before the texts passed after it, each group
    in its order of arrival, and the queue stays empty.  A second ready
    event speaks nothing again. *)
Theorem speech_order_across_ready
    (before after : list string) (s : SpeakQueue.State) :
  SpeakQueue.session s = true ->
  SpeakQueue.isReady s = false ->
  let s1 := SpeakQueue.onStreamReady (SpeakQueue.speakAll before s) in
  let s2 := SpeakQueue.speakAll after s1 in
  SpeakQueue.repeated s2
  = SpeakQueue.repeated s
    ++ List.filter truthy (SpeakQueue.pendingSpeak s ++ before) ++ after /\
  SpeakQueue.pendingSpeak s2 = [] /\
  SpeakQueue.onStreamReady s2 = s2.
Proof.
  intros Hs Hr. cbv zeta.
  destruct (speakAll_enqueues before s (or_intror Hr)) as (Hs1 & _ & Hq & Hrep).
  assert (SpeakQueue.onStreamReady (SpeakQueue.speakAll before s)
          = {| SpeakQueue.session := true; SpeakQueue.isReady := true;
               SpeakQueue.pendingSpeak := [];
               SpeakQueue.repeated :=
                 SpeakQueue.repeated s
                 ++ List.filter truthy (SpeakQueue.pendingSpeak s ++ before) |})
    as Hready.
  { unfold SpeakQueue.onStreamReady. now rewrite drain_spec, Hq, Hrep, Hs1, Hs. }
  rewrite Hready, speakAll_ready by reflexivity. simpl.
  rewrite <- app_assoc. split; [reflexivity|]. split; [reflexivity|].
  reflexivity.
Qed.

(** X10 for two greetings queued before the stream is ready and a question
    after it. *)
Lemma speech_order_across_ready_witness :
  let s := SpeakQueue.onSessionCreated SpeakQueue.initial in
  let s2 := SpeakQueue.speakAll ["Shall we begin?"]
              (SpeakQueue.onStreamReady
                 (SpeakQueue.speakAll ["Hello."; "Welcome."] s)) in
  (SpeakQueue.session s = true /\ SpeakQueue.isReady s = false) /\
  SpeakQueue.repeated s2 = ["Hello."; "Welcome."; "Shall we begin?"].
Proof.
  cbv zeta. split; [split; reflexivity|].
  destruct (speech_order_across_ready ["Hello."; "Welcome."] ["Shall we begin?"]
              (SpeakQueue.onSessionCreated SpeakQueue.initial) eq_refl eq_refl)
    as (Hrep & _).
  exact Hrep.
Defined.

(* ===================================================================== *)
(** ** Further properties of the interview state *)
(* ===================================================================== *)

(** X11. The transcript is append-only.  Whatever actions are dispatched,
    short of [RESET], the transcript afterwards is the transcript before
    followed by the entries of the [ADD_TRANSCRIPT] actions, in the order
    they were dispatched: no entry is lost, changed, doubled or moved, and
    no other action touches the transcript. *)
Theorem transcript_is_append_only
    (actions : list Interview.InterviewAction) (s : Interview.InterviewState) :
  forallb notReset actions = true ->
  Interview.transcript (Interview.dispatchAll actions s)
  = Interview.transcript s ++ entriesAdded actions.
Proof.
  revert s. induction actions as [|a rest IH]; intros s Hno.
  - simpl. now rewrite app_nil_r.
  - simpl in Hno. apply andb_true_iff in Hno as [Ha Hrest].
    unfold Interview.dispatchAll in *. simpl fold_left. rewrite IH by exact Hrest.
    destruct a; simpl; try reflexivity; [|discriminate].
    now rewrite <- app_assoc.
Qed.

(** X11 for two turns with a phase change between them. *)
Lemma transcript_is_append_only_witness :
  let e1 := {| Interview.entry_id := "1"; Interview.entry_role := Interview.interviewer;
               Interview.entry_content := "Tell me about yourself.";
               Interview.entry_timestamp := 10;
               Interview.entry_phase := Interview.GREETING |} in
  let e2 := {| Interview.entry_id := "2"; Interview.entry_role := Interview.candidate;
               Interview.entry_content := "I have five years of experience";
               Interview.entry_timestamp := 20;
               Interview.entry_phase := Interview.GREETING |} in
  let actions := [Interview.ADD_TRANSCRIPT e1;
                  Interview.SET_PHASE Interview.TECHNICAL;
                  Interview.ADD_TRANSCRIPT e2] in
  forallb notReset actions = true /\
  Interview.transcript (Interview.dispatchAll actions Interview.initialState)
  = [e1; e2].
Proof.
  cbv zeta. split; [reflexivity|].
  apply (transcript_is_append_only
           [Interview.ADD_TRANSCRIPT _; Interview.SET_PHASE Interview.TECHNICAL;
            Interview.ADD_TRANSCRIPT _] Interview.initialState).
  reflexivity.
Defined.

Section IncomingMessages.
Import UseInterview.

Lemma handleMessage_avatarApi (m : Incoming) (s : State) :
  avatarApi (handleMessage m s) = avatarApi s.
Proof. destruct m; simpl; try reflexivity. now destruct (avatarApi s). Qed.

End IncomingMessages.

(** X12. What a run of incoming messages does.  The transcript grows by
    the entries of the [transcript_entry] messages, in order of arrival;
    the phase is the one of the last [state_update], or COMPLETED when an
    [evaluation_result] came later; no message can reset or reorder the
    transcript.  The texts of the [avatar_speak] messages are passed to
    the avatar's [speak] in order of arrival when the avatar component is
    mounted, and are dropped, not queued, when it is not. *)
Theorem messages_update_state_in_order
    (messages : list UseInterview.Incoming) (s : UseInterview.State) :
  let s' := UseInterview.handleAll messages s in
  Interview.transcript (UseInterview.interview s')
  = Interview.transcript (UseInterview.interview s)
    ++ UseInterview.entriesOf messages /\
  Interview.phase (UseInterview.interview s')
  = UseInterview.lastPhase (Interview.phase (UseInterview.interview s)) messages /\
  Interview.sessionId (UseInterview.interview s')
  = Interview.sessionId (UseInterview.interview s) /\
  UseInterview.avatar s'
  = (if UseInterview.avatarApi s
     then SpeakQueue.speakAll (UseInterview.textsOf messages) (UseInterview.avatar s)
     else UseInterview.avatar s).
Proof.
  revert s. induction messages as [|m rest IH]; intros s.
  - simpl. rewrite app_nil_r. repeat split. now destruct (UseInterview.avatarApi s).
  - cbv zeta. unfold UseInterview.handleAll in *. simpl fold_left.
    destruct (IH (UseInterview.handleMessage m s)) as (Ht & Hp & Hid & Ha).
    rewrite Ht, Hp, Hid, Ha, handleMessage_avatarApi.
    destruct m; simpl; try (repeat split; now rewrite <- ?app_assoc).
    destruct (UseInterview.avatarApi s); simpl; repeat split.
Qed.

(* ===================================================================== *)
(** ** Properties of the chat input *)
(* ===================================================================== *)

Section ChatInputFacts.
Import Utf16 ChatInput.

(** A text of the chat input as it is sent: not empty, and with no white
    space at either end. *)
Lemma handleSend_sends_trimmed (disabled : bool) (s : State) :
  sentMessages (handleSend disabled s) = sentMessages s \/
  (disabled = false /\ trim (value s) <> [] /\
   sentMessages (handleSend disabled s) = sentMessages s ++ [trim (value s)] /\
   value (handleSend disabled s) = []).
Proof.
  unfold handleSend.
  destruct (truthy (trim (value s))) eqn:Ht; simpl; [|now left].
  destruct disabled; simpl; [now left | right].
  apply str_truthy_true in Ht. repeat split. exact Ht.
Qed.

Lemma step_sends_trimmed (phase : Interview.InterviewPhase) (e : Event) (s : State) :
  sentMessages (step phase e s) = sentMessages s \/
  (isInputDisabled phase = false /\ trim (value s) <> [] /\
   sentMessages (step phase e s) = sentMessages s ++ [trim (value s)]).
Proof.
  destruct e as [text | | key shift]; simpl.
  - now left.
  - destruct (handleSend_sends_trimmed (isInputDisabled phase) s)
      as [H | (H1 & H2 & H3 & _)]; [now left | now right].
  - unfold handleKeyDown. destruct (String.eqb key "Enter" && negb shift); [|now left].
    destruct (handleSend_sends_trimmed (isInputDisabled phase) s)
      as [H | (H1 & H2 & H3 & _)]; [now left | now right].
Qed.

End ChatInputFacts.

(** X13. The chat input sends only trimmed, non-empty text, and nothing
    at all while the interview is in EVALUATION or COMPLETED: whatever is
    typed, clicked or keyed, the calls of [onSend] made so far stay, every
    new one carries a text that is not empty and has no white space at
    either end, and in the two closing phases there is no new one. *)
Theorem chat_input_sends_trimmed_or_nothing
    (phase : Interview.InterviewPhase) (events : list ChatInput.Event)
    (s : ChatInput.State) :
  exists new,
    ChatInput.sentMessages (ChatInput.run phase events s)
    = ChatInput.sentMessages s ++ new /\
    Forall (fun t => t <> [] /\ Utf16.trim t = t) new /\
    (ChatInput.isInputDisabled phase = true -> new = []).
Proof.
  revert s. induction events as [|e rest IH]; intros s.
  - exists []. simpl. rewrite app_nil_r. repeat split. constructor.
  - destruct (IH (ChatInput.step phase e s)) as (new & Hnew & Hall & Hoff).
    unfold ChatInput.run in *. simpl fold_left. rewrite Hnew.
    destruct (step_sends_trimmed phase e s) as [Hsame | (Hon & Hne & Hone)].
    + exists new. rewrite Hsame. repeat split; assumption.
    + exists (trim (ChatInput.value s) :: new).
      rewrite Hone, <- app_assoc. split; [reflexivity|]. split.
      * constructor; [|exact Hall].
        split; [|apply trim_idempotent].
        intros E. apply Hne. exact E.
      * intros Hoff'. congruence.
Qed.

(* ===================================================================== *)
(** ** Properties of the interview countdown *)
(* ===================================================================== *)

(** X14. The countdown of the interview never goes below zero: from [t]
    seconds, with [t] not negative, [n] runs of the interval callback leave
    [max 0 (t - n)] seconds, and the interval is still set exactly as long
    as no run has found the time at zero, that is while [n <= t]. *)
Theorem countdown_stops_at_zero (n : nat) (t : Z) :
  (0 <= t)%Z ->
  Countdown.ticks n {| Countdown.timeRemaining := t; Countdown.interval := true |}
  = {| Countdown.timeRemaining := Z.max 0 (t - Z.of_nat n);
       Countdown.interval := (Z.of_nat n <=? t)%Z |}.
Proof.
  revert t. induction n as [|n IH]; intros t Ht.
  - replace (Z.max 0 (t - Z.of_nat 0)) with t by lia.
    replace (Z.of_nat 0 <=? t)%Z with true by (symmetry; apply Z.leb_le; lia).
    reflexivity.
  - change (Countdown.ticks (S n) ?s) with (Countdown.ticks n (Countdown.tick s)).
    unfold Countdown.tick. cbn [Countdown.interval Countdown.timeRemaining].
    destruct (t <=? 0)%Z eqn:E.
    + apply Z.leb_le in E.
      replace (Z.max 0 (t - Z.of_nat (S n))) with 0%Z by lia.
      replace (Z.of_nat (S n) <=? t)%Z with false
        by (symmetry; apply Z.leb_gt; lia).
      clear. induction n as [|n IHn]; [reflexivity | exact IHn].
    + apply Z.leb_gt in E. rewrite IH by lia.
      replace (Z.max 0 (t - 1 - Z.of_nat n)) with (Z.max 0 (t - Z.of_nat (S n)))
        by lia.
      replace (Z.of_nat n <=? t - 1)%Z with (Z.of_nat (S n) <=? t)%Z;
        [reflexivity|].
      destruct (Z.of_nat n <=? t - 1)%Z eqn:L.
      * apply Z.leb_le in L. apply Z.leb_le. lia.
      * apply Z.leb_gt in L. apply Z.leb_gt. lia.
Qed.

(** X14 for the whole interview of twenty minutes and ten seconds more. *)
Lemma countdown_stops_at_zero_witness :
  (0 <= Countdown.DEFAULT_INTERVIEW_DURATION)%Z /\
  Countdown.ticks 1210 (Countdown.start Interview.TECHNICAL)
  = {| Countdown.timeRemaining := 0; Countdown.interval := false |}.
Proof.
  assert (0 <= Countdown.DEFAULT_INTERVIEW_DURATION)%Z as H
    by (vm_compute; discriminate).
  split; [exact H|].
  exact (eq_trans (countdown_stops_at_zero 1210 _ H) eq_refl).
Defined.

(* ===================================================================== *)
(** ** Further properties of the session channel *)
(* ===================================================================== *)

Section SocketHistory.
Import Channel.

Lemma kept_same (s s' : State) (i : nat) :
  sockets s' = sockets s -> SocketKept s s' i.
Proof. intros E ws H. exists ws. rewrite E. repeat split; [exact H | reflexivity]. Qed.

Lemma kept_app (s s' : State) (l : list WebSocket) (i : nat) :
  sockets s' = sockets s ++ l -> SocketKept s s' i.
Proof.
  intros E ws H. exists ws. rewrite E.
  repeat split; [now apply lookup_app_l_Some | reflexivity].
Qed.

Lemma kept_insert (s s' : State) (j : nat) (w w' : WebSocket) (i : nat) :
  sockets s !! j = Some w ->
  sockets s' = <[j := w']> (sockets s) ->
  wsUrl w' = wsUrl w -> handlers w' = handlers w ->
  sent w `prefix_of` sent w' ->
  SocketKept s s' i.
Proof.
  intros Hj E Hu Hh Hp ws H. rewrite E.
  destruct (decide (j = i)) as [->|Hne].
  - exists w'. rewrite list_lookup_insert_eq by (eapply lookup_lt_Some; eauto).
    assert (ws = w) as -> by congruence. repeat split; assumption.
  - exists ws. rewrite list_lookup_insert_ne by exact Hne.
    repeat split; [exact H | reflexivity].
Qed.

Lemma kept_trans (s1 s2 s3 : State) (i : nat) :
  SocketKept s1 s2 i -> SocketKept s2 s3 i -> SocketKept s1 s3 i.
Proof.
  intros H12 H23 ws H. destruct (H12 ws H) as (ws2 & H2 & Hu2 & Hh2 & Hp2).
  destruct (H23 ws2 H2) as (ws3 & H3 & Hu3 & Hh3 & Hp3).
  exists ws3. repeat split; [exact H3 | congruence | congruence |].
  now transitivity (sent ws2).
Qed.

(** Settle a goal [SocketKept s s' i] whose sockets are those of [s], those
    of [s] with one more, or those of [s] with one socket updated. *)
Ltac kept :=
  first
    [ apply kept_same; reflexivity
    | eapply kept_app; simpl; reflexivity
    | eapply kept_insert;
      [ eassumption | simpl; reflexivity | reflexivity | reflexivity
      | simpl; first [reflexivity | apply prefix_app_r; reflexivity] ] ].

Lemma old_step_keeps (now : Z) (e : Event) (s : State) (i : nat) :
  SocketKept s (UseWebSocket.step now e s) i.
Proof.
  destruct e; simpl;
    unfold UseWebSocket.disconnect, UseWebSocket.onclose,
      UseWebSocket.reconnect, UseWebSocket.connect;
    chan_unfold; simpl; break_match_goal; kept.
Qed.

Lemma stored_step_keeps (now : Z) (e : Event) (s : State) (i : nat) :
  SocketKept s (UseWebSocketStored.step now e s) i.
Proof.
  destruct e; simpl;
    unfold UseWebSocketStored.disconnect, UseWebSocketStored.onclose,
      UseWebSocketStored.reconnect, UseWebSocketStored.connect,
      UseWebSocketStored.orElse;
    chan_unfold; simpl; break_match_goal; kept.
Qed.

End SocketHistory.

(** X15. A socket, once created, stays: whatever the caller asks for and
    whatever the transport and the timers report, in either revision of
    the hook, every socket keeps its place, its URL and its handlers, and
    the messages handed to it so far stay at the head of what it has been
    handed, in the same order. *)
Theorem sockets_and_sent_messages_are_kept
    (tr : list (Z * Channel.Event)) (s : Channel.State) (i : nat) :
  SocketKept s (UseWebSocket.run tr s) i /\
  SocketKept s (UseWebSocketStored.run tr s) i.
Proof.
  revert s. induction tr as [|[now e] tr IH]; intros s.
  - split; apply kept_same; reflexivity.
  - split.
    + apply (kept_trans _ (UseWebSocket.step now e s)); [apply old_step_keeps|].
      apply (IH (UseWebSocket.step now e s)).
    + apply (kept_trans _ (UseWebSocketStored.step now e s));
        [apply stored_step_keeps|].
      apply (IH (UseWebSocketStored.step now e s)).
Qed.

(** X16. Messages sent over an open connection go out in the order of the
    calls: after [send] was called for each message of a list while the
    current socket is open, that socket has been handed what it had been
    handed before followed by the whole list, in order; every other socket
    is as it was, and no warning is printed. *)
Theorem sends_go_out_in_order
    (messages : list Channel.WebSocketMessage) (s : Channel.State)
    (i : nat) (ws : Channel.WebSocket) :
  Channel.wsRef s = Some i ->
  Channel.sockets s !! i = Some ws ->
  Channel.readyState ws = Channel.OPEN ->
  let s' := sendAll messages s in
  Channel.sockets s'
  = <[i := {| Channel.wsUrl := Channel.wsUrl ws; Channel.readyState := Channel.OPEN;
              Channel.sent := Channel.sent ws ++ messages;
              Channel.handlers := Channel.handlers ws |}]> (Channel.sockets s) /\
  Channel.wsRef s' = Some i /\
  Channel.console s' = Channel.console s.
Proof.
  revert s ws. induction messages as [|m rest IH]; intros s ws Href Hws Hopen.
  - simpl. rewrite app_nil_r. split; [|split; [exact Href | reflexivity]].
    symmetry. apply list_insert_id. rewrite Hws. f_equal.
    destruct ws; simpl in *. now subst.
  - cbv zeta. unfold sendAll in *. simpl fold_left.
    assert (Channel.send m s
            = Channel.set_sockets
                (<[i := Channel.transmit m ws]> (Channel.sockets s)) s) as Hsend.
    { unfold Channel.send, Channel.wsOpen, Channel.is_open.
      now rewrite Href, Hws, Hopen. }
    rewrite Hsend.
    assert (i < length (Channel.sockets s)) as Hlt by (eapply lookup_lt_Some; eauto).
    destruct (IH (Channel.set_sockets
                    (<[i := Channel.transmit m ws]> (Channel.sockets s)) s)
                 (Channel.transmit m ws)) as (H1 & H2 & H3).
    + exact Href.
    + simpl. now apply list_lookup_insert_eq.
    + exact Hopen.
    + rewrite H1, H2, H3. simpl. rewrite list_insert_insert_eq.
      rewrite <- app_assoc. auto.
Qed.

(** X16 for two turns sent after the socket has opened. *)
Lemma sends_go_out_in_order_witness :
  let s := UseWebSocket.run
             [(0, Channel.Connect (render (Some "A")) None); (50, Channel.Opened 0)]%Z
             Channel.initial in
  let m1 := {| Channel.msgType := Channel.state_update; Channel.payload := "ptt_start" |} in
  let m2 := {| Channel.msgType := Channel.transcript_entry;
               Channel.payload := "I have five years of experience" |} in
  (Channel.wsRef s = Some 0 /\ Channel.wsOpen s = true) /\
  Channel.transmitted (sendAll [m1; m2] s) = [[m1; m2]].
Proof.
  cbv zeta. split; [split; reflexivity|].
  destruct (sends_go_out_in_order
              [{| Channel.msgType := Channel.state_update;
                  Channel.payload := "ptt_start" |};
               {| Channel.msgType := Channel.transcript_entry;
                  Channel.payload := "I have five years of experience" |}]
              (UseWebSocket.run
                 [(0, Channel.Connect (render (Some "A")) None);
                  (50, Channel.Opened 0)]%Z Channel.initial)
              0 _ eq_refl eq_refl eq_refl) as (Hs & _).
  unfold Channel.transmitted. rewrite Hs. reflexivity.
Defined.

Section ReconnectTimers.
Import Channel.

Lemma old_timers_only_by_close (now : Z) (e : Event) (s : State) (h : nat) (t : Timer) :
  (forall i, e <> Closed i) ->
  timers (UseWebSocket.step now e s) !! h = Some t -> timers s !! h = Some t.
Proof.
  intros Hnot. destruct e; simpl; try (now exfalso; eapply Hnot);
    unfold UseWebSocket.disconnect, UseWebSocket.reconnect, UseWebSocket.connect;
    chan_unfold; simpl; break_match_goal; simpl; try tauto;
    intros H; apply lookup_delete_Some in H; tauto.
Qed.

Lemma stored_timers_only_by_close (now : Z) (e : Event) (s : State) (h : nat) (t : Timer) :
  (forall i, e <> Closed i) ->
  timers (UseWebSocketStored.step now e s) !! h = Some t -> timers s !! h = Some t.
Proof.
  intros Hnot. destruct e; simpl; try (now exfalso; eapply Hnot);
    unfold UseWebSocketStored.disconnect, UseWebSocketStored.reconnect,
      UseWebSocketStored.connect, UseWebSocketStored.orElse;
    chan_unfold; simpl; break_match_goal; simpl; try tauto;
    intros H; apply lookup_delete_Some in H; tauto.
Qed.

End ReconnectTimers.

(** X17. Only the closure of a socket arms a reconnection.  In either
    revision of the hook, an event that is not a close event (a call of
    [connect], [disconnect] or [send], an open event, an incoming message
    whether it parses or not, a transport error, a timer that fires)
    leaves no timer pending that was not pending before. *)
Theorem reconnection_armed_by_closure_only
    (now : Z) (e : Channel.Event) (s : Channel.State) (h : nat) (t : Channel.Timer) :
  (forall i, e <> Channel.Closed i) ->
  (Channel.timers (UseWebSocket.step now e s) !! h = Some t ->
   Channel.timers s !! h = Some t) /\
  (Channel.timers (UseWebSocketStored.step now e s) !! h = Some t ->
   Channel.timers s !! h = Some t).
Proof.
  intros Hnot. split;
    [now apply old_timers_only_by_close | now apply stored_timers_only_by_close].
Qed.

(** X17 for a transport error on an open socket. *)
Lemma reconnection_armed_by_closure_only_witness :
  let s := UseWebSocket.run
             [(0, Channel.Connect (render (Some "A")) None); (50, Channel.Opened 0)]%Z
             Channel.initial in
  (forall i, Channel.Errored 0 <> Channel.Closed i) /\
  forall h t, Channel.timers (UseWebSocket.step 900 (Channel.Errored 0) s) !! h = Some t ->
              Channel.timers s !! h = Some t.
Proof.
  cbv zeta. split; [discriminate|]. intros h t.
  apply (reconnection_armed_by_closure_only 900 (Channel.Errored 0)).
  discriminate.
Defined.

Section StoredInvariant.
Import Channel UseWebSocketStored.

Lemma current_update_readyState
    (s : State) (j : nat) (w : WebSocket) (r : ReadyState) (s' : State) :
  CurrentForStored s ->
  sockets s !! j = Some w ->
  sockets s' = <[j := set_readyState r w]> (sockets s) ->
  wsRef s' = wsRef s -> activeSessionId s' = activeSessionId s ->
  CurrentForStored s'.
Proof.
  intros Hcur Hj Es Er Ea i Hi. rewrite Er in Hi.
  destruct (Hcur i Hi) as (ws & sid & Hws & Hsid & Hurl).
  rewrite Es, Ea. destruct (decide (j = i)) as [->|Hne].
  - exists (set_readyState r w), sid.
    rewrite list_lookup_insert_eq by (eapply lookup_lt_Some; eauto).
    assert (ws = w) as -> by congruence. auto.
  - exists ws, sid. rewrite list_lookup_insert_ne by exact Hne. auto.
Qed.

Lemma current_same (s s' : State) :
  CurrentForStored s ->
  sockets s' = sockets s -> wsRef s' = wsRef s ->
  activeSessionId s' = activeSessionId s ->
  CurrentForStored s'.
Proof. unfold CurrentForStored. intros H -> -> ->. exact H. Qed.

Lemma current_connect (cl : Closure) (o : option string) (s : State) :
  CurrentForStored s -> CurrentForStored (connect cl o s).
Proof.
  intros Hcur. unfold connect.
  destruct (wsOpen s); [exact Hcur|].
  destruct (orElse o (sessionId cl)) as [sid|];
    [destruct (truthy sid)|]; try (apply (current_same s); auto; fail).
  intros i Hi. simpl in Hi. injection Hi as <-.
  exists {| wsUrl := url cl +:+ "/" +:+ sid; readyState := CONNECTING;
            sent := []; handlers := cl |}, sid.
  simpl. split; [|split; reflexivity].
  apply list_lookup_middle. reflexivity.
Qed.

Lemma current_step (now : Z) (e : Event) (s : State) :
  CurrentForStored s -> CurrentForStored (step now e s).
Proof.
  intros Hcur.
  destruct e as [cl o | | m | i | i data | i | i | h]; simpl.
  - now apply current_connect.
  - intros i Hi. unfold disconnect in Hi. simpl in Hi. discriminate.
  - unfold send. destruct (wsOpen s); [|apply (current_same s); auto].
    destruct (wsRef s) as [i|] eqn:Er; [|exact Hcur].
    destruct (sockets s !! i) as [ws|] eqn:Ews; [|exact Hcur].
    intros i' Hi'. simpl in Hi'. rewrite Er in Hi'. injection Hi' as <-.
    destruct (Hcur i Er) as (ws0 & sid & Hws & Hsid & Hurl).
    exists (transmit m ws), sid. simpl.
    rewrite list_lookup_insert_eq by (eapply lookup_lt_Some; eauto).
    assert (ws0 = ws) as -> by congruence. auto.
  - destruct (sockets s !! i) as [ws|] eqn:Ews; [|exact Hcur].
    destruct (readyState ws); try exact Hcur.
    unfold onopen, notify. destruct (onConnect (handlers ws));
      eapply (current_update_readyState s i ws OPEN); eauto.
  - destruct (sockets s !! i) as [ws|]; [|exact Hcur].
    destruct (is_open ws); [|exact Hcur].
    unfold onmessage, notify. destruct data; [destruct (onMessage (handlers ws))|];
      apply (current_same s); auto.
  - destruct (sockets s !! i) as [ws|]; [|exact Hcur].
    unfold onerror, notify. destruct (onError (handlers ws));
      apply (current_same s); auto.
  - destruct (sockets s !! i) as [ws|] eqn:Ews; [|exact Hcur].
    destruct (readyState ws); try exact Hcur;
      unfold onclose, notify; destruct (onDisconnect (handlers ws));
      eapply (current_update_readyState s i ws CLOSED); eauto.
  - destruct (timers s !! h) as [t|]; [|exact Hcur].
    destruct (due t <=? now)%Z; [|exact Hcur].
    unfold reconnect.
    assert (CurrentForStored (clearTimeout h s)) as Hcur'
      by (apply (current_same s); auto).
    destruct (truthyId _); [now apply current_connect | exact Hcur'].
Qed.

End StoredInvariant.

(** X18. In the later revision of the hook the socket in [wsRef] is always
    a socket for the identifier kept in [activeSessionIdRef]: whatever
    calls and events follow the mounting of the hook, when there is a
    current socket there is a stored identifier, and the URL of the socket
    ends in it. *)
Theorem current_socket_is_for_stored_identifier (tr : list (Z * Channel.Event)) :
  CurrentForStored (UseWebSocketStored.run tr Channel.initial).
Proof.
  assert (forall s, CurrentForStored s ->
                    CurrentForStored (UseWebSocketStored.run tr s)) as H.
  { induction tr as [|[now e] tr IH]; intros s Hs; [exact Hs|].
    apply IH, current_step, Hs. }
  apply H. intros i Hi. discriminate.
Qed.

(** X19 (the lemma [stored_no_reconnect_after_disconnect]) for a session
    that is ended while connected: the close event and the timer that
    follow open no socket. *)
Lemma stored_no_reconnect_after_disconnect_witness :
  let s := UseWebSocketStored.run
             [(0, Channel.Connect (render None) (Some "A")); (50, Channel.Opened 0)]%Z
             Channel.initial in
  let tr := [(60040, Channel.Closed 0); (63040, Channel.TimerFired 0)]%Z in
  forallb (fun te => notConnect (snd te)) tr = true /\
  length (Channel.sockets (UseWebSocketStored.run tr (UseWebSocketStored.disconnect s)))
  = length (Channel.sockets s).
Proof.
  cbv zeta. split; [reflexivity|].
  destruct (stored_no_reconnect_after_disconnect
              [(60040, Channel.Closed 0); (63040, Channel.TimerFired 0)]%Z
              (UseWebSocketStored.run
                 [(0, Channel.Connect (render None) (Some "A"));
                  (50, Channel.Opened 0)]%Z Channel.initial) eq_refl) as (Hlen & _).
  exact Hlen.
Defined.

(** X20 (the lemma [stored_reconnect_uses_last_identifier]) when the hook
    was rendered without an identifier and [connect] was given one. *)
Lemma stored_reconnect_uses_last_identifier_witness :
  let s := UseWebSocketStored.run
             [(0, Channel.Connect (render None) (Some "A")); (50, Channel.Opened 0);
              (9000, Channel.Closed 0)]%Z
             Channel.initial in
  let t := {| Channel.due := 12000; Channel.scheduledBy := render None |} in
  (Channel.timers s !! 0 = Some t /\ (Channel.due t <= 12000)%Z /\
   Channel.activeSessionId s = Some "A" /\ "A" <> EmptyString /\
   Channel.wsOpen s = false) /\
  map Channel.wsUrl
      (Channel.sockets (UseWebSocketStored.step 12000 (Channel.TimerFired 0) s))
  = ["ws://localhost:8000/ws/A"; "ws://localhost:8000/ws/A"].
Proof.
  cbv zeta.
  assert (Channel.due {| Channel.due := 12000; Channel.scheduledBy := render None |}
          <= 12000)%Z as Hdue by (simpl; lia).
  split.
  - split; [reflexivity|]. split; [exact Hdue|]. split; [reflexivity|].
    split; [discriminate | reflexivity].
  - destruct (stored_reconnect_uses_last_identifier
                (UseWebSocketStored.run
                   [(0, Channel.Connect (render None) (Some "A"));
                    (50, Channel.Opened 0); (9000, Channel.Closed 0)]%Z
                   Channel.initial)
                0 {| Channel.due := 12000; Channel.scheduledBy := render None |}
                12000 "A" eq_refl Hdue eq_refl ltac:(discriminate) eq_refl)
      as (Hs & _).
    rewrite Hs. reflexivity.
Defined.

(** X21 (the lemma [stored_closure_schedules_reconnect]) for the closure of
    an open socket. *)
Lemma stored_closure_schedules_reconnect_witness :
  let s := UseWebSocketStored.run
             [(0, Channel.Connect (render None) (Some "A")); (50, Channel.Opened 0)]%Z
             Channel.initial in
  let s' := UseWebSocketStored.step 9000 (Channel.Closed 0) s in
  (exists ws, Channel.sockets s !! 0 = Some ws /\
              Channel.readyState ws <> Channel.CLOSED) /\
  Channel.isConnected s' = false /\
  Channel.reconnectTimeout s' = Some 0.
Proof.
  cbv zeta. split.
  - eexists. split; [reflexivity | discriminate].
  - destruct (stored_closure_schedules_reconnect
                (UseWebSocketStored.run
                   [(0, Channel.Connect (render None) (Some "A"));
                    (50, Channel.Opened 0)]%Z Channel.initial)
                0 _ 9000 eq_refl ltac:(discriminate)) as (Hc & _ & _ & Hr & _).
    split; [exact Hc | exact Hr].
Defined.

(* ===================================================================== *)
(** ** Properties of ending a session *)
(* ===================================================================== *)

(** X22. Ending a session over an open connection tells the server once
    and shuts the channel for good: the open socket is handed exactly one
    more message, the [end_session] control message, and starts closing;
    the reducer is back in its initial state; the stored identifier and the
    current socket are dropped; and whatever close events and timers
    follow, no socket is opened until the caller connects again. *)
Theorem end_session_says_goodbye_once
    (s : EndSession.State) (i : nat) (ws : Channel.WebSocket)
    (tr : list (Z * Channel.Event)) :
  Channel.truthyId (Interview.sessionId (EndSession.reducer s)) = true ->
  Channel.wsRef (EndSession.channel s) = Some i ->
  Channel.sockets (EndSession.channel s) !! i = Some ws ->
  Channel.readyState ws = Channel.OPEN ->
  forallb (fun te => notConnect (snd te)) tr = true ->
  let s' := EndSession.endSession s in
  EndSession.reducer s' = Interview.initialState /\
  Channel.sockets (EndSession.channel s')
  = <[i := {| Channel.wsUrl := Channel.wsUrl ws; Channel.readyState := Channel.CLOSING;
              Channel.sent := Channel.sent ws ++ [EndSession.endSessionMessage];
              Channel.handlers := Channel.handlers ws |}]>
      (Channel.sockets (EndSession.channel s)) /\
  Channel.wsRef (EndSession.channel s') = None /\
  Channel.activeSessionId (EndSession.channel s') = None /\
  length (Channel.sockets (UseWebSocketStored.run tr (EndSession.channel s')))
  = length (Channel.sockets (EndSession.channel s)).
Proof.
  intros Hid Href Hws Hopen Hquiet. cbv zeta.
  assert (i < length (Channel.sockets (EndSession.channel s))) as Hlt
    by (eapply lookup_lt_Some; eauto).
  unfold EndSession.endSession. rewrite Hid. simpl.
  assert (Channel.send EndSession.endSessionMessage (EndSession.channel s)
          = Channel.set_sockets
              (<[i := Channel.transmit EndSession.endSessionMessage ws]>
                 (Channel.sockets (EndSession.channel s)))
              (EndSession.channel s)) as Hsend.
  { unfold Channel.send, Channel.wsOpen, Channel.is_open.
    now rewrite Href, Hws, Hopen. }
  rewrite Hsend. split; [reflexivity|].
  destruct (stored_no_identifier_run tr
              (UseWebSocketStored.disconnect
                 (Channel.set_sockets
                    (<[i := Channel.transmit EndSession.endSessionMessage ws]>
                       (Channel.sockets (EndSession.channel s)))
                    (EndSession.channel s))))
    as (Hlen & _); [| exact Hquiet |].
  { apply stored_disconnect_clears. }
  rewrite Hlen. clear Hlen.
  unfold UseWebSocketStored.disconnect.
  destruct (Channel.reconnectTimeout _) eqn:Et; chan_unfold; simpl in *;
    rewrite Href; simpl; rewrite list_lookup_insert_eq by exact Hlt; simpl;
    rewrite Hopen; simpl; rewrite list_insert_insert_eq, !length_insert;
    repeat split.
Qed.

(** X22 for a session that is ended after one turn was sent. *)
Lemma end_session_says_goodbye_once_witness :
  let c := UseWebSocketStored.run
             [(0, Channel.Connect (render None) (Some "A")); (50, Channel.Opened 0)]%Z
             Channel.initial in
  let s := {| EndSession.reducer :=
                Interview.interviewReducer Interview.initialState
                  (Interview.SET_SESSION "A");
              EndSession.channel := c |} in
  let tr := [(60040, Channel.Closed 0); (63040, Channel.TimerFired 0)]%Z in
  (Channel.truthyId (Interview.sessionId (EndSession.reducer s)) = true /\
   Channel.wsRef c = Some 0 /\ Channel.wsOpen c = true /\
   forallb (fun te => notConnect (snd te)) tr = true) /\
  EndSession.reducer (EndSession.endSession s) = Interview.initialState /\
  Channel.transmitted
    (UseWebSocketStored.run tr (EndSession.channel (EndSession.endSession s)))
  = [[EndSession.endSessionMessage]].
Proof.
  cbv zeta. split; [repeat split|].
  destruct (end_session_says_goodbye_once
              {| EndSession.reducer :=
                   Interview.interviewReducer Interview.initialState
                     (Interview.SET_SESSION "A");
                 EndSession.channel :=
                   UseWebSocketStored.run
                     [(0, Channel.Connect (render None) (Some "A"));
                      (50, Channel.Opened 0)]%Z Channel.initial |}
              0 _ [(60040, Channel.Closed 0); (63040, Channel.TimerFired 0)]%Z
              eq_refl eq_refl eq_refl eq_refl eq_refl) as (Hred & _).
  split; [exact Hred | reflexivity].
Defined.

(* ===================================================================== *)
(** ** Properties of the display of the remaining time *)
(* ===================================================================== *)

Section TimerFacts.
Import TimerDisplay.

Lemma pad_two_digits (n : nat) :
  n < 100 -> String.length (padStart2 (toString n)) = 2.
Proof.
  intros H.
  assert (forallb (fun k => String.length (padStart2 (toString k)) =? 2) (seq 0 100)
          = true) as Hall by (vm_compute; reflexivity).
  rewrite forallb_forall in Hall.
  apply Nat.eqb_eq, Hall, in_seq. lia.
Qed.

Lemma pad_injective (a b : nat) :
  a < 100 -> b < 100 ->
  padStart2 (toString a) = padStart2 (toString b) -> a = b.
Proof.
  intros Ha Hb Heq.
  assert (forallb
            (fun x => forallb
                        (fun y => implb (String.eqb (padStart2 (toString x))
                                                    (padStart2 (toString y)))
                                        (x =? y))
                        (seq 0 100))
            (seq 0 100) = true) as Hall by (vm_compute; reflexivity).
  rewrite forallb_forall in Hall.
  specialize (Hall a). rewrite forallb_forall in Hall.
  assert (implb (String.eqb (padStart2 (toString a)) (padStart2 (toString b)))
                (a =? b) = true) as H.
  { apply Hall; apply in_seq; lia. }
  rewrite Heq, String.eqb_refl in H. simpl in H. now apply Nat.eqb_eq.
Qed.

(** Two strings that start with parts of the same length. *)
Lemma append_same_length (a b x y : string) :
  String.length a = String.length b ->
  a +:+ x = b +:+ y -> a = b /\ x = y.
Proof.
  revert b. induction a as [|c a IH]; intros [|d b] Hlen Heq; simpl in Hlen;
    try discriminate.
  - now split.
  - rewrite !append_String in Heq. injection Heq as -> Heq.
    destruct (IH b) as [-> ->]; [lia | exact Heq | now split].
Qed.

End TimerFacts.

(** X23. The display of the remaining time.  For every time below 100
    minutes the text shown has exactly five characters, two for the
    minutes, a colon, two for the seconds, and two different times are
    never shown as the same text; the warning is shown when it is asked
    for and in the last minute. *)
Theorem timer_display_is_mm_ss (t : nat) :
  t < 100 * 60 ->
  String.length (TimerDisplay.formattedTime t) = 5 /\
  (forall t', t' < 100 * 60 ->
     TimerDisplay.formattedTime t = TimerDisplay.formattedTime t' -> t = t') /\
  (forall isWarning,
     TimerDisplay.showWarning isWarning t = true <-> isWarning = true \/ t < 60).
Proof.
  intros Ht.
  assert (forall u, u < 100 * 60 -> TimerDisplay.minutes u < 100 /\
                               TimerDisplay.seconds u < 60) as Hrange.
  { intros u Hu. unfold TimerDisplay.minutes, TimerDisplay.seconds. split.
    - apply Nat.Div0.div_lt_upper_bound. lia.
    - apply Nat.mod_upper_bound. lia. }
  destruct (Hrange t Ht) as [Hm Hs].
  split; [|split].
  - unfold TimerDisplay.formattedTime. rewrite !length_append.
    rewrite !pad_two_digits by lia. reflexivity.
  - intros t' Ht' Heq. destruct (Hrange t' Ht') as [Hm' Hs'].
    unfold TimerDisplay.formattedTime in Heq.
    apply append_same_length in Heq as [Hmin Hrest];
      [|rewrite !pad_two_digits by lia; reflexivity].
    apply (append_same_length ":" ":") in Hrest as [_ Hsec]; [|reflexivity].
    apply pad_injective in Hmin; [|lia|lia].
    apply pad_injective in Hsec; [|lia|lia].
    unfold TimerDisplay.minutes, TimerDisplay.seconds in *.
    rewrite (Nat.div_mod_eq t 60), (Nat.div_mod_eq t' 60). lia.
  - intros w. unfold TimerDisplay.showWarning.
    rewrite orb_true_iff, Nat.ltb_lt. reflexivity.
Qed.

(** X23 at ninety seconds. *)
Lemma timer_display_is_mm_ss_witness :
  90 < 100 * 60 /\
  TimerDisplay.formattedTime 90 = "01:30" /\
  String.length (TimerDisplay.formattedTime 90) = 5.
Proof.
  assert (90 < 100 * 60) as H by lia.
  split; [exact H|]. split; [reflexivity|].
  exact (proj1 (timer_display_is_mm_ss 90 H)).
Defined.
